(** * Distributed code mesh: topology, replication, guardians, routing

    A shallow embedding of [src/aiplatform/mesh_ide.py] and the properties
    of the mesh specification checked against it.

    Conventions of the embedding:
    - a Python [dict] whose iteration order is observable ([nodes],
      [replicas]) is an insertion-ordered association list; a [dict] that is
      only looked up ([files], [distances], [previous], [network_latencies],
      [agents], [file_guardians]) is a [gmap];
    - [datetime.now()] and [uuid.uuid4()] are read from a [World] that hands
      out the successive readings of two arbitrary oracles;
    - a raised exception is the [Raise] result, a loop that never ends is
      [Diverge]. *)

From Stdlib Require Import ZArith QArith.
From stdpp Require Import gmap strings list fin_maps.

#[global] Set Warnings "-clear-no-such-hyp".

(** ** [hashlib.sha256]

    FIPS 180-4 SHA-256 on byte strings; 32-bit words are [Z] with the
    wrap-around written out. *)
Module SHA256.
Local Open Scope Z_scope.

Definition w32 (x : Z) : Z := x `mod` 2 ^ 32.
Definition add32 (x y : Z) : Z := w32 (x + y).
Definition rotr (n x : Z) : Z :=
  Z.lor (Z.shiftr x n) (w32 (Z.shiftl x (32 - n))).
Definition not32 (x : Z) : Z := 2 ^ 32 - 1 - x.

Definition Ch (x y z : Z) : Z := Z.lxor (Z.land x y) (Z.land (not32 x) z).
Definition Maj (x y z : Z) : Z :=
  Z.lxor (Z.lxor (Z.land x y) (Z.land x z)) (Z.land y z).
Definition Sigma0 (x : Z) : Z := Z.lxor (Z.lxor (rotr 2 x) (rotr 13 x)) (rotr 22 x).
Definition Sigma1 (x : Z) : Z := Z.lxor (Z.lxor (rotr 6 x) (rotr 11 x)) (rotr 25 x).
Definition sigma0 (x : Z) : Z := Z.lxor (Z.lxor (rotr 7 x) (rotr 18 x)) (Z.shiftr x 3).
Definition sigma1 (x : Z) : Z := Z.lxor (Z.lxor (rotr 17 x) (rotr 19 x)) (Z.shiftr x 10).

(** The first [n] primes, by trial division from [candidate] on. *)
Fixpoint primes_from (fuel n : nat) (candidate : Z) (found : list Z) : list Z :=
  match fuel, n with
  | S fuel', S n' =>
      if forallb (λ p, negb (candidate `mod` p =? 0)) found
      then primes_from fuel' n' (candidate + 1) (found ++ [candidate])
      else primes_from fuel' n (candidate + 1) found
  | _, _ => found
  end.

Definition primes (n : nat) : list Z := primes_from 400 n 2 [].

(** The largest [r] below [2 ^ bits] with [r ^ k <= x]. *)
Fixpoint iroot (k : Z) (bits : nat) (x r : Z) : Z :=
  match bits with
  | O => r
  | S bits' =>
      let r' := r + 2 ^ Z.of_nat bits' in
      iroot k bits' x (if (r' ^ k <=? x) then r' else r)
  end.

(** The first 32 bits of the fractional part of the [k]-th root of [p]. *)
Definition root_fraction (k p : Z) : Z := w32 (iroot k 40 (p * 2 ^ (32 * k)) 0).

(** Round constants: from the cube roots of the first 64 primes. *)
Definition K : list Z := Eval vm_compute in root_fraction 3 <$> primes 64.

(** Initial hash value: from the square roots of the first 8 primes. *)
Definition H0 : list Z := Eval vm_compute in root_fraction 2 <$> primes 8.

Definition bytes_of_string (s : string) : list Z :=
  (λ c, Z.of_N (Ascii.N_of_ascii c)) <$> String.list_ascii_of_string s.

(** Big-endian bytes of [x], [n] of them. *)
Fixpoint be_bytes (n : nat) (x : Z) : list Z :=
  match n with
  | O => []
  | S n' => (Z.shiftr x (8 * Z.of_nat n')) `mod` 256 :: be_bytes n' x
  end.

Definition pad (msg : list Z) : list Z :=
  let len := Z.of_nat (length msg) in
  let zeros := Z.to_nat ((55 - len) `mod` 64) in
  msg ++ [0x80] ++ replicate zeros 0 ++ be_bytes 8 (8 * len).

Fixpoint words_of_bytes (fuel : nat) (bs : list Z) : list Z :=
  match fuel, bs with
  | S fuel', b0 :: b1 :: b2 :: b3 :: rest =>
      (b0 * 2 ^ 24 + b1 * 2 ^ 16 + b2 * 2 ^ 8 + b3) :: words_of_bytes fuel' rest
  | _, _ => []
  end.

(** The message schedule, most recent word first. *)
Fixpoint schedule (n : nat) (rev_w : list Z) : list Z :=
  match n with
  | O => rev_w
  | S n' =>
      let g i := default 0 (rev_w !! i) in
      schedule n'
        (add32 (add32 (add32 (sigma1 (g 1%nat)) (g 6%nat)) (sigma0 (g 14%nat))) (g 15%nat)
           :: rev_w)
  end.

Definition round (st : list Z) (kw : Z * Z) : list Z :=
  match st with
  | [a; b; c; d; e; f; g; h] =>
      let t1 := add32 (add32 (add32 (add32 h (Sigma1 e)) (Ch e f g)) kw.1) kw.2 in
      let t2 := add32 (Sigma0 a) (Maj a b c) in
      [add32 t1 t2; a; b; c; add32 d t1; e; f; g]
  | _ => st
  end.

Definition compress (hs : list Z) (block : list Z) : list Z :=
  let w := reverse (schedule 48 (reverse block)) in
  zip_with add32 hs (foldl round hs (zip K w)).

Fixpoint blocks (fuel : nat) (ws : list Z) : list (list Z) :=
  match fuel, ws with
  | S fuel', _ :: _ => take 16 ws :: blocks fuel' (drop 16 ws)
  | _, _ => []
  end.

Definition digest_words (msg : list Z) : list Z :=
  let bs := pad msg in
  let ws := words_of_bytes (length bs) bs in
  foldl compress H0 (blocks (length ws) ws).

Definition hex_digit (d : Z) : Ascii.ascii :=
  if decide (d < 10) then Ascii.ascii_of_N (Z.to_N (48 + d))
  else Ascii.ascii_of_N (Z.to_N (87 + d)).

Definition hex_of_byte (b : Z) : list Ascii.ascii := [hex_digit (b / 16); hex_digit (b `mod` 16)].

Definition hexdigest (s : string) : string :=
  String.string_of_list_ascii
    (mbind hex_of_byte (mbind (be_bytes 4) (digest_words (bytes_of_string s)))).

End SHA256.

(** [hashlib.sha256(content.encode()).hexdigest()[:16]] *)
Definition content_hash (content : string) : string :=
  String.substring 0 16 (SHA256.hexdigest content).

(** ** [hashlib.md5]

    RFC 1321 MD5 on byte strings, little-endian throughout. *)
Module MD5.
Local Open Scope Z_scope.

Definition w32 (x : Z) : Z := x `mod` 2 ^ 32.
Definition add32 (x y : Z) : Z := w32 (x + y).
Definition rotl (n x : Z) : Z :=
  Z.lor (w32 (Z.shiftl x n)) (Z.shiftr x (32 - n)).
Definition not32 (x : Z) : Z := 2 ^ 32 - 1 - x.

Definition shifts : list Z :=
  [ 7; 12; 17; 22; 7; 12; 17; 22; 7; 12; 17; 22; 7; 12; 17; 22;
    5; 9; 14; 20; 5; 9; 14; 20; 5; 9; 14; 20; 5; 9; 14; 20;
    4; 11; 16; 23; 4; 11; 16; 23; 4; 11; 16; 23; 4; 11; 16; 23;
    6; 10; 15; 21; 6; 10; 15; 21; 6; 10; 15; 21; 6; 10; 15; 21 ].

Definition K : list Z :=
  [ 0xd76aa478; 0xe8c7b756; 0x242070db; 0xc1bdceee; 0xf57c0faf; 0x4787c62a;
    0xa8304613; 0xfd469501; 0x698098d8; 0x8b44f7af; 0xffff5bb1; 0x895cd7be;
    0x6b901122; 0xfd987193; 0xa679438e; 0x49b40821; 0xf61e2562; 0xc040b340;
    0x265e5a51; 0xe9b6c7aa; 0xd62f105d; 0x02441453; 0xd8a1e681; 0xe7d3fbc8;
    0x21e1cde6; 0xc33707d6; 0xf4d50d87; 0x455a14ed; 0xa9e3e905; 0xfcefa3f8;
    0x676f02d9; 0x8d2a4c8a; 0xfffa3942; 0x8771f681; 0x6d9d6122; 0xfde5380c;
    0xa4beea44; 0x4bdecfa9; 0xf6bb4b60; 0xbebfbc70; 0x289b7ec6; 0xeaa127fa;
    0xd4ef3085; 0x04881d05; 0xd9d4d039; 0xe6db99e5; 0x1fa27cf8; 0xc4ac5665;
    0xf4292244; 0x432aff97; 0xab9423a7; 0xfc93a039; 0x655b59c3; 0x8f0ccc92;
    0xffeff47d; 0x85845dd1; 0x6fa87e4f; 0xfe2ce6e0; 0xa3014314; 0x4e0811a1;
    0xf7537e82; 0xbd3af235; 0x2ad7d2bb; 0xeb86d391 ].

Definition init : list Z := [ 0x67452301; 0xefcdab89; 0x98badcfe; 0x10325476 ].

(** Little-endian bytes of [x], [n] of them. *)
Fixpoint le_bytes (n : nat) (x : Z) : list Z :=
  match n with
  | O => []
  | S n' => x `mod` 256 :: le_bytes n' (x / 256)
  end.

Definition pad (msg : list Z) : list Z :=
  let len := Z.of_nat (length msg) in
  let zeros := Z.to_nat ((55 - len) `mod` 64) in
  msg ++ [0x80] ++ replicate zeros 0 ++ le_bytes 8 (8 * len).

Fixpoint words_of_bytes (fuel : nat) (bs : list Z) : list Z :=
  match fuel, bs with
  | S fuel', b0 :: b1 :: b2 :: b3 :: rest =>
      (b0 + b1 * 2 ^ 8 + b2 * 2 ^ 16 + b3 * 2 ^ 24) :: words_of_bytes fuel' rest
  | _, _ => []
  end.

Definition step (m : list Z) (st : list Z) (i : Z) : list Z :=
  match st with
  | [a; b; c; d] =>
      let '(f, g) :=
        if decide (i < 16) then (Z.lor (Z.land b c) (Z.land (not32 b) d), i)
        else if decide (i < 32) then
          (Z.lor (Z.land d b) (Z.land (not32 d) c), (5 * i + 1) `mod` 16)
        else if decide (i < 48) then (Z.lxor (Z.lxor b c) d, (3 * i + 5) `mod` 16)
        else (Z.lxor c (Z.lor b (not32 d)), (7 * i) `mod` 16) in
      let ix := Z.to_nat i in
      let f' := add32 (add32 (add32 f a) (default 0 (K !! ix)))
                  (default 0 (m !! Z.to_nat g)) in
      [d; add32 b (rotl (default 0 (shifts !! ix)) f'); b; c]
  | _ => st
  end.

Definition compress (hs : list Z) (block : list Z) : list Z :=
  zip_with add32 hs (foldl (step block) hs (seqZ 0 64)).

Fixpoint blocks (fuel : nat) (ws : list Z) : list (list Z) :=
  match fuel, ws with
  | S fuel', _ :: _ => take 16 ws :: blocks fuel' (drop 16 ws)
  | _, _ => []
  end.

Definition digest_words (msg : list Z) : list Z :=
  let bs := pad msg in
  let ws := words_of_bytes (length bs) bs in
  foldl compress init (blocks (length ws) ws).

Definition hexdigest (s : string) : string :=
  String.string_of_list_ascii
    (mbind SHA256.hex_of_byte
       (mbind (le_bytes 4) (digest_words (SHA256.bytes_of_string s)))).

End MD5.

(** [f"file_{hashlib.md5(path.encode()).hexdigest()[:8]}"] *)
Definition file_id_of_path (path : string) : string :=
  ("file_" +:+ String.substring 0 8 (MD5.hexdigest path))%string.

(** ** Python values shared by the whole model *)

(** Exceptions the modelled code can raise. *)
Inductive Exn :=
  | KeyError (key : string).

(** Outcome of a call: a value, a raised exception, or no return at all. *)
Inductive result (A : Type) :=
  | Ok (a : A)
  | Raise (e : Exn)
  | Diverge.
Arguments Ok {A} a.
Arguments Raise {A} e.
Arguments Diverge {A}.

Definition result_bind {A B} (r : result A) (k : A → result B) : result B :=
  match r with
  | Ok a => k a
  | Raise e => Raise e
  | Diverge => Diverge
  end.

(** The two sources of non-determinism: [datetime.now()] and
    [uuid.uuid4()].  The [n]-th call of each returns the [n]-th reading of
    an arbitrary oracle. *)
Record World := {
  clock : nat → Z;            (* successive values of datetime.now() *)
  clock_reads : nat;
  uuid_source : nat → string; (* successive values of uuid.uuid4().hex *)
  uuid_reads : nat;
}.

(** Computations that read the world and may raise. *)
Definition M (A : Type) : Type := World → result (A * World).

#[global] Instance M_ret : MRet M := λ A a w, Ok (a, w).
#[global] Instance M_bind : MBind M := λ A B k m w,
  match m w with
  | Ok (a, w') => k a w'
  | Raise e => Raise e
  | Diverge => Diverge
  end.
Definition raise {A} (e : Exn) : M A := λ _, Raise e.

(** [datetime.now()] *)
Definition now : M Z :=
  λ w, Ok (clock w (clock_reads w),
           {| clock := clock w; clock_reads := S (clock_reads w);
              uuid_source := uuid_source w; uuid_reads := uuid_reads w |}).

(** [uuid.uuid4().hex] *)
Definition uuid4_hex : M string :=
  λ w, Ok (uuid_source w (uuid_reads w),
           {| clock := clock w; clock_reads := clock_reads w;
              uuid_source := uuid_source w; uuid_reads := S (uuid_reads w) |}).

(** [str(uuid.uuid4())]: the hexadecimal digits grouped 8-4-4-4-12. *)
Definition uuid4_str : M string :=
  h ← uuid4_hex;
  mret (String.substring 0 8 h +:+ "-" +:+ String.substring 8 4 h +:+ "-"
       +:+ String.substring 12 4 h +:+ "-" +:+ String.substring 16 4 h +:+ "-"
       +:+ String.substring 20 12 h)%string.

(** [d[k]] on a dict that is only looked up. *)
Definition getitem {V} (d : gmap string V) (k : string) : M V :=
  match d !! k with
  | Some v => mret v
  | None => raise (KeyError k)
  end.

(** *** Insertion-ordered dicts *)
Module odict.
Section defs.
Context {V : Type}.

Definition t := list (string * V).

Definition keys (d : t) : list string := fst <$> d.
Definition values (d : t) : list V := snd <$> d.

Fixpoint get (k : string) (d : t) : option V :=
  match d with
  | [] => None
  | (k', v) :: d' => if decide (k' = k) then Some v else get k d'
  end.

Definition mem (k : string) (d : t) : bool := bool_decide (k ∈ keys d).

(** [d[k] = v]: an existing key keeps its position, a new key goes last. *)
Fixpoint set (k : string) (v : V) (d : t) : t :=
  match d with
  | [] => [(k, v)]
  | (k', v') :: d' => if decide (k' = k) then (k, v) :: d' else (k', v') :: set k v d'
  end.

(** [d[k]], raising [KeyError] on a missing key. *)
Definition getitem (d : t) (k : string) : M V :=
  match get k d with
  | Some v => mret v
  | None => raise (KeyError k)
  end.
End defs.
Arguments t : clear implicits.
End odict.

(** *** [max] and [min] with a key

    Both keep the first extremal element in iteration order: a later element
    replaces the current one only when its key is strictly better. *)
Section extrema.
Context {A K : Type} (key : A → K) (ltb : K → K → bool).

Fixpoint py_max_from (best : A) (l : list A) : A :=
  match l with
  | [] => best
  | x :: l' => py_max_from (if ltb (key best) (key x) then x else best) l'
  end.

Fixpoint py_min_from (best : A) (l : list A) : A :=
  match l with
  | [] => best
  | x :: l' => py_min_from (if ltb (key x) (key best) then x else best) l'
  end.

Definition py_max (l : list A) : option A :=
  match l with
  | [] => None
  | x :: l' => Some (py_max_from x l')
  end.

Definition py_min (l : list A) : option A :=
  match l with
  | [] => None
  | x :: l' => Some (py_min_from x l')
  end.
End extrema.

(** ** Core enums *)

Module NodeType.
Inductive t := LOCAL | EDGE | CLOUD | QUANTUM | MODEL.
#[global] Instance eq_dec : EqDecision t.
Proof. solve_decision. Defined.
End NodeType.

Module ExecutionContext.
Inductive t := LOCAL | EDGE | CLOUD | QUANTUM | HYBRID.
#[global] Instance eq_dec : EqDecision t.
Proof. solve_decision. Defined.
End ExecutionContext.

Module AgentRole.
Inductive t := GUARDIAN | MONITOR | OPTIMIZER | SECURITY | SYNC | COORDINATOR.
#[global] Instance eq_dec : EqDecision t.
Proof. solve_decision. Defined.
End AgentRole.

Module SyncState.
Inductive t := SYNCED | PENDING | CONFLICT | DIVERGED.
#[global] Instance eq_dec : EqDecision t.
Proof. solve_decision. Defined.
End SyncState.

(** ** Core data classes *)

(** Fields that hold free-form dicts and that no method reads or writes
    ([metadata], [metrics], [state]) are left out of the records. *)

Module CodeReplica.
Record t := {
  node_id : string;
  node_type : NodeType.t;
  content : string;
  hash : string;
  timestamp : Z;
  version : Z;
}.

(** The constructor with [__post_init__]: an empty [hash] is replaced by
    the hash of the content. *)
Definition make (node_id : string) (node_type : NodeType.t) (content hash : string)
    (timestamp version : Z) : t :=
  {| node_id := node_id; node_type := node_type; content := content;
     hash := if decide (hash = EmptyString) then content_hash content else hash;
     timestamp := timestamp; version := version |}.
End CodeReplica.

Module GuardianAgent.
Record t := {
  agent_id : string;
  file_id : string;
  role : AgentRole.t;
  node_id : string;
  status : string;
  watchers : list string;
  last_action : option Z;
}.

Definition is_active (self : t) : bool := bool_decide (status self = "active"%string).
End GuardianAgent.

Module FileMetadata.
Record t := {
  file_id : string;
  path : string;
  replicas : odict.t CodeReplica.t;   (* node_id -> replica *)
  sync_state : SyncState.t;
  guardian_id : option string;
  secondary_guardians : list string;
  access_log : list (gmap string string);
}.

(** The replica with the latest timestamp, the first such in dict order. *)
Definition get_primary_replica (self : t) : option CodeReplica.t :=
  py_max CodeReplica.timestamp Z.ltb (odict.values (replicas self)).

Definition replicas_consistent (self : t) : bool :=
  if decide (length (replicas self) ≤ 1) then true
  else
    let hashes : gset string :=
      list_to_set (CodeReplica.hash <$> odict.values (replicas self)) in
    bool_decide (size hashes = 1).

Definition with_replicas (self : t) (rs : odict.t CodeReplica.t) : t :=
  {| file_id := file_id self; path := path self; replicas := rs;
     sync_state := sync_state self; guardian_id := guardian_id self;
     secondary_guardians := secondary_guardians self;
     access_log := access_log self |}.

Definition with_sync_state (self : t) (s : SyncState.t) : t :=
  {| file_id := file_id self; path := path self; replicas := replicas self;
     sync_state := s; guardian_id := guardian_id self;
     secondary_guardians := secondary_guardians self;
     access_log := access_log self |}.

Definition with_secondary_guardians (self : t) (gs : list string) : t :=
  {| file_id := file_id self; path := path self; replicas := replicas self;
     sync_state := sync_state self; guardian_id := guardian_id self;
     secondary_guardians := gs; access_log := access_log self |}.
End FileMetadata.

(** The float literal [0.9]: the double nearest to nine tenths. *)
Definition float_0_9 : Q := 8106479329266893 # 9007199254740992.

(** [x < y] on finite floats. *)
Definition Qltb (x y : Q) : bool :=
  match (x ?= y)%Q with
  | Lt => true
  | _ => false
  end.

Module MeshNode.
Record t := {
  node_id : string;
  node_type : NodeType.t;
  location : string;
  status : string;
  hosted_files : gset string;
  agents : gmap string GuardianAgent.t;
  capabilities : list string;
  load : Q;                 (* a finite float, as the rational it denotes *)
  latency_ms : Z;
}.

Definition is_available (self : t) : bool :=
  bool_decide (status self = "online"%string)
  && Qltb (load self) float_0_9.
End MeshNode.

Module Step.
(** One entry of [ExecutionPlan.steps]: steps 1-4 carry a ['node'], step 5
    carries the list ['nodes']. *)
Inductive target :=
  | node (n : option string)
  | nodes (ns : list string).
Record t := { step : Z; action : string; on : target }.
End Step.

Module ExecutionPlan.
Record t := {
  plan_id : string;
  file_id : string;
  steps : list Step.t;
  target_context : ExecutionContext.t;
  primary_node : option string;
  backup_nodes : list string;
  estimated_time_ms : Z;
  confidence : Q;
}.
End ExecutionPlan.

Module SyncEvent.
Record t := {
  event_id : string;
  file_id : string;
  source_node : string;
  target_nodes : list string;
  timestamp : Z;
  new_hash : string;
  old_hash : option string;
  success : bool;
  latency_ms : Z;
}.
End SyncEvent.

(** ** Mesh network layer *)

(** [float('inf')] or an integer: the values held by [distances]. *)
Inductive distance :=
  | Fin (d : Z)
  | Inf.

Definition distance_ltb (x y : distance) : bool :=
  match x, y with
  | Fin a, Fin b => bool_decide (a < b)%Z
  | Fin _, Inf => true
  | Inf, _ => false
  end.

Module MeshNetworkLayer.
Record t := {
  nodes : odict.t MeshNode.t;
  node_graph : gmap string (gset string);          (* adjacency list *)
  network_latencies : gmap (string * string) Z;    (* (from, to) -> ms *)
  bandwidth : gmap (string * string) Z;            (* (from, to) -> MB/s *)
  routing_table : gmap string (list string);
}.

Definition init : t :=
  {| nodes := []; node_graph := ∅; network_latencies := ∅; bandwidth := ∅;
     routing_table := ∅ |}.

Definition add_node (self : t) (node : MeshNode.t) : t * bool :=
  if odict.mem (MeshNode.node_id node) (nodes self) then (self, false)
  else
    ({| nodes := odict.set (MeshNode.node_id node) node (nodes self);
        node_graph := <[MeshNode.node_id node := ∅]> (node_graph self);
        network_latencies := network_latencies self;
        bandwidth := bandwidth self;
        routing_table := routing_table self |}, true).

Definition connect_nodes (self : t) (node_a node_b : string) (latency_ms : Z)
    (bandwidth_mbps : Z) : M (t * bool) :=
  if negb (odict.mem node_a (nodes self)) || negb (odict.mem node_b (nodes self))
  then mret (self, false)
  else
    adj_a ← getitem (node_graph self) node_a;
    let g1 := <[node_a := adj_a ∪ {[node_b]}]> (node_graph self) in
    adj_b ← getitem g1 node_b;
    let g2 := <[node_b := adj_b ∪ {[node_a]}]> g1 in
    mret ({| nodes := nodes self;
             node_graph := g2;
             network_latencies :=
               <[(node_b, node_a) := latency_ms]>
                 (<[(node_a, node_b) := latency_ms]> (network_latencies self));
             bandwidth :=
               <[(node_b, node_a) := bandwidth_mbps]>
                 (<[(node_a, node_b) := bandwidth_mbps]> (bandwidth self));
             routing_table := routing_table self |}, true).

(** [distances[n]]; every key asked for is a key of [self.nodes], with
    which [distances] is initialised. *)
Definition dist_of (distances : gmap string distance) (n : string) : distance :=
  default Inf (distances !! n).

(** [self.network_latencies.get((current, neighbor), 0)] *)
Definition latency (self : t) (current neighbor : string) : Z :=
  default 0%Z (network_latencies self !! (current, neighbor)).

(** [self.node_graph.get(current, [])] *)
Definition neighbours (self : t) (current : string) : gset string :=
  default ∅ (node_graph self !! current).

(** The body of [for neighbor in ...]. *)
Definition relax (self : t) (current : string) (unvisited : list string)
    (st : gmap string distance * gmap string (option string)) (neighbor : string)
    : gmap string distance * gmap string (option string) :=
  let '(distances, previous) := st in
  if bool_decide (neighbor ∈ unvisited) then
    match dist_of distances current with
    | Fin dc =>
        let new_distance := Fin (dc + latency self current neighbor) in
        if distance_ltb new_distance (dist_of distances neighbor)
        then (<[neighbor := new_distance]> distances,
              <[neighbor := Some current]> previous)
        else st
    | Inf => st      (* inf + latency = inf is never below a distance *)
    end
  else st.

(** The [while unvisited] loop.  Each round removes [current] from
    [unvisited], so [length unvisited] rounds always suffice. *)
Fixpoint dijkstra_loop (self : t) (target : string) (fuel : nat)
    (distances : gmap string distance) (previous : gmap string (option string))
    (unvisited : list string)
    : gmap string distance * gmap string (option string) :=
  match fuel with
  | O => (distances, previous)
  | S fuel' =>
      match py_min (dist_of distances) distance_ltb unvisited with
      | None => (distances, previous)
      | Some current =>
          match dist_of distances current with
          | Inf => (distances, previous)
          | Fin _ =>
              if decide (current = target) then (distances, previous)
              else
                let '(distances', previous') :=
                  foldl (relax self current unvisited) (distances, previous)
                    (elements (neighbours self current)) in
                dijkstra_loop self target fuel' distances' previous'
                  (filter (λ n, n ≠ current) unvisited)
          end
      end
  end.

(** The [while current is not None] loop of the path reconstruction.  A
    chain of [previous] links without repetition has at most one entry per
    key, so running out of [fuel = S (number of keys)] means a cycle, on
    which the source loops forever. *)
Fixpoint reconstruct (fuel : nat) (previous : gmap string (option string))
    (current : option string) (path : list string) : result (list string) :=
  match current with
  | None => Ok path
  | Some c =>
      match fuel with
      | O => Diverge
      | S fuel' =>
          match previous !! c with
          | None => Raise (KeyError c)
          | Some p => reconstruct fuel' previous p (path ++ [c])
          end
      end
  end.

(** [find_best_path].  The code iterates over the set
    [unvisited = set(self.nodes.keys())], whose order it does not fix (it
    follows the hashes of the strings): [order] is that order, and the
    properties of [find_best_path] are stated for every [order] that is a
    permutation of the registry keys. *)
Definition find_best_path_in (order : list string) (self : t) (source target : string)
    : result (list string) :=
  if negb (odict.mem source (nodes self)) || negb (odict.mem target (nodes self))
  then Ok []
  else if decide (source = target) then Ok [source]
  else
    let keys := odict.keys (nodes self) in
    let distances : gmap string distance :=
      <[source := Fin 0]> (list_to_map ((λ n, (n, Inf)) <$> keys)) in
    let previous : gmap string (option string) :=
      list_to_map ((λ n, (n, None)) <$> keys) in
    let '(_, previous') :=
      dijkstra_loop self target (length order) distances previous order in
    result_bind (reconstruct (S (length keys)) previous' (Some target) [])
      (λ path, Ok (reverse path)).
End MeshNetworkLayer.

(** ** Code replication manager

    [self.network] is the network object shared with the coordinator; the
    manager only reads it, so it is passed as the argument [network]. *)
Module CodeReplicationManager.
Record t := {
  files : gmap string FileMetadata.t;
  sync_events : list SyncEvent.t;
  replica_factor : Z;
}.

Definition init : t := {| files := ∅; sync_events := []; replica_factor := 3 |}.

Definition with_files (self : t) (fs : gmap string FileMetadata.t) : t :=
  {| files := fs; sync_events := sync_events self;
     replica_factor := replica_factor self |}.

Definition register_file (network : MeshNetworkLayer.t) (self : t)
    (file_id path initial_content primary_node : string) : M (t * bool) :=
  if bool_decide (file_id ∈ dom (files self)) then mret (self, false)
  else
    node ← odict.getitem (MeshNetworkLayer.nodes network) primary_node;
    t ← now;
    let metadata :=
      {| FileMetadata.file_id := file_id;
         FileMetadata.path := path;
         FileMetadata.replicas :=
           [(primary_node,
             CodeReplica.make primary_node (MeshNode.node_type node)
               initial_content EmptyString t 1)];
         FileMetadata.sync_state := SyncState.SYNCED;
         FileMetadata.guardian_id := None;
         FileMetadata.secondary_guardians := [];
         FileMetadata.access_log := [] |} in
    mret (with_files self (<[file_id := metadata]> (files self)), true).

(** The loop of [replicate_file] over [target_nodes]. *)
Fixpoint replicate_loop (network : MeshNetworkLayer.t) (primary : CodeReplica.t)
    (replicas : odict.t CodeReplica.t) (target_nodes : list string)
    : M (odict.t CodeReplica.t) :=
  match target_nodes with
  | [] => mret replicas
  | node_id :: rest =>
      if odict.mem node_id (MeshNetworkLayer.nodes network)
         && negb (odict.mem node_id replicas)
      then
        node ← odict.getitem (MeshNetworkLayer.nodes network) node_id;
        t ← now;
        let replica :=
          CodeReplica.make node_id (MeshNode.node_type node)
            (CodeReplica.content primary) (CodeReplica.hash primary) t
            (CodeReplica.version primary) in
        replicate_loop network primary (odict.set node_id replica replicas) rest
      else replicate_loop network primary replicas rest
  end.

Definition replicate_file (network : MeshNetworkLayer.t) (self : t)
    (file_id : string) (target_nodes : list string) : M (t * bool) :=
  match files self !! file_id with
  | None => mret (self, false)
  | Some metadata =>
      match FileMetadata.get_primary_replica metadata with
      | None => mret (self, false)
      | Some primary =>
          replicas ← replicate_loop network primary
                       (FileMetadata.replicas metadata) target_nodes;
          mret (with_files self
                  (<[file_id := FileMetadata.with_replicas metadata replicas]>
                     (files self)), true)
      end
  end.

(** The loop of [sync_file] over [metadata.replicas.items()]: the updated
    replicas and [target_nodes]. *)
Fixpoint sync_loop (new_content new_hash source_node : string)
    (items : odict.t CodeReplica.t) : M (odict.t CodeReplica.t * list string) :=
  match items with
  | [] => mret ([], [])
  | (node_id, replica) :: rest =>
      if decide (node_id ≠ source_node) then
        t ← now;
        let replica' :=
          {| CodeReplica.node_id := CodeReplica.node_id replica;
             CodeReplica.node_type := CodeReplica.node_type replica;
             CodeReplica.content := new_content;
             CodeReplica.hash := new_hash;
             CodeReplica.timestamp := t;
             CodeReplica.version := CodeReplica.version replica + 1 |} in
        '(rest', target_nodes) ← sync_loop new_content new_hash source_node rest;
        mret ((node_id, replica') :: rest', node_id :: target_nodes)
      else
        '(rest', target_nodes) ← sync_loop new_content new_hash source_node rest;
        mret ((node_id, replica) :: rest', target_nodes)
  end.

Definition sync_file (self : t) (file_id new_content source_node : string)
    : M (t * bool) :=
  match files self !! file_id with
  | None => mret (self, false)
  | Some metadata =>
      let new_hash := content_hash new_content in
      '(replicas, target_nodes) ←
        sync_loop new_content new_hash source_node (FileMetadata.replicas metadata);
      let metadata := FileMetadata.with_replicas metadata replicas in
      event_id ← uuid4_str;
      t ← now;
      let event :=
        {| SyncEvent.event_id := event_id;
           SyncEvent.file_id := file_id;
           SyncEvent.source_node := source_node;
           SyncEvent.target_nodes := target_nodes;
           SyncEvent.timestamp := t;
           SyncEvent.new_hash := new_hash;
           SyncEvent.old_hash :=
             CodeReplica.hash <$> FileMetadata.get_primary_replica metadata;
           SyncEvent.success := true;
           SyncEvent.latency_ms := 0 |} in
      let metadata :=
        FileMetadata.with_sync_state metadata
          (if FileMetadata.replicas_consistent metadata
           then SyncState.SYNCED else SyncState.PENDING) in
      mret ({| files := <[file_id := metadata]> (files self);
               sync_events := sync_events self ++ [event];
               replica_factor := replica_factor self |}, true)
  end.

(** The loop of [resolve_conflict] over [metadata.replicas.items()]. *)
Fixpoint resolve_loop (winning : CodeReplica.t) (winning_replica_node : string)
    (items : odict.t CodeReplica.t) : M (odict.t CodeReplica.t) :=
  match items with
  | [] => mret []
  | (node_id, replica) :: rest =>
      if decide (node_id ≠ winning_replica_node) then
        t ← now;
        let replica' :=
          {| CodeReplica.node_id := CodeReplica.node_id replica;
             CodeReplica.node_type := CodeReplica.node_type replica;
             CodeReplica.content := CodeReplica.content winning;
             CodeReplica.hash := CodeReplica.hash winning;
             CodeReplica.timestamp := t;
             CodeReplica.version := CodeReplica.version winning + 1 |} in
        rest' ← resolve_loop winning winning_replica_node rest;
        mret ((node_id, replica') :: rest')
      else
        rest' ← resolve_loop winning winning_replica_node rest;
        mret ((node_id, replica) :: rest')
  end.

Definition resolve_conflict (self : t) (file_id winning_replica_node : string)
    : M (t * bool) :=
  match files self !! file_id with
  | None => mret (self, false)
  | Some metadata =>
      match odict.get winning_replica_node (FileMetadata.replicas metadata) with
      | None => mret (self, false)
      | Some winning =>
          replicas ← resolve_loop winning winning_replica_node
                       (FileMetadata.replicas metadata);
          let metadata :=
            FileMetadata.with_sync_state
              (FileMetadata.with_replicas metadata replicas) SyncState.SYNCED in
          mret (with_files self (<[file_id := metadata]> (files self)), true)
      end
  end.
End CodeReplicationManager.

(** ** Guardian agent system

    [self.replication] is the shared replication manager: passed as an
    argument, and returned where the method updates it. *)
Module Monitor.
(** The dict returned by [monitor_file]. *)
Record t := {
  file_id : string;
  guardian_id : string;
  guardian_status : string;
  sync_state : SyncState.t;
  replica_count : nat;
  replicas_consistent : bool;
  version : Z;
  last_sync : option Z;
  access_count : nat;
}.
End Monitor.

Module GuardianAgentSystem.
Record t := {
  agents : gmap string GuardianAgent.t;
  file_guardians : gmap string string;   (* file_id -> primary guardian_id *)
}.

Definition init : t := {| agents := ∅; file_guardians := ∅ |}.

Definition create_guardian (self : t) (file_id node_id : string) (role : AgentRole.t)
    : M (t * GuardianAgent.t) :=
  u ← uuid4_hex;
  let agent_id := ("guardian_" +:+ file_id +:+ "_" +:+ String.substring 0 8 u)%string in
  let agent :=
    {| GuardianAgent.agent_id := agent_id;
       GuardianAgent.file_id := file_id;
       GuardianAgent.role := role;
       GuardianAgent.node_id := node_id;
       GuardianAgent.status := "active";
       GuardianAgent.watchers := [];
       GuardianAgent.last_action := None |} in
  let agents' := <[agent_id := agent]> (agents self) in
  let file_guardians' :=
    if bool_decide (file_id ∈ dom (file_guardians self)) then file_guardians self
    else <[file_id := agent_id]> (file_guardians self) in
  mret ({| agents := agents'; file_guardians := file_guardians' |}, agent).

Definition add_secondary_guardian (replication : CodeReplicationManager.t) (self : t)
    (file_id agent_id : string) : CodeReplicationManager.t * bool :=
  match CodeReplicationManager.files replication !! file_id with
  | None => (replication, false)
  | Some metadata =>
      if negb (bool_decide (agent_id ∈ dom (agents self))) then (replication, false)
      else if bool_decide (agent_id ∈ FileMetadata.secondary_guardians metadata)
      then (replication, true)
      else
        (CodeReplicationManager.with_files replication
           (<[file_id :=
                FileMetadata.with_secondary_guardians metadata
                  (FileMetadata.secondary_guardians metadata ++ [agent_id])]>
              (CodeReplicationManager.files replication)), true)
  end.

(** [None] is the empty dict. *)
Definition monitor_file (replication : CodeReplicationManager.t) (self : t)
    (file_id : string) : M (option Monitor.t) :=
  if negb (bool_decide (file_id ∈ dom (file_guardians self))) then mret None
  else
    guardian_id ← getitem (file_guardians self) file_id;
    guardian ← getitem (agents self) guardian_id;
    metadata ← getitem (CodeReplicationManager.files replication) file_id;
    let primary := FileMetadata.get_primary_replica metadata in
    mret (Some
      {| Monitor.file_id := file_id;
         Monitor.guardian_id := guardian_id;
         Monitor.guardian_status := GuardianAgent.status guardian;
         Monitor.sync_state := FileMetadata.sync_state metadata;
         Monitor.replica_count := length (FileMetadata.replicas metadata);
         Monitor.replicas_consistent := FileMetadata.replicas_consistent metadata;
         Monitor.version := from_option CodeReplica.version 0%Z primary;
         Monitor.last_sync := CodeReplica.timestamp <$> primary;
         Monitor.access_count := length (FileMetadata.access_log metadata) |}).
End GuardianAgentSystem.

(** ** Execution router *)
Module Execution.
(** The dict returned by [execute]. *)
Record t := {
  plan_id : string;
  file_id : string;
  status : string;
  steps_completed : nat;
  execution_time_ms : Z;
}.
End Execution.

Module ExecutionRouter.
Record t := { execution_history : list Execution.t }.

Definition init : t := {| execution_history := [] |}.

Definition nodes_where (network : MeshNetworkLayer.t) (p : MeshNode.t → bool)
    : list MeshNode.t :=
  filter (λ n, p n = true) (odict.values (MeshNetworkLayer.nodes network)).

(** The branch on [context]: the primary node and the backup nodes. *)
Definition select_nodes (network : MeshNetworkLayer.t) (context : ExecutionContext.t)
    (developer_node : string) : option string * list string :=
  match context with
  | ExecutionContext.LOCAL => (Some developer_node, [])
  | ExecutionContext.EDGE =>
      let edge_nodes :=
        nodes_where network (λ n,
          bool_decide (MeshNode.node_type n = NodeType.EDGE) && MeshNode.is_available n) in
      (MeshNode.node_id <$> py_min MeshNode.latency_ms Z.ltb edge_nodes, [])
  | ExecutionContext.CLOUD =>
      let cloud_nodes :=
        nodes_where network (λ n,
          bool_decide (MeshNode.node_type n = NodeType.CLOUD) && MeshNode.is_available n) in
      (MeshNode.node_id <$> py_min MeshNode.load Qltb cloud_nodes, [])
  | ExecutionContext.QUANTUM =>
      let quantum_nodes :=
        nodes_where network (λ n,
          bool_decide (MeshNode.node_type n = NodeType.QUANTUM)) in
      (MeshNode.node_id <$> head quantum_nodes, [])
  | ExecutionContext.HYBRID =>
      let backup_nodes :=
        MeshNode.node_id <$>
          nodes_where network (λ n,
            negb (bool_decide (MeshNode.node_id n = developer_node))
            && MeshNode.is_available n) in
      (Some developer_node, take 2 backup_nodes)
  end.

Definition plan_execution (network : MeshNetworkLayer.t)
    (replication : CodeReplicationManager.t) (file_id : string)
    (context : ExecutionContext.t) (developer_node : string)
    : M (option ExecutionPlan.t) :=
  if negb (bool_decide (file_id ∈ dom (CodeReplicationManager.files replication)))
  then mret None
  else
    plan_id ← uuid4_str;
    metadata ← getitem (CodeReplicationManager.files replication) file_id;
    let '(primary_node, backup_nodes) := select_nodes network context developer_node in
    let steps :=
      [ {| Step.step := 1; Step.action := "fetch_replica"; Step.on := Step.node primary_node |};
        {| Step.step := 2; Step.action := "compile"; Step.on := Step.node primary_node |};
        {| Step.step := 3; Step.action := "execute"; Step.on := Step.node primary_node |};
        {| Step.step := 4; Step.action := "verify";
           Step.on := Step.node (match backup_nodes with
                                 | b :: _ => Some b
                                 | [] => primary_node
                                 end) |};
        {| Step.step := 5; Step.action := "sync_results";
           Step.on := Step.nodes (odict.keys (FileMetadata.replicas metadata)) |} ] in
    mret (Some
      {| ExecutionPlan.plan_id := plan_id;
         ExecutionPlan.file_id := file_id;
         ExecutionPlan.steps := steps;
         ExecutionPlan.target_context := context;
         ExecutionPlan.primary_node := primary_node;
         ExecutionPlan.backup_nodes := backup_nodes;
         ExecutionPlan.estimated_time_ms := 0;
         ExecutionPlan.confidence := 0 |}).

Definition execute (self : t) (plan : ExecutionPlan.t) (code : string)
    : t * Execution.t :=
  let result :=
    {| Execution.plan_id := ExecutionPlan.plan_id plan;
       Execution.file_id := ExecutionPlan.file_id plan;
       Execution.status := "executed";
       Execution.steps_completed := length (ExecutionPlan.steps plan);
       Execution.execution_time_ms := 0 |} in
  ({| execution_history := execution_history self ++ [result] |}, result).
End ExecutionRouter.

(** ** Mesh IDE coordinator *)
Module MeshIDECoordinator.
Record t := {
  network : MeshNetworkLayer.t;
  replication : CodeReplicationManager.t;
  guardians : GuardianAgentSystem.t;
  router : ExecutionRouter.t;
  coordinator_id : string;
}.

Definition init : M t :=
  cid ← uuid4_str;
  mret {| network := MeshNetworkLayer.init;
          replication := CodeReplicationManager.init;
          guardians := GuardianAgentSystem.init;
          router := ExecutionRouter.init;
          coordinator_id := cid |}.

(** The loop of [add_file] creating one monitor guardian per replica node. *)
Fixpoint secondary_loop (file_id : string) (replication : CodeReplicationManager.t)
    (guardians : GuardianAgentSystem.t) (replica_nodes : list string)
    : M (CodeReplicationManager.t * GuardianAgentSystem.t) :=
  match replica_nodes with
  | [] => mret (replication, guardians)
  | node_id :: rest =>
      '(guardians, agent) ←
        GuardianAgentSystem.create_guardian guardians file_id node_id AgentRole.MONITOR;
      let '(replication, _) :=
        GuardianAgentSystem.add_secondary_guardian replication guardians file_id
          (GuardianAgent.agent_id agent) in
      secondary_loop file_id replication guardians rest
  end.

Definition add_file (self : t) (path content primary_node : string)
    : M (t * option string) :=
  let file_id := file_id_of_path path in
  '(replication, _) ←
    CodeReplicationManager.register_file (network self) (replication self)
      file_id path content primary_node;
  '(guardians, _) ←
    GuardianAgentSystem.create_guardian (guardians self) file_id primary_node
      AgentRole.GUARDIAN;
  let replica_nodes :=
    take 2 (MeshNode.node_id <$>
              ExecutionRouter.nodes_where (network self) (λ n,
                negb (bool_decide (MeshNode.node_id n = primary_node))
                && MeshNode.is_available n)) in
  '(replication, _) ←
    CodeReplicationManager.replicate_file (network self) replication file_id
      replica_nodes;
  '(replication, guardians) ← secondary_loop file_id replication guardians replica_nodes;
  mret ({| network := network self; replication := replication;
           guardians := guardians; router := router self;
           coordinator_id := coordinator_id self |}, Some file_id).

Definition sync_file (self : t) (file_id new_content source_node : string)
    : M (t * bool) :=
  '(replication, ok) ←
    CodeReplicationManager.sync_file (replication self) file_id new_content source_node;
  mret ({| network := network self; replication := replication;
           guardians := guardians self; router := router self;
           coordinator_id := coordinator_id self |}, ok).

Definition monitor_file (self : t) (file_id : string) : M (option Monitor.t) :=
  GuardianAgentSystem.monitor_file (replication self) (guardians self) file_id.
End MeshIDECoordinator.

(** * Specification-level definitions *)

(** ** A small mesh used by the concrete checks *)
Module Fixture.
(** A node with the dataclass defaults, apart from [status]. *)
Definition node (node_id : string) (node_type : NodeType.t) (status : string)
    : MeshNode.t :=
  {| MeshNode.node_id := node_id; MeshNode.node_type := node_type;
     MeshNode.location := node_id; MeshNode.status := status;
     MeshNode.hosted_files := ∅; MeshNode.agents := ∅;
     MeshNode.capabilities := []; MeshNode.load := 0; MeshNode.latency_ms := 0 |}.

(** A clock that advances by one at every reading. *)
Definition world : World :=
  {| clock := Z.of_nat; clock_reads := 0;
     uuid_source := λ _, "0123456789abcdef0123456789abcdef"%string;
     uuid_reads := 0 |}.

Definition add_nodes (ns : list MeshNode.t) : MeshNetworkLayer.t :=
  foldl (λ net n, (MeshNetworkLayer.add_node net n).1) MeshNetworkLayer.init ns.

(** local_1, edge_1 and cloud_1, online, not linked. *)
Definition network : MeshNetworkLayer.t :=
  add_nodes [ node "local_1" NodeType.LOCAL "online";
              node "edge_1" NodeType.EDGE "online";
              node "cloud_1" NodeType.CLOUD "online" ].

(** The same three nodes and a quantum backend that is offline, followed
    by one that is online. *)
Definition quantum_network : MeshNetworkLayer.t :=
  add_nodes [ node "local_1" NodeType.LOCAL "online";
              node "quantum_1" NodeType.QUANTUM "offline";
              node "quantum_2" NodeType.QUANTUM "online" ].
End Fixture.

(** ** Replication: runs, views and the clock assumption *)
Module ReplicationSpec.
Import CodeReplicationManager.

(** The calls a client can make on the replication manager. *)
Inductive op :=
  | RegisterFile (file_id path initial_content primary_node : string)
  | ReplicateFile (file_id : string) (target_nodes : list string)
  | SyncFile (file_id new_content source_node : string)
  | ResolveConflict (file_id winning_replica_node : string).

Definition run_op (network : MeshNetworkLayer.t) (self : t) (o : op) : M (t * bool) :=
  match o with
  | RegisterFile f p c n => register_file network self f p c n
  | ReplicateFile f ns => replicate_file network self f ns
  | SyncFile f c n => sync_file self f c n
  | ResolveConflict f n => resolve_conflict self f n
  end.

(** A sequence of calls, each on the state left by the one before. *)
Fixpoint run_ops (network : MeshNetworkLayer.t) (self : t) (ops : list op) : M t :=
  match ops with
  | [] => mret self
  | o :: rest => '(self', _) ← run_op network self o; run_ops network self' rest
  end.

Definition is_resolve (o : op) : Prop :=
  match o with
  | ResolveConflict _ _ => True
  | _ => False
  end.

(** The replica of [file_id] held by [node_id]. *)
Definition replica_at (self : t) (file_id node_id : string) : option CodeReplica.t :=
  metadata ← files self !! file_id;
  odict.get node_id (FileMetadata.replicas metadata).

(** What a replica set holds, timestamps aside. *)
Definition replica_contents (metadata : FileMetadata.t)
    : list (string * (string * string * Z)) :=
  (λ e, (e.1, (CodeReplica.content e.2, CodeReplica.hash e.2, CodeReplica.version e.2)))
    <$> FileMetadata.replicas metadata.




(** The register / replicate / sync example with a clock that stands still:
    every reading is 0. *)
Definition frozen_world : World :=
  {| clock := λ _, 0%Z; clock_reads := 0;
     uuid_source := uuid_source Fixture.world; uuid_reads := 0 |}.

(** The states of the register / replicate / sync example: a file
    registered on local_1, replicated to edge_1, then synced from
    local_1. *)
Definition after (ops : list op) : t :=
  match run_ops Fixture.network init ops Fixture.world with
  | Ok (self, _) => self
  | _ => init
  end.

Definition world_after (ops : list op) : World :=
  match run_ops Fixture.network init ops Fixture.world with
  | Ok (_, w) => w
  | _ => Fixture.world
  end.

Definition register_replicate : list op :=
  [ RegisterFile "file_001" "test.py" "x = 1" "local_1";
    ReplicateFile "file_001" ["edge_1"] ].

Definition register_replicate_sync : list op :=
  register_replicate ++ [ SyncFile "file_001" "x = 2" "local_1" ].

Definition register_replicate_sync_twice : list op :=
  register_replicate_sync ++ [ SyncFile "file_001" "x = 3" "local_1" ].
End ReplicationSpec.

(** ** Relations describing the replica loops *)
Module ReplicaLoops.
(** [w'] is [w] after some readings of the clock and of the uuid source. *)
Definition world_extends (w w' : World) : Prop :=
  clock w' = clock w ∧ clock_reads w ≤ clock_reads w'
  ∧ uuid_source w' = uuid_source w ∧ uuid_reads w ≤ uuid_reads w'.


(** An entry before and after the loop of [sync_file] started in [w]. *)
Definition synced (new_content new_hash source_node : string) (w : World)
    (e e' : string * CodeReplica.t) : Prop :=
  e'.1 = e.1
  ∧ if decide (e.1 ≠ source_node) then
      CodeReplica.content e'.2 = new_content
      ∧ CodeReplica.hash e'.2 = new_hash
      ∧ CodeReplica.version e'.2 = (CodeReplica.version e.2 + 1)%Z
      ∧ ∃ i, clock_reads w ≤ i ∧ CodeReplica.timestamp e'.2 = clock w i
    else e'.2 = e.2.

(** An entry before and after the loop of [resolve_conflict]. *)
Definition resolved (winning : CodeReplica.t) (winning_replica_node : string)
    (e e' : string * CodeReplica.t) : Prop :=
  e'.1 = e.1
  ∧ if decide (e.1 ≠ winning_replica_node) then
      CodeReplica.content e'.2 = CodeReplica.content winning
      ∧ CodeReplica.hash e'.2 = CodeReplica.hash winning
      ∧ CodeReplica.version e'.2 = (CodeReplica.version winning + 1)%Z
    else e'.2 = e.2.
End ReplicaLoops.

(** ** Routing and guardians: outcomes and example states *)
Module RouterSpec.
(** "Returns none, or an error result". *)
Definition none_or_error {A} (r : result (option A * World)) : Prop :=
  match r with
  | Ok (None, _) => True
  | Ok (Some _, _) => False
  | Raise _ => True
  | Diverge => False
  end.

(** file_001 registered on local_1 of the given network. *)
Definition registered_on (network : MeshNetworkLayer.t) : CodeReplicationManager.t :=
  match CodeReplicationManager.register_file network CodeReplicationManager.init
          "file_001" "test.py" "x = 1" "local_1" Fixture.world with
  | Ok (self, _, _) => self
  | _ => CodeReplicationManager.init
  end.

(** A coordinator over the three unlinked nodes, no file added yet. *)
Definition coordinator : MeshIDECoordinator.t :=
  {| MeshIDECoordinator.network := Fixture.network;
     MeshIDECoordinator.replication := CodeReplicationManager.init;
     MeshIDECoordinator.guardians := GuardianAgentSystem.init;
     MeshIDECoordinator.router := ExecutionRouter.init;
     MeshIDECoordinator.coordinator_id := "01234567-89ab-cdef-0123-456789abcdef" |}.
End RouterSpec.

(** ** Paths in the mesh and the invariant of the Dijkstra loop *)
Module PathSpec.
Import MeshNetworkLayer.

Definition registered (net : t) (n : string) : Prop := n ∈ odict.keys (nodes net).

(** [v] is recorded as a neighbour of [u]. *)
Definition link (net : t) (u v : string) : Prop := v ∈ neighbours net u.

(** The registry has no duplicate key and links only join registered
    nodes. *)
Definition wf (net : t) : Prop :=
  NoDup (odict.keys (nodes net))
  ∧ ∀ u v, link net u v → registered net u ∧ registered net v.

Definition nonneg_latencies (net : t) : Prop := ∀ u v, (0 ≤ latency net u v)%Z.

(** Consecutive entries of [p] are all recorded links. *)
Fixpoint links_ok (net : t) (p : list string) : Prop :=
  match p with
  | u :: (v :: _) as p' => link net u v ∧ links_ok net p'
  | _ => True
  end.

(** The sum of the latencies along [p]. *)
Fixpoint total_latency (net : t) (p : list string) : Z :=
  match p with
  | u :: (v :: _) as p' => (latency net u v + total_latency net p')%Z
  | _ => 0%Z
  end.

(** [p] runs from [a] to [b] along recorded links. *)
Definition is_path (net : t) (a b : string) (p : list string) : Prop :=
  head p = Some a ∧ last p = Some b ∧ links_ok net p.

Definition reachable (net : t) (a b : string) : Prop := ∃ p, is_path net a b p.

(** [pr] follows [previous] from its head back to an entry without
    predecessor. *)
Fixpoint chain (previous : gmap string (option string)) (pr : list string) : Prop :=
  match pr with
  | [] => False
  | [v] => previous !! v = Some None
  | v :: (u :: _) as rest => previous !! v = Some (Some u) ∧ chain previous rest
  end.

(** [x <= y] on distances. *)
Definition distance_le (x y : distance) : Prop := distance_ltb y x = false.

(** The neighbour [v], met while [current] at distance [dc] is expanded
    over the neighbours [l], gets a shorter distance. *)
Definition improves (net : t) (current : string) (unvisited : list string) (dc : Z)
    (distances : gmap string distance) (l : list string) (v : string) : Prop :=
  v ∈ l ∧ v ∈ unvisited
  ∧ distance_ltb (Fin (dc + latency net current v)) (dist_of distances v) = true.

(** What [distances] and [previous] record for a node reached at distance
    [d]: a path of that latency, stored backwards in [previous], through
    visited nodes only. *)
Definition reached (net : t) (source : string) (vis : list string)
    (previous : gmap string (option string)) (v : string) (d : Z) : Prop :=
  registered net v ∧ (0 ≤ d)%Z
  ∧ ∃ pr, chain previous pr ∧ head pr = Some v
          ∧ is_path net source v (reverse pr)
          ∧ total_latency net (reverse pr) = d
          ∧ NoDup pr
          ∧ ∀ y, y ∈ pr → y = v ∨ y ∈ vis.

(** The loop invariant: [vis] are the nodes removed from [unvisited] so
    far. *)
Record invariant (net : t) (source target : string) (vis unvisited : list string)
    (distances : gmap string distance) (previous : gmap string (option string))
    : Prop := {
  inv_part : ∀ n, registered net n ↔ n ∈ vis ∨ n ∈ unvisited;
  inv_disj : ∀ n, n ∈ vis → n ∉ unvisited;
  inv_src : dist_of distances source = Fin 0;
  inv_inf : ∀ n, registered net n → dist_of distances n = Inf →
            previous !! n = Some None;
  inv_fin : ∀ v d, dist_of distances v = Fin d → reached net source vis previous v d;
  inv_opt : ∀ u, u ∈ vis →
            ∃ du, dist_of distances u = Fin du
                  ∧ ∀ q, is_path net source u q → (du ≤ total_latency net q)%Z;
  inv_edge : ∀ u v du, u ∈ vis → dist_of distances u = Fin du → link net u v →
             ∃ dv, dist_of distances v = Fin dv ∧ (dv ≤ du + latency net u v)%Z;
  inv_order : ∀ u v du dv, u ∈ vis → v ∈ unvisited →
              dist_of distances u = Fin du → dist_of distances v = Fin dv →
              (du ≤ dv)%Z;
  inv_tgt : target ∉ vis;
}.
Arguments inv_part {_ _ _ _ _ _ _} _.
Arguments inv_disj {_ _ _ _ _ _ _} _.
Arguments inv_src {_ _ _ _ _ _ _} _.
Arguments inv_inf {_ _ _ _ _ _ _} _.
Arguments inv_fin {_ _ _ _ _ _ _} _.
Arguments inv_opt {_ _ _ _ _ _ _} _.
Arguments inv_edge {_ _ _ _ _ _ _} _.
Arguments inv_order {_ _ _ _ _ _ _} _.
Arguments inv_tgt {_ _ _ _ _ _ _} _.

(** What the loop leaves behind: either the target was never reached and
    cannot be, or [previous] holds a shortest path to it. *)
Definition outcome (net : t) (source target : string)
    (previous : gmap string (option string)) : Prop :=
  (previous !! target = Some None ∧ ¬ reachable net source target)
  ∨ (∃ pr, chain previous pr ∧ head pr = Some target
           ∧ is_path net source target (reverse pr)
           ∧ NoDup pr
           ∧ (∀ y, y ∈ pr → registered net y)
           ∧ ∀ q, is_path net source target q →
                  (total_latency net (reverse pr) ≤ total_latency net q)%Z).

(** Two chains, linked and unlinked, used by the concrete checks:
    local_1 - edge_1 - cloud_1 with latencies 50 and 100, and a direct link
    local_1 - cloud_1 of latency 200. *)
Definition connect (net : t) (a b : string) (latency_ms : Z) : t :=
  match connect_nodes net a b latency_ms 100 Fixture.world with
  | Ok (net', _, _) => net'
  | _ => net
  end.

Definition triangle : t :=
  connect (connect (connect Fixture.network "local_1" "edge_1" 50)
             "edge_1" "cloud_1" 100) "local_1" "cloud_1" 200.
End PathSpec.

(** * Further components of the mesh *)

(** ** Mesh initialisation from node configs *)

(** [NodeType[name]]: the member of that name, [KeyError] otherwise. *)
Definition node_type_of_name (name : string) : M NodeType.t :=
  if decide (name = "LOCAL"%string) then mret NodeType.LOCAL
  else if decide (name = "EDGE"%string) then mret NodeType.EDGE
  else if decide (name = "CLOUD"%string) then mret NodeType.CLOUD
  else if decide (name = "QUANTUM"%string) then mret NodeType.QUANTUM
  else if decide (name = "MODEL"%string) then mret NodeType.MODEL
  else raise (KeyError name).

Module NodeConfig.
(** One dict of [node_configs]: the keys [initialize_mesh] reads, each
    present or absent. *)
Record t := {
  node_id : option string;
  node_type : option string;
  location : option string;
  capabilities : option (list string);
}.
End NodeConfig.

Module MeshInit.
(** The [MeshNode] built from one config.  The default of
    [config.get('node_id', str(uuid.uuid4()))] is evaluated whether or not
    the key is present. *)
Definition node_of_config (config : NodeConfig.t) : M MeshNode.t :=
  fresh ← uuid4_str;
  name ← match NodeConfig.node_type config with
         | Some name => mret name
         | None => raise (KeyError "node_type")
         end;
  node_type ← node_type_of_name name;
  mret {| MeshNode.node_id := default fresh (NodeConfig.node_id config);
          MeshNode.node_type := node_type;
          MeshNode.location := default "unknown"%string (NodeConfig.location config);
          MeshNode.status := "online";
          MeshNode.hosted_files := ∅;
          MeshNode.agents := ∅;
          MeshNode.capabilities := default [] (NodeConfig.capabilities config);
          MeshNode.load := 0;
          MeshNode.latency_ms := 0 |}.

(** The first loop of [initialize_mesh]. *)
Fixpoint add_configs (network : MeshNetworkLayer.t) (node_configs : list NodeConfig.t)
    : M MeshNetworkLayer.t :=
  match node_configs with
  | [] => mret network
  | config :: rest =>
      node ← node_of_config config;
      add_configs (MeshNetworkLayer.add_node network node).1 rest
  end.

(** The second loop: [hub] is [nodes[0]], [others] is [nodes[1:]]. *)
Fixpoint connect_star (network : MeshNetworkLayer.t) (hub : string) (others : list string)
    : M MeshNetworkLayer.t :=
  match others with
  | [] => mret network
  | node_a :: rest =>
      node ← odict.getitem (MeshNetworkLayer.nodes network) node_a;
      let latency :=
        if decide (MeshNode.node_type node = NodeType.LOCAL) then 50%Z else 100%Z in
      '(network', _) ← MeshNetworkLayer.connect_nodes network hub node_a latency 100;
      connect_star network' hub rest
  end.

Definition initialize_mesh (self : MeshIDECoordinator.t) (node_configs : list NodeConfig.t)
    : M (MeshIDECoordinator.t * bool) :=
  network ← add_configs (MeshIDECoordinator.network self) node_configs;
  network ←
    match odict.keys (MeshNetworkLayer.nodes network) with
    | [] => mret network
    | hub :: others => connect_star network hub others
    end;
  mret ({| MeshIDECoordinator.network := network;
           MeshIDECoordinator.replication := MeshIDECoordinator.replication self;
           MeshIDECoordinator.guardians := MeshIDECoordinator.guardians self;
           MeshIDECoordinator.router := MeshIDECoordinator.router self;
           MeshIDECoordinator.coordinator_id := MeshIDECoordinator.coordinator_id self |},
        true).
End MeshInit.

(** ** Execution through the coordinator *)
Module CodeExecution.
(** The dict returned by [execute_code]: an error with its message, or the
    record of the router. *)
Inductive outcome :=
  | error (message : string)
  | executed (record : Execution.t).

Definition execute_code (self : MeshIDECoordinator.t) (file_id : string)
    (context : ExecutionContext.t) (developer_node : string)
    : M (MeshIDECoordinator.t * outcome) :=
  plan ← ExecutionRouter.plan_execution (MeshIDECoordinator.network self)
           (MeshIDECoordinator.replication self) file_id context developer_node;
  match plan with
  | None => mret (self, error "Could not create execution plan")
  | Some plan =>
      metadata ← getitem (CodeReplicationManager.files (MeshIDECoordinator.replication self))
                   file_id;
      match FileMetadata.get_primary_replica metadata with
      | None => mret (self, error "No code replica found")
      | Some primary =>
          let '(router, record) :=
            ExecutionRouter.execute (MeshIDECoordinator.router self) plan
              (CodeReplica.content primary) in
          mret ({| MeshIDECoordinator.network := MeshIDECoordinator.network self;
                   MeshIDECoordinator.replication := MeshIDECoordinator.replication self;
                   MeshIDECoordinator.guardians := MeshIDECoordinator.guardians self;
                   MeshIDECoordinator.router := router;
                   MeshIDECoordinator.coordinator_id :=
                     MeshIDECoordinator.coordinator_id self |},
                executed record)
      end
  end.
End CodeExecution.

(** ** Mesh file manager *)
Module MeshFileManager.
Record t := {
  coordinator : MeshIDECoordinator.t;
  local_cache : gmap string string;   (* file_id -> content *)
}.

Definition init (coordinator : MeshIDECoordinator.t) : t :=
  {| coordinator := coordinator; local_cache := ∅ |}.



Definition execute_file (self : t) (file_id : string) (context : ExecutionContext.t)
    (developer_node : string) : M (t * CodeExecution.outcome) :=
  '(coordinator', result) ←
    CodeExecution.execute_code (coordinator self) file_id context developer_node;
  mret ({| coordinator := coordinator'; local_cache := local_cache self |}, result).
End MeshFileManager.

(** ** Telemetry *)
Module MeshTelemetry.
(** The operands of a true division [a / b] of two ints; the float it
    evaluates to is not computed. *)
Record quotient := { dividend : Z; divisor : nat }.

(** The dict returned by [get_execution_stats]. *)
Record execution_stats := {
  total_executions : nat;
  total_time_ms : Z;
  avg_time_ms : quotient;
  success_count : nat;
}.

(** The dict returned by [get_sync_stats]. *)
Record sync_stats := {
  total_sync_events : nat;
  successful_syncs : nat;
  total_latency_ms : Z;
  avg_latency_ms : quotient;
}.

(** [sum(f(x) for x in l)] *)
Definition py_sum {A} (f : A → Z) (l : list A) : Z :=
  foldl (λ acc x, (acc + f x)%Z) 0%Z l.

(** [None] is the empty dict. *)
Definition get_execution_stats (coordinator : MeshIDECoordinator.t)
    : option execution_stats :=
  let executions :=
    ExecutionRouter.execution_history (MeshIDECoordinator.router coordinator) in
  match executions with
  | [] => None
  | _ :: _ =>
      let total_time := py_sum Execution.execution_time_ms executions in
      Some {| total_executions := length executions;
              total_time_ms := total_time;
              avg_time_ms := {| dividend := total_time; divisor := length executions |};
              success_count :=
                length (filter (λ e, Execution.status e = "executed"%string) executions) |}
  end.

Definition get_sync_stats (coordinator : MeshIDECoordinator.t) : option sync_stats :=
  let events :=
    CodeReplicationManager.sync_events (MeshIDECoordinator.replication coordinator) in
  match events with
  | [] => None
  | _ :: _ =>
      let total_latency := py_sum SyncEvent.latency_ms events in
      Some {| total_sync_events := length events;
              successful_syncs := length (filter (λ e, SyncEvent.success e = true) events);
              total_latency_ms := total_latency;
              avg_latency_ms := {| dividend := total_latency; divisor := length events |} |}
  end.
End MeshTelemetry.

(** * Further specification-level definitions *)

(** ** Meshes built through the network layer *)
Module MeshSpec.
Import MeshNetworkLayer PathSpec.

(** The networks that [add_node] and [connect_nodes] can produce from the
    empty one. *)
Inductive built : MeshNetworkLayer.t → Prop :=
  | built_init : built init
  | built_add_node net node : built net → built (add_node net node).1
  | built_connect_nodes net a b latency_ms bandwidth_mbps w net' ok w' :
      built net →
      connect_nodes net a b latency_ms bandwidth_mbps w = Ok (net', ok, w') →
      built net'.

(** The adjacency dict has a key for every registered node and no other. *)
Definition graph_keyed (net : t) : Prop :=
  ∀ n, registered net n ↔ is_Some (node_graph net !! n).

(** Every node is stored under its own [node_id]. *)
Definition keyed (net : t) : Prop :=
  ∀ k n, (k, n) ∈ nodes net → MeshNode.node_id n = k.

(** Links and latencies are recorded in both directions, and a latency is
    recorded exactly for the linked pairs. *)
Definition symmetric (net : t) : Prop :=
  (∀ u v, link net u v → link net v u)
  ∧ (∀ u v, network_latencies net !! (u, v) = network_latencies net !! (v, u))
  ∧ (∀ u v, link net u v ↔ is_Some (network_latencies net !! (u, v))).
End MeshSpec.

(** ** Replication: exact effect of the loops, and what every state keeps *)
Module ReplicaFacts.
Import CodeReplicationManager.

(** One entry before and after the loop of [sync_file]. *)
Definition sync_entry (new_content new_hash source_node : string)
    (e e' : string * CodeReplica.t) : Prop :=
  if decide (e.1 ≠ source_node) then
    ∃ t, e' = (e.1,
               {| CodeReplica.node_id := CodeReplica.node_id e.2;
                  CodeReplica.node_type := CodeReplica.node_type e.2;
                  CodeReplica.content := new_content;
                  CodeReplica.hash := new_hash;
                  CodeReplica.timestamp := t;
                  CodeReplica.version := (CodeReplica.version e.2 + 1)%Z |})
  else e' = e.

(** One entry before and after the loop of [resolve_conflict]. *)
Definition resolve_entry (winning : CodeReplica.t) (winning_replica_node : string)
    (e e' : string * CodeReplica.t) : Prop :=
  if decide (e.1 ≠ winning_replica_node) then
    ∃ t, e' = (e.1,
               {| CodeReplica.node_id := CodeReplica.node_id e.2;
                  CodeReplica.node_type := CodeReplica.node_type e.2;
                  CodeReplica.content := CodeReplica.content winning;
                  CodeReplica.hash := CodeReplica.hash winning;
                  CodeReplica.timestamp := t;
                  CodeReplica.version := (CodeReplica.version winning + 1)%Z |})
  else e' = e.

(** The targets of [replicate_file] that get a new replica, in order: those
    registered in the network that hold none yet, [held] being the holders
    so far. *)
Fixpoint fresh_targets (network : MeshNetworkLayer.t) (held target_nodes : list string)
    : list string :=
  match target_nodes with
  | [] => []
  | node_id :: rest =>
      if odict.mem node_id (MeshNetworkLayer.nodes network)
         && negb (bool_decide (node_id ∈ held))
      then node_id :: fresh_targets network (held ++ [node_id]) rest
      else fresh_targets network held rest
  end.

(** The entry is a replica created by [replicate_file] from [primary]. *)
Definition copy_of (network : MeshNetworkLayer.t) (primary : CodeReplica.t)
    (e : string * CodeReplica.t) : Prop :=
  ∃ node t,
    odict.get e.1 (MeshNetworkLayer.nodes network) = Some node
    ∧ e.2 = CodeReplica.make e.1 (MeshNode.node_type node) (CodeReplica.content primary)
              (CodeReplica.hash primary) t (CodeReplica.version primary).

(** A replica stored under its node id, whose hash is that of its content,
    at version 1 or later. *)
Definition replica_ok (e : string * CodeReplica.t) : Prop :=
  CodeReplica.node_id e.2 = e.1
  ∧ CodeReplica.hash e.2 = content_hash (CodeReplica.content e.2)
  ∧ (1 ≤ CodeReplica.version e.2)%Z.

Definition all_hashes_equal (metadata : FileMetadata.t) : Prop :=
  ∀ r1 r2, r1 ∈ odict.values (FileMetadata.replicas metadata) →
           r2 ∈ odict.values (FileMetadata.replicas metadata) →
           CodeReplica.hash r1 = CodeReplica.hash r2.

(** What every file of the manager satisfies. *)
Record file_ok (file_id : string) (metadata : FileMetadata.t) : Prop := {
  ok_id : FileMetadata.file_id metadata = file_id;
  ok_nonempty : FileMetadata.replicas metadata ≠ [];
  ok_keys : NoDup (odict.keys (FileMetadata.replicas metadata));
  ok_replicas : Forall replica_ok (FileMetadata.replicas metadata);
  ok_state :
    (FileMetadata.sync_state metadata = SyncState.SYNCED
     ∧ FileMetadata.replicas_consistent metadata = true)
    ∨ (FileMetadata.sync_state metadata = SyncState.PENDING
       ∧ FileMetadata.replicas_consistent metadata = false);
  ok_guardian : FileMetadata.guardian_id metadata = None;
}.
Arguments ok_id {_ _} _.
Arguments ok_nonempty {_ _} _.
Arguments ok_keys {_ _} _.
Arguments ok_replicas {_ _} _.
Arguments ok_state {_ _} _.
Arguments ok_guardian {_ _} _.

Definition manager_ok (self : t) : Prop :=
  (∀ file_id metadata, files self !! file_id = Some metadata → file_ok file_id metadata)
  ∧ Forall (λ e, SyncEvent.success e = true ∧ SyncEvent.latency_ms e = 0%Z
                 ∧ SyncEvent.old_hash e ≠ None)
      (sync_events self)
  ∧ replica_factor self = 3%Z.
End ReplicaFacts.

(** ** Guardians: runs of [create_guardian] *)
Module GuardianSpec.
Import GuardianAgentSystem.

(** Guardians created one after the other, for the files, nodes and roles
    of [requests]. *)
Fixpoint create_guardians (self : t) (requests : list (string * string * AgentRole.t))
    : M t :=
  match requests with
  | [] => mret self
  | (file_id, node_id, role) :: rest =>
      '(self', _) ← create_guardian self file_id node_id role;
      create_guardians self' rest
  end.

(** Every primary guardian is a registered agent. *)
Definition closed (self : t) : Prop :=
  ∀ file_id guardian_id,
    file_guardians self !! file_id = Some guardian_id →
    is_Some (agents self !! guardian_id).
End GuardianSpec.

(** ** Node selection of the router *)
Module RouterFacts.
(** [m] is the element that [min] with the given key picks among the
    elements of [l] that satisfy [P]: the first of the least ones. *)
Definition first_least {A K : Type} (key : A → K) (ltb : K → K → bool) (P : A → bool)
    (l : list A) (m : A) : Prop :=
  ∃ before after,
    l = before ++ m :: after
    ∧ P m = true
    ∧ (∀ x, x ∈ before → P x = true → ltb (key m) (key x) = true)
    ∧ (∀ x, x ∈ after → P x = true → ltb (key x) (key m) = false).

Definition available_of_type (node_type : NodeType.t) (n : MeshNode.t) : bool :=
  bool_decide (MeshNode.node_type n = node_type) && MeshNode.is_available n.

Definition available_other (developer_node : string) (n : MeshNode.t) : bool :=
  negb (bool_decide (MeshNode.node_id n = developer_node)) && MeshNode.is_available n.

(** The node a plan runs its step number [k] on. *)
Definition step_node (plan : ExecutionPlan.t) (k : Z) : option (option string) :=
  match filter (λ s, Step.step s = k) (ExecutionPlan.steps plan) with
  | s :: _ => match Step.on s with
              | Step.node n => Some n
              | Step.nodes _ => None
              end
  | [] => None
  end.

(** A registry for the concrete checks: edge nodes of different latencies
    and cloud nodes of different loads, some of them not available. *)
Definition node (node_id : string) (node_type : NodeType.t) (status : string)
    (load : Q) (latency_ms : Z) : MeshNode.t :=
  {| MeshNode.node_id := node_id; MeshNode.node_type := node_type;
     MeshNode.location := node_id; MeshNode.status := status;
     MeshNode.hosted_files := ∅; MeshNode.agents := ∅;
     MeshNode.capabilities := []; MeshNode.load := load;
     MeshNode.latency_ms := latency_ms |}.

Definition mixed_network : MeshNetworkLayer.t :=
  Fixture.add_nodes
    [ node "local_1" NodeType.LOCAL "online" 0 0;
      node "edge_a" NodeType.EDGE "online" 0 30;
      node "edge_b" NodeType.EDGE "offline" 0 10;
      node "edge_c" NodeType.EDGE "online" 0 20;
      node "edge_d" NodeType.EDGE "online" 0 20;
      node "cloud_a" NodeType.CLOUD "online" (1 # 2) 0;
      node "cloud_b" NodeType.CLOUD "online" (19 # 20) 0;
      node "cloud_c" NodeType.CLOUD "online" (1 # 5) 0 ].
End RouterFacts.

(** ** The coordinator *)
Module CoordinatorFacts.
(** The nodes [add_file] replicates to: the first two available nodes of
    the registry other than the primary node. *)
Definition replica_nodes (network : MeshNetworkLayer.t) (primary_node : string)
    : list string :=
  take 2 (MeshNode.node_id <$>
            ExecutionRouter.nodes_where network (RouterFacts.available_other primary_node)).

(** The coordinator over the three unlinked nodes after
    [add_file("/src/main.py", "print(1)", "local_1")], and the world then. *)
Definition with_main : MeshIDECoordinator.t * World :=
  match MeshIDECoordinator.add_file RouterSpec.coordinator "/src/main.py" "print(1)"
          "local_1" Fixture.world with
  | Ok (self, _, w) => (self, w)
  | _ => (RouterSpec.coordinator, Fixture.world)
  end.


(** Calls of [execute_code] one after the other, for the files, contexts
    and developer nodes of [requests]. *)
Fixpoint execute_all (self : MeshIDECoordinator.t)
    (requests : list (string * ExecutionContext.t * string)) : M MeshIDECoordinator.t :=
  match requests with
  | [] => mret self
  | (file_id, context, developer_node) :: rest =>
      '(self', _) ← CodeExecution.execute_code self file_id context developer_node;
      execute_all self' rest
  end.

(** What every record of the execution history looks like. *)
Definition stub_record (record : Execution.t) : Prop :=
  Execution.status record = "executed"%string
  ∧ Execution.steps_completed record = 5
  ∧ Execution.execution_time_ms record = 0%Z.
End CoordinatorFacts.

(** ** Mesh initialisation *)
Module MeshInitFacts.
Definition valid_type_name (name : string) : Prop :=
  name ∈ ["LOCAL"; "EDGE"; "CLOUD"; "QUANTUM"; "MODEL"]%string.

(** The config names a member of [NodeType]. *)
Definition valid (config : NodeConfig.t) : Prop :=
  ∃ name, NodeConfig.node_type config = Some name ∧ valid_type_name name.

(** The latency that [initialize_mesh] gives the link from the hub to [n]. *)
Definition star_latency (net : MeshNetworkLayer.t) (n : string) : Z :=
  match odict.get n (MeshNetworkLayer.nodes net) with
  | Some node =>
      if decide (MeshNode.node_type node = NodeType.LOCAL) then 50%Z else 100%Z
  | None => 100%Z
  end.

Definition config (node_id node_type : string) : NodeConfig.t :=
  {| NodeConfig.node_id := Some node_id; NodeConfig.node_type := Some node_type;
     NodeConfig.location := None; NodeConfig.capabilities := None |}.
End MeshInitFacts.

(** ** The format of hashes and file ids *)
Module HashFacts.
(** A lowercase hexadecimal digit. *)
Definition hex_char (c : Ascii.ascii) : Prop :=
  c ∈ String.list_ascii_of_string "0123456789abcdef".

Definition byte (b : Z) : Prop := (0 ≤ b < 256)%Z.
End HashFacts.

(** * Checks and proofs *)

(** ** The hash functions against published digests *)
Example sha256_abc :
  SHA256.hexdigest "abc"
  = "ba7816bf8f01cfea414140de5dae2223b00361a396177a9cb410ff61f20015ad"%string.
Proof. vm_compute. reflexivity. Qed.

Example sha256_empty :
  SHA256.hexdigest EmptyString
  = "e3b0c44298fc1c149afbf4c8996fb92427ae41e4649b934ca495991b7852b855"%string.
Proof. vm_compute. reflexivity. Qed.

Example sha256_two_blocks :
  SHA256.hexdigest
    "aaaaaaaaaaaaaaaaaaaaaaaaaaaaaaaaaaaaaaaaaaaaaaaaaaaaaaaaaaaaaaaaaaaaaa"
  = "6bd5e5034855a11241f0dee8fc72850ffd9955b28347a86428b5fa19119f6ad0"%string.
Proof. vm_compute. reflexivity. Qed.

Example sha256_first_constants :
  take 2 SHA256.K = [1116352408; 1899447441]%Z ∧ take 1 SHA256.H0 = [1779033703]%Z.
Proof. split; reflexivity. Qed.

Example md5_empty : MD5.hexdigest EmptyString = "d41d8cd98f00b204e9800998ecf8427e"%string.
Proof. vm_compute. reflexivity. Qed.

Example md5_two_blocks :
  MD5.hexdigest
    "aaaaaaaaaaaaaaaaaaaaaaaaaaaaaaaaaaaaaaaaaaaaaaaaaaaaaaaaaaaaaaaaaaaaaa"
  = "0f5c6c4e740bfcc08c3c26ccb2673d46"%string.
Proof. vm_compute. reflexivity. Qed.

Example content_hash_x1 : content_hash "x = 1" = "8ff436def1451285"%string.
Proof. vm_compute. reflexivity. Qed.

Example content_hash_x2 : content_hash "x = 2" = "1431b986377b5430"%string.
Proof. vm_compute. reflexivity. Qed.

Example file_id_of_test_py : file_id_of_path "test.py" = "file_b284a287"%string.
Proof. vm_compute. reflexivity. Qed.

(** ** Ordered dicts and extrema *)
Section odict_facts.
  Context {V : Type}.
  Implicit Types (d : odict.t V) (k : string) (v : V).

Lemma odict_mem_get k d : odict.mem k d = true → is_Some (odict.get k d).
Proof.
  unfold odict.mem. rewrite bool_decide_eq_true.
  induction d as [|[k' v'] d IH]; simpl.
  - intros H. by apply elem_of_nil in H.
  - intros H. destruct (decide (k' = k)); [by eexists|].
    apply IH. apply elem_of_cons in H as [?|?]; [congruence|done].
Qed.

Lemma odict_get_mem k d v : odict.get k d = Some v → odict.mem k d = true.
Proof.
  unfold odict.mem. rewrite bool_decide_eq_true.
  induction d as [|[k' v'] d IH]; simpl; [done|].
  destruct (decide (k' = k)) as [->|]; intros H.
  - apply elem_of_cons. by left.
  - apply elem_of_cons. right. by apply IH.
Qed.

Lemma odict_get_elem_of k d v : odict.get k d = Some v → (k, v) ∈ d.
Proof.
  induction d as [|[k' v'] d IH]; simpl; [done|].
  destruct (decide (k' = k)) as [->|]; intros H.
  - injection H as ->. apply elem_of_cons. by left.
  - apply elem_of_cons. right. by apply IH.
Qed.

Lemma odict_get_set_old k k' v v' d :
  odict.get k d = Some v → odict.mem k' d = false → odict.get k (odict.set k' v' d) = Some v.
Proof.
  unfold odict.mem. rewrite bool_decide_eq_false.
  induction d as [|[k0 v0] d IH]; simpl; [done|].
  intros Hget Hk'.
  destruct (decide (k0 = k')) as [->|Hne].
  - exfalso. apply Hk'. apply elem_of_cons. by left.
  - simpl. destruct (decide (k0 = k)); [done|].
    apply IH; [done|]. intros Hin. apply Hk'. apply elem_of_cons. by right.
Qed.

(** A loop that rewrites the values and keeps the keys acts on lookups
    entry by entry. *)
Lemma odict_get_Forall2 (R : string * V → string * V → Prop) d d' k v :
  Forall2 (λ e e', e'.1 = e.1 ∧ R e e') d d' →
  odict.get k d = Some v →
  ∃ v', odict.get k d' = Some v' ∧ R (k, v) (k, v').
Proof.
  induction 1 as [|[k0 v0] [k1 v1] d d' [Hk HR] _ IH]; simpl; [done|].
  simpl in Hk. subst k1.
  destruct (decide (k0 = k)) as [->|]; [|done].
  intros [= ->]. by eexists.
Qed.
End odict_facts.

Section extrema_facts.
  Context {A : Type} (key : A → Z).

Lemma py_max_from_spec (best : A) (l : list A) :
  let m := py_max_from key Z.ltb best l in
  m ∈ best :: l ∧ ∀ x, x ∈ best :: l → (key x ≤ key m)%Z.
Proof.
  revert best. induction l as [|y l IH]; intros best; simpl.
  - split; [apply list_elem_of_singleton; done|].
    intros x Hx. apply list_elem_of_singleton in Hx as ->. lia.
  - destruct (IH (if (key best <? key y)%Z then y else best)) as [Hin Hmax].
    split.
    + apply elem_of_cons in Hin as [->|Hin].
      * destruct (key best <? key y)%Z; set_solver.
      * set_solver.
    + intros x Hx.
      assert (key (if (key best <? key y)%Z then y else best)
              ≤ key (py_max_from key Z.ltb (if (key best <? key y)%Z then y else best) l))%Z
        as Hb by (apply Hmax; set_solver).
      apply elem_of_cons in Hx as [->|Hx].
      * destruct (Z.ltb_spec (key best) (key y)); lia.
      * apply elem_of_cons in Hx as [->|Hx].
        -- destruct (Z.ltb_spec (key best) (key y)); lia.
        -- apply Hmax. set_solver.
Qed.

Lemma py_max_spec (l : list A) (m : A) :
  py_max key Z.ltb l = Some m → m ∈ l ∧ ∀ x, x ∈ l → (key x ≤ key m)%Z.
Proof.
  destruct l as [|y l]; simpl; [done|].
  intros [= <-]. apply py_max_from_spec.
Qed.

Lemma py_max_is_Some (l : list A) : l ≠ [] → is_Some (py_max key Z.ltb l).
Proof. destruct l; [done|]. by eexists. Qed.
End extrema_facts.

(** ** Replication *)

(** Unfold the outermost bind of a computation in [M]. *)
Tactic Notation "bind_step" := unfold mbind, M_bind at 1.
Tactic Notation "bind_step" "in" hyp(H) := unfold mbind, M_bind at 1 in H.

Section replication.
  Import CodeReplicationManager ReplicationSpec ReplicaLoops.

  Local Open Scope string_scope.


Lemma world_extends_trans w1 w2 w3 :
  world_extends w1 w2 → world_extends w2 w3 → world_extends w1 w3.
Proof.
  intros (?&?&?&?) (?&?&?&?). repeat split; try congruence; lia.
Qed.

Lemma now_spec w :
  ∃ w', now w = Ok (clock w (clock_reads w), w')
        ∧ clock w' = clock w ∧ clock_reads w' = S (clock_reads w)
        ∧ uuid_source w' = uuid_source w ∧ uuid_reads w' = uuid_reads w.
Proof. eexists. split; [reflexivity|]. done. Qed.

Lemma uuid4_str_spec w :
  ∃ s w', uuid4_str w = Ok (s, w') ∧ clock w' = clock w
          ∧ clock_reads w' = clock_reads w ∧ world_extends w w'.
Proof.
  eexists _, _. split; [reflexivity|].
  unfold world_extends. simpl. repeat split; try reflexivity; lia.
Qed.

Lemma synced_weaken c h src w1 w2 e e' :
  world_extends w1 w2 → synced c h src w2 e e' → synced c h src w1 e e'.
Proof.
  intros (Hc&Hr&_) [Hk H]. split; [done|].
  destruct (decide (e.1 ≠ src)); [|done].
  destruct H as (?&?&?&i&?&?). repeat split; try done.
  exists i. split; [lia|congruence].
Qed.

(** The loop of [sync_file] always completes; it rewrites every entry but
    the source's and lists the rewritten keys. *)
Lemma sync_loop_spec c h src items w :
  ∃ items' targets w',
    sync_loop c h src items w = Ok (items', targets, w')
    ∧ world_extends w w'
    ∧ targets = filter (λ n, n ≠ src) (odict.keys items)
    ∧ Forall2 (synced c h src w) items items'.
Proof.
  revert w. induction items as [|[n r] items IH]; intros w.
  - eexists [], [], w. repeat split; try done; constructor.
  - cbn [sync_loop]. destruct (decide (n ≠ src)) as [Hn|Hn].
    + destruct (now_spec w) as (w1&Hnow&Hc&Hr&Hu&Hur).
      destruct (IH w1) as (items'&targets&w'&Hloop&Hext&Htg&Hall).
      assert (world_extends w w1) as Hw1 by (repeat split; try done; lia).
      eexists _, _, w'. split.
      { bind_step. rewrite Hnow.
        bind_step. rewrite Hloop. reflexivity. }
      split; [by eapply world_extends_trans|].
      split.
      { simpl. rewrite filter_cons_True by done. by rewrite Htg. }
      constructor.
      * split; [done|]. simpl. rewrite decide_True by done.
        repeat split; try done. exists (clock_reads w). split; [lia|done].
      * eapply Forall2_impl; [exact Hall|]. intros e e' He.
        by eapply synced_weaken.
    + destruct (IH w) as (items'&targets&w'&Hloop&Hext&Htg&Hall).
      eexists _, _, w'. split.
      { bind_step. rewrite Hloop. reflexivity. }
      split; [done|]. split.
      { simpl. rewrite filter_cons_False by done. by rewrite Htg. }
      constructor; [|done].
      split; [done|]. simpl. by rewrite decide_False by done.
Qed.

(** The loop of [resolve_conflict] always completes; it copies the winner
    into every entry but the winner's. *)
Lemma resolve_loop_spec winning win items w :
  ∃ items' w',
    resolve_loop winning win items w = Ok (items', w')
    ∧ world_extends w w'
    ∧ Forall2 (resolved winning win) items items'.
Proof.
  revert w. induction items as [|[n r] items IH]; intros w.
  - eexists [], w. repeat split; try done; constructor.
  - cbn [resolve_loop]. destruct (decide (n ≠ win)) as [Hn|Hn].
    + destruct (now_spec w) as (w1&Hnow&Hc&Hr&Hu&Hur).
      destruct (IH w1) as (items'&w'&Hloop&Hext&Hall).
      assert (world_extends w w1) as Hw1 by (repeat split; try done; lia).
      eexists _, w'. split.
      { bind_step. rewrite Hnow.
        bind_step. rewrite Hloop. reflexivity. }
      split; [by eapply world_extends_trans|].
      constructor; [|done].
      split; [done|]. simpl. by rewrite decide_True by done.
    + destruct (IH w) as (items'&w'&Hloop&Hext&Hall).
      eexists _, w'. split.
      { bind_step. rewrite Hloop. reflexivity. }
      split; [done|].
      constructor; [|done].
      split; [done|]. simpl. by rewrite decide_False by done.
Qed.

(** The loop of [replicate_file] always completes and leaves the replicas
    that exist where they are. *)
Lemma replicate_loop_spec network primary replicas targets w :
  ∃ replicas' w',
    replicate_loop network primary replicas targets w = Ok (replicas', w')
    ∧ world_extends w w'
    ∧ ∀ n r, odict.get n replicas = Some r → odict.get n replicas' = Some r.
Proof.
  revert replicas w. induction targets as [|t targets IH]; intros replicas w.
  - eexists replicas, w. repeat split; done.
  - cbn [replicate_loop].
    destruct (odict.mem t (MeshNetworkLayer.nodes network)) eqn:Hmem; simpl.
    2:{ apply IH. }
    destruct (odict.mem t replicas) eqn:Hrep; simpl.
    { apply IH. }
    destruct (odict_mem_get _ _ Hmem) as [node Hnode].
    destruct (now_spec w) as (w1&Hnow&Hc&Hr&Hu&Hur).
    assert (world_extends w w1) as Hw1 by (repeat split; try done; lia).
    edestruct (IH (odict.set t
        (CodeReplica.make t (MeshNode.node_type node) (CodeReplica.content primary)
           (CodeReplica.hash primary) (clock w (clock_reads w)) (CodeReplica.version primary))
        replicas) w1) as (replicas'&w'&Hloop&Hext&Hold).
    eexists replicas', w'. split.
    { bind_step. unfold odict.getitem. rewrite Hnode. simpl.
      bind_step. rewrite Hnow. exact Hloop. }
    split; [by eapply world_extends_trans|].
    intros n r Hget. apply Hold. by apply odict_get_set_old.
Qed.

Lemma Forall2_elem_of_r {A B} (R : A → B → Prop) l l' y :
  Forall2 R l l' → y ∈ l' → ∃ x, x ∈ l ∧ R x y.
Proof.
  induction 1 as [|x y' l l' HR _ IH]; intros Hin.
  - by apply elem_of_nil in Hin.
  - apply elem_of_cons in Hin as [->|Hin].
    + exists x. split; [apply elem_of_cons; by left|done].
    + destruct (IH Hin) as (x'&?&?). exists x'. split; [apply elem_of_cons; by right|done].
Qed.

Lemma Forall2_elem_of_l {A B} (R : A → B → Prop) l l' x :
  Forall2 R l l' → x ∈ l → ∃ y, y ∈ l' ∧ R x y.
Proof.
  induction 1 as [|x' y l l' HR _ IH]; intros Hin.
  - by apply elem_of_nil in Hin.
  - apply elem_of_cons in Hin as [->|Hin].
    + exists y. split; [apply elem_of_cons; by left|done].
    + destruct (IH Hin) as (y'&?&?). exists y'. split; [apply elem_of_cons; by right|done].
Qed.

(** [sync_file] on a registered file: it always succeeds, and what it
    stores. *)
Lemma sync_file_spec self file_id new_content source_node w metadata :
  files self !! file_id = Some metadata →
  ∃ replicas metadata' event w',
    sync_file self file_id new_content source_node w
    = Ok ({| files := <[file_id := metadata']> (files self);
             sync_events := sync_events self ++ [event];
             replica_factor := replica_factor self |}, true, w')
    ∧ world_extends w w'
    ∧ Forall2 (synced new_content (content_hash new_content) source_node w)
        (FileMetadata.replicas metadata) replicas
    ∧ FileMetadata.replicas metadata' = replicas
    ∧ FileMetadata.sync_state metadata'
      = (if FileMetadata.replicas_consistent metadata'
         then SyncState.SYNCED else SyncState.PENDING)
    ∧ SyncEvent.new_hash event = content_hash new_content
    ∧ SyncEvent.old_hash event
      = CodeReplica.hash <$> FileMetadata.get_primary_replica metadata'
    ∧ SyncEvent.success event = true.
Proof.
  intros Hfile. unfold sync_file. rewrite Hfile.
  destruct (sync_loop_spec new_content (content_hash new_content) source_node
              (FileMetadata.replicas metadata) w)
    as (items'&targets&w1&Hloop&Hext&_&Hall).
  destruct (uuid4_str_spec w1) as (eid&w2&Huuid&_&_&Hext2).
  destruct (now_spec w2) as (w3&Hnow&Hc&Hr&Hu&Hur).
  eexists items', _, _, w3. split.
  { bind_step. rewrite Hloop.
    bind_step. rewrite Huuid.
    bind_step. rewrite Hnow. reflexivity. }
  split.
  { eapply world_extends_trans; [exact Hext|].
    eapply world_extends_trans; [exact Hext2|].
    repeat split; try done; lia. }
  repeat split; done.
Qed.

(** [resolve_conflict] on a registered file and a node that holds a replica
    of it: it always succeeds, and what it stores. *)
Lemma resolve_conflict_spec self file_id win w metadata winning :
  files self !! file_id = Some metadata →
  odict.get win (FileMetadata.replicas metadata) = Some winning →
  ∃ replicas w',
    resolve_conflict self file_id win w
    = Ok (with_files self
            (<[file_id :=
                 FileMetadata.with_sync_state
                   (FileMetadata.with_replicas metadata replicas) SyncState.SYNCED]>
               (files self)), true, w')
    ∧ world_extends w w'
    ∧ Forall2 (resolved winning win) (FileMetadata.replicas metadata) replicas.
Proof.
  intros Hfile Hwin. unfold resolve_conflict. rewrite Hfile, Hwin.
  destruct (resolve_loop_spec winning win (FileMetadata.replicas metadata) w)
    as (items'&w1&Hloop&Hext&Hall).
  eexists items', w1. split; [|done].
  bind_step. rewrite Hloop. reflexivity.
Qed.

Lemma replica_at_insert_eq self file_id metadata n :
  replica_at (with_files self (<[file_id := metadata]> (files self))) file_id n
  = odict.get n (FileMetadata.replicas metadata).
Proof. unfold replica_at. simpl. by rewrite lookup_insert_eq. Qed.

Lemma replica_at_insert_ne self file_id metadata f n :
  file_id ≠ f →
  replica_at (with_files self (<[file_id := metadata]> (files self))) f n
  = replica_at self f n.
Proof. intros. unfold replica_at. simpl. by rewrite lookup_insert_ne. Qed.

(** One call other than [resolve_conflict] lowers no version. *)
Lemma run_op_version_mono network self o w self' b w' f n r :
  ¬ is_resolve o →
  run_op network self o w = Ok (self', b, w') →
  replica_at self f n = Some r →
  ∃ r', replica_at self' f n = Some r'
        ∧ (CodeReplica.version r ≤ CodeReplica.version r')%Z.
Proof.
  intros Hres Hrun Hr.
  destruct o as [fid p c pn|fid tn|fid c sn|fid wn]; simpl in Hrun; [| | |by destruct Hres].
  - (* register_file *)
    unfold register_file in Hrun. case_bool_decide as Hdom.
    { injection Hrun as <- _ _. exists r. split; [done|lia]. }
    bind_step in Hrun. unfold odict.getitem in Hrun.
    destruct (odict.get pn (MeshNetworkLayer.nodes network)) as [node|]; [|done].
    simpl in Hrun. injection Hrun as <- _ _.
    exists r. split; [|lia].
    rewrite replica_at_insert_ne; [done|].
    intros ->. apply Hdom. apply elem_of_dom.
    unfold replica_at in Hr. destruct (files self !! f); [by eexists|done].
  - (* replicate_file *)
    unfold replicate_file in Hrun.
    destruct (files self !! fid) as [metadata|] eqn:Hfile.
    2:{ injection Hrun as <- _ _. exists r. split; [done|lia]. }
    destruct (FileMetadata.get_primary_replica metadata) as [primary|].
    2:{ injection Hrun as <- _ _. exists r. split; [done|lia]. }
    destruct (replicate_loop_spec network primary (FileMetadata.replicas metadata) tn w)
      as (replicas'&w1&Hloop&_&Hold).
    bind_step in Hrun. rewrite Hloop in Hrun.
    injection Hrun as <- _ _.
    exists r. split; [|lia].
    destruct (decide (fid = f)) as [->|Hne].
    + rewrite replica_at_insert_eq. simpl. apply Hold.
      unfold replica_at in Hr. by rewrite Hfile in Hr.
    + by rewrite replica_at_insert_ne.
  - (* sync_file *)
    destruct (files self !! fid) as [metadata|] eqn:Hfile.
    2:{ unfold sync_file in Hrun. rewrite Hfile in Hrun.
        injection Hrun as <- _ _. exists r. split; [done|lia]. }
    destruct (sync_file_spec self fid c sn w metadata Hfile)
      as (replicas&metadata'&event&w1&Hsync&_&Hall&Hrep&_).
    rewrite Hsync in Hrun. injection Hrun as <- _ _.
    unfold replica_at in *. simpl.
    destruct (decide (fid = f)) as [->|Hne].
    + rewrite lookup_insert_eq. simpl. rewrite Hfile in Hr. simpl in Hr.
      rewrite Hrep.
      assert (Forall2 (λ e e', e'.1 = e.1
                ∧ synced c (content_hash c) sn w e e')
                (FileMetadata.replicas metadata) replicas) as Hall'.
      { eapply Forall2_impl; [exact Hall|]. intros e e' He. split; [apply He|done]. }
      destruct (odict_get_Forall2 _ _ _ _ _ Hall' Hr) as (r'&Hr'&_&Hs).
      exists r'. split; [done|]. simpl in Hs.
      destruct (decide (n ≠ sn)).
      * destruct Hs as (_&_&->&_). lia.
      * subst r'. lia.
    + rewrite lookup_insert_ne by done. exists r. split; [done|lia].
Qed.

Lemma run_ops_version_mono network ops : ∀ self w self' w' f n r,
  Forall (λ o, ¬ is_resolve o) ops →
  run_ops network self ops w = Ok (self', w') →
  replica_at self f n = Some r →
  ∃ r', replica_at self' f n = Some r'
        ∧ (CodeReplica.version r ≤ CodeReplica.version r')%Z.
Proof.
  induction ops as [|o ops IH]; intros self w self' w' f n r Hall Hrun Hr.
  - injection Hrun as <- _. exists r. split; [done|lia].
  - apply Forall_cons in Hall as [Ho Hall].
    cbn [run_ops] in Hrun. bind_step in Hrun.
    destruct (run_op network self o w) as [[[self1 b] w1]| |] eqn:Hop; try done.
    destruct (run_op_version_mono _ _ _ _ _ _ _ _ _ _ Ho Hop Hr) as (r1&Hr1&Hle).
    destruct (IH _ _ _ _ _ _ _ Hall Hrun Hr1) as (r'&Hr'&Hle').
    exists r'. split; [done|lia].
Qed.

(** Running the loop of [resolve_conflict] on its own output changes no
    content, hash or version. *)
Lemma resolved_twice winning win l0 l1 : ∀ l2,
  Forall2 (resolved winning win) l0 l1 →
  Forall2 (resolved winning win) l1 l2 →
  (λ e : string * CodeReplica.t,
     (e.1, (CodeReplica.content e.2, CodeReplica.hash e.2, CodeReplica.version e.2)))
    <$> l2
  = (λ e : string * CodeReplica.t,
       (e.1, (CodeReplica.content e.2, CodeReplica.hash e.2, CodeReplica.version e.2)))
      <$> l1.
Proof.
  intros l2 H01. revert l2.
  induction H01 as [|e0 e1 l0 l1 [Hk01 H01] _ IH]; intros l2 H12.
  - by apply Forall2_nil_inv_l in H12 as ->.
  - apply Forall2_cons_inv_l in H12 as (e2&l2'&[Hk12 H12]&Htl&->).
    rewrite !fmap_cons. f_equal; [|by apply IH].
    rewrite <- Hk01 in H01.
    destruct (decide (e1.1 ≠ win)).
    + destruct H01 as (->&->&->). destruct H12 as (->&->&->). by rewrite Hk12.
    + by rewrite Hk12, H12.
Qed.

End replication.

(** *** What [sync_file] does to the source's replica *)
Section source_replica.
  Import CodeReplicationManager ReplicationSpec ReplicaLoops.

(** Two replicas with different hashes make the file inconsistent. *)
Lemma replicas_inconsistent metadata r1 r2 :
  r1 ∈ odict.values (FileMetadata.replicas metadata) →
  r2 ∈ odict.values (FileMetadata.replicas metadata) →
  CodeReplica.hash r1 ≠ CodeReplica.hash r2 →
  FileMetadata.replicas_consistent metadata = false.
Proof.
  intros H1 H2 Hne. unfold FileMetadata.replicas_consistent.
  destruct (decide (length (FileMetadata.replicas metadata) ≤ 1)) as [Hlen|_].
  - exfalso. destruct (FileMetadata.replicas metadata) as [|e [|e' l]];
      [by apply elem_of_nil in H1| |simpl in Hlen; lia].
    apply list_elem_of_singleton in H1, H2. congruence.
  - apply bool_decide_eq_false. intros Hsize.
    apply size_1_elem_of in Hsize as [h Hh].
    assert (∀ r, r ∈ odict.values (FileMetadata.replicas metadata) →
                 CodeReplica.hash r = h) as Hall.
    { intros r Hr. apply (list_elem_of_fmap_2 CodeReplica.hash) in Hr.
      apply (elem_of_list_to_set (C := gset string)) in Hr.
      rewrite Hh in Hr. by apply elem_of_singleton in Hr. }
    rewrite (Hall r1 H1), (Hall r2 H2) in Hne. done.
Qed.

(** Whenever the file has a replica on another node and the source's
    replica does not already hold the new hash, [sync_file] leaves the
    source's replica as it was, the replicas inconsistent and the file
    pending. *)
Lemma sync_file_keeps_source_replica
    self file_id new_content source_node w metadata source_replica n r :
  files self !! file_id = Some metadata →
  odict.get source_node (FileMetadata.replicas metadata) = Some source_replica →
  CodeReplica.hash source_replica ≠ content_hash new_content →
  (n, r) ∈ FileMetadata.replicas metadata → n ≠ source_node →
  ∃ self' w' metadata',
    sync_file self file_id new_content source_node w = Ok (self', true, w')
    ∧ files self' !! file_id = Some metadata'
    ∧ odict.get source_node (FileMetadata.replicas metadata') = Some source_replica
    ∧ FileMetadata.replicas_consistent metadata' = false
    ∧ FileMetadata.sync_state metadata' = SyncState.PENDING.
Proof.
  intros Hfile Hsrc Hhash Hin Hn.
  destruct (sync_file_spec self file_id new_content source_node w metadata Hfile)
    as (replicas&metadata'&event&w'&Hsync&_&Hall&Hrep&Hstate&_).
  assert (Forall2 (λ e e', e'.1 = e.1
            ∧ synced new_content (content_hash new_content) source_node w e e')
            (FileMetadata.replicas metadata) replicas) as Hall'.
  { eapply Forall2_impl; [exact Hall|]. intros e e' He. split; [apply He|done]. }
  destruct (odict_get_Forall2 _ _ _ _ _ Hall' Hsrc) as (r'&Hr'&_&Hs).
  simpl in Hs. rewrite decide_False in Hs by (intros Hne; by apply Hne). subst r'.
  destruct (Forall2_elem_of_l _ _ _ _ Hall Hin) as ([n' r']&Hin'&Hk&Hs).
  simpl in Hk, Hs. subst n'. rewrite decide_True in Hs by done.
  destruct Hs as (_&Hh&_).
  assert (FileMetadata.replicas_consistent metadata' = false) as Hcons.
  { apply (replicas_inconsistent metadata' source_replica r').
    - rewrite Hrep. apply odict_get_elem_of in Hr'.
      by apply (list_elem_of_fmap_2 snd) in Hr'.
    - rewrite Hrep. by apply (list_elem_of_fmap_2 snd) in Hin'.
    - congruence. }
  eexists _, w', metadata'. split; [exact Hsync|].
  split; [simpl; apply lookup_insert_eq|]. split; [by rewrite Hrep|].
  split; [done|]. by rewrite Hstate, Hcons.
Qed.

End source_replica.

(** *** Where timestamps come from *)
Section timestamps.
  Import CodeReplicationManager ReplicationSpec ReplicaLoops.










End timestamps.

(** ** Replication: the claims *)
Section replication_claims.
  Import CodeReplicationManager ReplicationSpec ReplicaLoops.

  Local Open Scope string_scope.

(** C1, at the input of the repository's own [test_sync_file]: after
    registering a file on local_1, replicating it to edge_1 and syncing new
    content from local_1, the replica of local_1 still holds the old content
    and hash, so the replicas are not consistent and the file is left
    pending. *)
Theorem sync_file_leaves_source_replica_stale :
  ∃ metadata local edge,
    files (after register_replicate_sync) !! "file_001" = Some metadata
    ∧ FileMetadata.replicas metadata = [("local_1", local); ("edge_1", edge)]
    ∧ CodeReplica.content local = "x = 1"
    ∧ CodeReplica.content edge = "x = 2"
    ∧ CodeReplica.hash local ≠ CodeReplica.hash edge
    ∧ FileMetadata.replicas_consistent metadata = false
    ∧ FileMetadata.sync_state metadata = SyncState.PENDING.
Proof.
  eexists _, _, _. split; [vm_compute; reflexivity|].
  repeat split; try (vm_compute; reflexivity).
  vm_compute. discriminate.
Qed.

(** C3 as stated fails: after two syncs from local_1 the replica of edge_1
    is at version 3, and [resolve_conflict] in favour of local_1 (version 1)
    puts it back to version 2. *)
Lemma resolve_conflict_lowers_a_version :
  ∃ self' w' before after_,
    resolve_conflict (after register_replicate_sync_twice) "file_001" "local_1"
      (world_after register_replicate_sync_twice) = Ok (self', true, w')
    ∧ replica_at (after register_replicate_sync_twice) "file_001" "edge_1" = Some before
    ∧ replica_at self' "file_001" "edge_1" = Some after_
    ∧ CodeReplica.version before = 3%Z
    ∧ CodeReplica.version after_ = 2%Z
    ∧ (CodeReplica.version after_ < CodeReplica.version before)%Z.
Proof.
  eexists _, _, _, _. split; [vm_compute; reflexivity|].
  split; [vm_compute; reflexivity|].
  split; [vm_compute; reflexivity|].
  repeat split.
Qed.

(** C3, amended: no sequence of [register_file], [replicate_file] and
    [sync_file] calls lowers the version of a replica; and
    [resolve_conflict], called for a node that holds a replica, succeeds,
    leaves the winner's version as it is and sets the version of every
    other replica of the file to the winner's version plus one. *)
Theorem version_monotone_except_resolve_conflict :
  (∀ network ops self w self' w' file_id node r,
     Forall (λ o, ¬ is_resolve o) ops →
     run_ops network self ops w = Ok (self', w') →
     replica_at self file_id node = Some r →
     ∃ r', replica_at self' file_id node = Some r'
           ∧ (CodeReplica.version r ≤ CodeReplica.version r')%Z)
  ∧ (∀ self file_id winning_replica_node w winning,
       replica_at self file_id winning_replica_node = Some winning →
       ∃ self' w',
         resolve_conflict self file_id winning_replica_node w = Ok (self', true, w')
         ∧ ∀ node r,
             replica_at self file_id node = Some r →
             ∃ r', replica_at self' file_id node = Some r'
                   ∧ CodeReplica.version r'
                     = if decide (node = winning_replica_node)
                       then CodeReplica.version r
                       else (CodeReplica.version winning + 1)%Z).
Proof.
  split.
  - intros network ops. apply run_ops_version_mono.
  - intros self f wn w winning Hwin.
    unfold replica_at in Hwin.
    destruct (files self !! f) as [metadata|] eqn:Hfile; [|done]. simpl in Hwin.
    destruct (resolve_conflict_spec self f wn w metadata winning Hfile Hwin)
      as (replicas&w'&Hres&_&Hall).
    eexists _, w'. split; [exact Hres|].
    intros node r Hr. unfold replica_at in Hr. rewrite Hfile in Hr. simpl in Hr.
    rewrite replica_at_insert_eq. simpl.
    assert (Forall2 (λ e e', e'.1 = e.1 ∧ resolved winning wn e e')
              (FileMetadata.replicas metadata) replicas) as Hall'.
    { eapply Forall2_impl; [exact Hall|]. intros e e' He. split; [apply He|done]. }
    destruct (odict_get_Forall2 _ _ _ _ _ Hall' Hr) as (r'&Hr'&_&Hs).
    exists r'. split; [done|]. simpl in Hs.
    destruct (decide (node ≠ wn)) as [Hne|Heq].
    + rewrite decide_False by done. by destruct Hs as (_&_&->).
    + rewrite decide_True by (by destruct (decide (node = wn))). by subst r'.
Qed.

Lemma version_monotone_except_resolve_conflict_witness :
  (∃ r', replica_at (after register_replicate_sync) "file_001" "edge_1" = Some r'
         ∧ (1 ≤ CodeReplica.version r')%Z)
  ∧ (∃ self' w',
       resolve_conflict (after register_replicate_sync_twice) "file_001" "local_1"
         (world_after register_replicate_sync_twice) = Ok (self', true, w')
       ∧ ∃ r', replica_at self' "file_001" "edge_1" = Some r'
               ∧ CodeReplica.version r' = 2%Z).
Proof.
  split.
  - destruct (proj1 version_monotone_except_resolve_conflict
                Fixture.network [SyncFile "file_001" "x = 2" "local_1"]
                (after register_replicate) (world_after register_replicate)
                (after register_replicate_sync) (world_after register_replicate_sync)
                "file_001" "edge_1"
                (CodeReplica.make "edge_1" NodeType.EDGE "x = 1" EmptyString 1 1))
      as (r'&Hr'&Hle).
    + repeat constructor. simpl. tauto.
    + vm_compute. reflexivity.
    + vm_compute. reflexivity.
    + exists r'. split; [exact Hr'|exact Hle].
  - destruct (proj2 version_monotone_except_resolve_conflict
                (after register_replicate_sync_twice) "file_001" "local_1"
                (world_after register_replicate_sync_twice)
                (CodeReplica.make "local_1" NodeType.LOCAL "x = 1" EmptyString 0 1))
      as (self'&w'&Hres&Hall).
    + vm_compute. reflexivity.
    + exists self', w'. split; [exact Hres|].
      destruct (Hall "edge_1"
                  {| CodeReplica.node_id := "edge_1"; CodeReplica.node_type := NodeType.EDGE;
                     CodeReplica.content := "x = 3";
                     CodeReplica.hash := content_hash "x = 3";
                     CodeReplica.timestamp := 4; CodeReplica.version := 3 |})
        as (r'&Hr'&Hv).
      * vm_compute. reflexivity.
      * exists r'. split; [exact Hr'|]. exact Hv.
Defined.

(** C7: on a registered file and a node that holds a replica of it,
    [resolve_conflict] succeeds twice in a row, and after the second call
    every replica has the content, the hash and the version it had after the
    first. *)
Theorem resolve_conflict_idempotent self file_id winning_replica_node w metadata :
  files self !! file_id = Some metadata →
  is_Some (odict.get winning_replica_node (FileMetadata.replicas metadata)) →
  ∃ self1 w1 self2 w2 metadata1 metadata2,
    resolve_conflict self file_id winning_replica_node w = Ok (self1, true, w1)
    ∧ resolve_conflict self1 file_id winning_replica_node w1 = Ok (self2, true, w2)
    ∧ files self1 !! file_id = Some metadata1
    ∧ files self2 !! file_id = Some metadata2
    ∧ replica_contents metadata2 = replica_contents metadata1.
Proof.
  intros Hfile [winning Hwin].
  destruct (resolve_conflict_spec self file_id winning_replica_node w metadata winning
              Hfile Hwin) as (items1&w1&Hres1&_&Hall1).
  set (metadata1 := FileMetadata.with_sync_state
                      (FileMetadata.with_replicas metadata items1) SyncState.SYNCED).
  set (self1 := with_files self (<[file_id := metadata1]> (files self))).
  assert (files self1 !! file_id = Some metadata1) as Hfile1
    by (simpl; apply lookup_insert_eq).
  assert (odict.get winning_replica_node (FileMetadata.replicas metadata1) = Some winning)
    as Hwin1.
  { assert (Forall2 (λ e e', e'.1 = e.1 ∧ resolved winning winning_replica_node e e')
              (FileMetadata.replicas metadata) items1) as Hall'.
    { eapply Forall2_impl; [exact Hall1|]. intros e e' He. split; [apply He|done]. }
    destruct (odict_get_Forall2 _ _ _ _ _ Hall' Hwin) as (r'&Hr'&_&Hs).
    simpl in Hs. rewrite decide_False in Hs by (intros Hne; by apply Hne).
    simpl. by subst r'. }
  destruct (resolve_conflict_spec self1 file_id winning_replica_node w1 metadata1 winning
              Hfile1 Hwin1) as (items2&w2&Hres2&_&Hall2).
  eexists self1, w1, _, w2, metadata1, _.
  split; [exact Hres1|]. split; [exact Hres2|]. split; [exact Hfile1|].
  split; [simpl; apply lookup_insert_eq|].
  unfold replica_contents. simpl.
  eapply resolved_twice; [exact Hall1|exact Hall2].
Qed.

Lemma resolve_conflict_idempotent_witness :
  ∃ self1 w1 self2 w2 metadata1 metadata2,
    resolve_conflict (after register_replicate_sync) "file_001" "local_1"
      (world_after register_replicate_sync) = Ok (self1, true, w1)
    ∧ resolve_conflict self1 "file_001" "local_1" w1 = Ok (self2, true, w2)
    ∧ files self1 !! "file_001" = Some metadata1
    ∧ files self2 !! "file_001" = Some metadata2
    ∧ replica_contents metadata2 = replica_contents metadata1.
Proof.
  eapply (resolve_conflict_idempotent (after register_replicate_sync) "file_001" "local_1").
  - vm_compute. reflexivity.
  - vm_compute. eexists. reflexivity.
Defined.





(** The same run seen from the empty manager: the log holds that one
    event. *)
Example sync_file_old_hash_with_frozen_clock :
  ∃ self w event,
    run_ops Fixture.network init register_replicate_sync frozen_world = Ok (self, w)
    ∧ sync_events self = [event]
    ∧ SyncEvent.new_hash event = content_hash "x = 2"
    ∧ SyncEvent.old_hash event = Some (content_hash "x = 1").
Proof.
  eexists _, _, _. split; [vm_compute; reflexivity|].
  split; [reflexivity|]. split; vm_compute; reflexivity.
Qed.

End replication_claims.

(** ** Execution routing *)
Section routing.
  Import ExecutionRouter RouterSpec.

  Local Open Scope string_scope.

Lemma filter_none {A} (P : A → Prop) `{!∀ x, Decision (P x)} (l : list A) :
  Forall (λ x, ¬ P x) l → filter P l = [].
Proof.
  induction 1 as [|x l Hx _ IH]; [done|].
  by rewrite filter_cons_False.
Qed.

(** On a registered file [plan_execution] always returns a plan, built from
    the nodes that [select_nodes] picks. *)
Lemma plan_execution_registered network replication file_id context developer_node w :
  file_id ∈ dom (CodeReplicationManager.files replication) →
  ∃ plan w',
    plan_execution network replication file_id context developer_node w
    = Ok (Some plan, w')
    ∧ ExecutionPlan.primary_node plan = (select_nodes network context developer_node).1
    ∧ ExecutionPlan.backup_nodes plan = (select_nodes network context developer_node).2
    ∧ ExecutionPlan.file_id plan = file_id
    ∧ ExecutionPlan.target_context plan = context
    ∧ length (ExecutionPlan.steps plan) = 5.
Proof.
  intros Hdom. unfold plan_execution. rewrite bool_decide_eq_true_2 by done. simpl.
  apply elem_of_dom in Hdom as [metadata Hfile].
  destruct (select_nodes network context developer_node) as [primary backups] eqn:Hsel.
  eexists _, _. split.
  { bind_step. simpl.
    bind_step. unfold getitem. rewrite Hfile. simpl. reflexivity. }
  repeat split.
Qed.

(** With the quantum context the primary node is the first quantum-class
    node of the registry, whatever its status or load. *)
Lemma select_nodes_quantum network developer_node :
  select_nodes network ExecutionContext.QUANTUM developer_node
  = (MeshNode.node_id <$>
       head (filter (λ n, MeshNode.node_type n = NodeType.QUANTUM)
               (odict.values (MeshNetworkLayer.nodes network))), []).
Proof.
  unfold select_nodes, nodes_where. do 3 f_equal.
  apply list_filter_iff. intros n. by rewrite bool_decide_eq_true.
Qed.

(** C4 as stated fails: with no quantum node in the registry,
    [plan_execution] on a registered file returns a plan, not none and not
    an error. *)
Lemma plan_execution_quantum_returns_a_plan :
  ¬ none_or_error
      (plan_execution Fixture.network (registered_on Fixture.network) "file_001"
         ExecutionContext.QUANTUM "local_1" Fixture.world).
Proof. vm_compute. tauto. Qed.

(** C4, amended: when no quantum-class node is registered, [plan_execution]
    with the quantum context on a registered file raises nothing and returns
    a plan whose primary node is none and which has no backup node. *)
Theorem plan_execution_quantum_without_quantum_node
    network replication file_id developer_node w :
  file_id ∈ dom (CodeReplicationManager.files replication) →
  Forall (λ n, MeshNode.node_type n ≠ NodeType.QUANTUM)
    (odict.values (MeshNetworkLayer.nodes network)) →
  ∃ plan w',
    plan_execution network replication file_id ExecutionContext.QUANTUM developer_node w
    = Ok (Some plan, w')
    ∧ ExecutionPlan.primary_node plan = None
    ∧ ExecutionPlan.backup_nodes plan = [].
Proof.
  intros Hdom Hnone.
  destruct (plan_execution_registered network replication file_id
              ExecutionContext.QUANTUM developer_node w Hdom)
    as (plan&w'&Hplan&Hprimary&Hbackup&_).
  exists plan, w'. split; [done|].
  rewrite Hprimary, Hbackup, select_nodes_quantum. simpl. split; [|done].
  by rewrite filter_none.
Qed.

Lemma plan_execution_quantum_without_quantum_node_witness :
  ∃ plan w',
    plan_execution Fixture.network (registered_on Fixture.network) "file_001"
      ExecutionContext.QUANTUM "local_1" Fixture.world = Ok (Some plan, w')
    ∧ ExecutionPlan.primary_node plan = None
    ∧ ExecutionPlan.backup_nodes plan = [].
Proof.
  apply (plan_execution_quantum_without_quantum_node Fixture.network
           (registered_on Fixture.network) "file_001" "local_1" Fixture.world).
  - apply elem_of_dom. eexists. vm_compute. reflexivity.
  - vm_compute. repeat constructor; discriminate.
Defined.

(** C5, at a registry holding an offline quantum node followed by an online
    one: the plan's primary node is the offline node, which is not
    available, and not the first available one. *)
Theorem plan_execution_quantum_selects_unavailable_node :
  ∃ plan w' quantum_1 quantum_2,
    plan_execution Fixture.quantum_network (registered_on Fixture.quantum_network)
      "file_001" ExecutionContext.QUANTUM "local_1" Fixture.world = Ok (Some plan, w')
    ∧ ExecutionPlan.primary_node plan = Some "quantum_1"
    ∧ odict.get "quantum_1" (MeshNetworkLayer.nodes Fixture.quantum_network)
      = Some quantum_1
    ∧ MeshNode.is_available quantum_1 = false
    ∧ odict.get "quantum_2" (MeshNetworkLayer.nodes Fixture.quantum_network)
      = Some quantum_2
    ∧ MeshNode.node_type quantum_2 = NodeType.QUANTUM
    ∧ MeshNode.is_available quantum_2 = true.
Proof.
  eexists _, _, _, _. split; [vm_compute; reflexivity|].
  split; [reflexivity|].
  split; [vm_compute; reflexivity|].
  split; [vm_compute; reflexivity|].
  split; [vm_compute; reflexivity|].
  split; vm_compute; reflexivity.
Qed.

End routing.

(** ** Registration on an unknown node *)
Section unknown_primary_node.
  Import CodeReplicationManager RouterSpec.

  Local Open Scope string_scope.

(** [register_file] with a fresh file id and a node that is not registered
    raises [KeyError]: the node is looked up without a membership test. *)
Lemma register_file_unknown_node_raises network self file_id path content primary_node w :
  file_id ∉ dom (files self) →
  odict.mem primary_node (MeshNetworkLayer.nodes network) = false →
  register_file network self file_id path content primary_node w
  = Raise (KeyError primary_node).
Proof.
  intros Hfresh Hnode. unfold register_file.
  rewrite bool_decide_eq_false_2 by done.
  bind_step. unfold odict.getitem.
  destruct (odict.get primary_node (MeshNetworkLayer.nodes network)) as [node|] eqn:Hget.
  - apply odict_get_mem in Hget. congruence.
  - reflexivity.
Qed.

(** The coordinator's [add_file] does not catch it. *)
Lemma add_file_unknown_node_raises self path content primary_node w :
  file_id_of_path path ∉ dom (files (MeshIDECoordinator.replication self)) →
  odict.mem primary_node (MeshNetworkLayer.nodes (MeshIDECoordinator.network self)) = false →
  MeshIDECoordinator.add_file self path content primary_node w
  = Raise (KeyError primary_node).
Proof.
  intros Hfresh Hnode. unfold MeshIDECoordinator.add_file.
  bind_step.
  by rewrite register_file_unknown_node_raises.
Qed.

(** C8, at a mesh of three nodes and no file: registering a file on the
    unknown node "ghost" raises [KeyError] instead of returning a failure
    signal, through [register_file] and through [add_file]. *)
Theorem register_file_on_unknown_node_raises_KeyError :
  register_file Fixture.network init "file_001" "test.py" "x = 1" "ghost" Fixture.world
  = Raise (KeyError "ghost")
  ∧ MeshIDECoordinator.add_file coordinator "test.py" "x = 1" "ghost" Fixture.world
    = Raise (KeyError "ghost").
Proof.
  split.
  - apply register_file_unknown_node_raises; [|vm_compute; reflexivity].
    simpl. rewrite dom_empty_L. apply not_elem_of_empty.
  - apply add_file_unknown_node_raises; [|vm_compute; reflexivity].
    simpl. rewrite dom_empty_L. apply not_elem_of_empty.
Qed.

End unknown_primary_node.

(** ** Guardians *)
Section guardians.
  Import GuardianAgentSystem.

  Local Open Scope string_scope.

(** C10: [create_guardian] succeeds for every file id, registered or not,
    stores the new agent, and makes it the primary guardian of the file when
    the file had none; if the file is not registered with the replication
    manager, every later [monitor_file] on it raises [KeyError]. *)
Theorem create_guardian_without_file_check replication self file_id node_id role w :
  ∃ self' agent w',
    create_guardian self file_id node_id role w = Ok (self', agent, w')
    ∧ GuardianAgent.file_id agent = file_id
    ∧ agents self' !! GuardianAgent.agent_id agent = Some agent
    ∧ (file_guardians self !! file_id = None →
       file_guardians self' !! file_id = Some (GuardianAgent.agent_id agent))
    ∧ (file_id ∉ dom (CodeReplicationManager.files replication) →
       ∀ w2, ∃ key, monitor_file replication self' file_id w2 = Raise (KeyError key)).
Proof.
  unfold create_guardian, mbind, M_bind, uuid4_hex, mret, M_ret.
  eexists _, _, _. split; [reflexivity|]. simpl.
  split; [done|]. split; [apply lookup_insert_eq|]. split.
  - intros Hnone. rewrite bool_decide_eq_false_2.
    + apply lookup_insert_eq.
    + by apply not_elem_of_dom.
  - intros Hfile w2. unfold monitor_file.
    set (agent_id := "guardian_" +:+ file_id +:+ "_"
                     +:+ String.substring 0 8 (uuid_source w (uuid_reads w))).
    set (fg := if bool_decide (file_id ∈ dom (file_guardians self))
               then file_guardians self
               else <[file_id := agent_id]> (file_guardians self)).
    assert (is_Some (fg !! file_id)) as [g Hg].
    { unfold fg. case_bool_decide as Hd.
      - by apply elem_of_dom.
      - rewrite lookup_insert_eq. by eexists. }
    rewrite bool_decide_eq_true_2 by (apply elem_of_dom; by eexists). simpl.
    bind_step. unfold getitem at 1. rewrite Hg. simpl.
    bind_step. unfold getitem at 1.
    destruct (_ !! g) as [guardian|]; [|by eexists]. simpl.
    bind_step. unfold getitem at 1.
    apply not_elem_of_dom in Hfile. rewrite Hfile. by eexists.
Qed.

Lemma create_guardian_without_file_check_witness :
  ∃ self' agent w',
    create_guardian init "never_registered" "local_1" AgentRole.GUARDIAN Fixture.world
    = Ok (self', agent, w')
    ∧ file_guardians self' !! "never_registered" = Some (GuardianAgent.agent_id agent)
    ∧ ∃ key, monitor_file CodeReplicationManager.init self' "never_registered" w'
             = Raise (KeyError key).
Proof.
  destruct (create_guardian_without_file_check CodeReplicationManager.init init
              "never_registered" "local_1" AgentRole.GUARDIAN Fixture.world)
    as (self'&agent&w'&Hcreate&_&_&Hprimary&Hmonitor).
  exists self', agent, w'. split; [exact Hcreate|]. split.
  - apply Hprimary. reflexivity.
  - apply Hmonitor. simpl. rewrite dom_empty_L. apply not_elem_of_empty.
Defined.

End guardians.

(** ** Shortest paths *)
Section paths.
  Import MeshNetworkLayer PathSpec.

  Local Open Scope Z_scope.

(** *** Paths extended at the far end *)

Lemma links_ok_snoc net p x v :
  last p = Some x → links_ok net (p ++ [v]) ↔ links_ok net p ∧ link net x v.
Proof.
  induction p as [|a [|b p] IH]; intros Hlast; [done| |].
  - simpl in *. injection Hlast as ->. tauto.
  - change (last (a :: b :: p)) with (last (b :: p)) in Hlast.
    specialize (IH Hlast).
    change (links_ok net ((a :: b :: p) ++ [v]))
      with (link net a b ∧ links_ok net ((b :: p) ++ [v])).
    change (links_ok net (a :: b :: p)) with (link net a b ∧ links_ok net (b :: p)).
    tauto.
Qed.

Lemma total_latency_snoc net p x v :
  last p = Some x →
  total_latency net (p ++ [v]) = total_latency net p + latency net x v.
Proof.
  induction p as [|a [|b p] IH]; intros Hlast; [done| |].
  - simpl in *. injection Hlast as ->. lia.
  - change (last (a :: b :: p)) with (last (b :: p)) in Hlast.
    specialize (IH Hlast).
    change (total_latency net ((a :: b :: p) ++ [v]))
      with (latency net a b + total_latency net ((b :: p) ++ [v])).
    change (total_latency net (a :: b :: p))
      with (latency net a b + total_latency net (b :: p)).
    lia.
Qed.

Lemma is_path_refl net a : is_path net a a [a].
Proof. by repeat split. Qed.

Lemma is_path_snoc net a x v p :
  is_path net a x p → link net x v → is_path net a v (p ++ [v]).
Proof.
  intros (Hhd&Hlast&Hok) Hlink. repeat split.
  - destruct p; [done|]. done.
  - by rewrite last_snoc.
  - by apply (links_ok_snoc net p x v).
Qed.

(** A path is a single node or a shorter path followed by a link. *)
Lemma is_path_inv net a b q :
  is_path net a b q →
  (q = [a] ∧ b = a)
  ∨ ∃ q' x, q = q' ++ [b] ∧ is_path net a x q' ∧ link net x b.
Proof.
  destruct q as [|v q' _] using rev_ind; [by intros ([=]&_)|].
  intros (Hhd&Hlast&Hok).
  rewrite last_snoc in Hlast. injection Hlast as ->.
  destruct (last q') as [x|] eqn:Hx.
  - right. exists q', x.
    destruct (proj1 (links_ok_snoc net q' x b Hx) Hok) as [Hok' Hlink].
    split; [done|]. split; [|done]. repeat split; [|done..].
    destruct q'; [done|]. done.
  - left. apply last_None in Hx as ->. simpl in Hhd. injection Hhd as ->. done.
Qed.

(** Induction on paths from a fixed start, extending them link by link. *)
Lemma is_path_ind net a (P : string → list string → Prop) :
  P a [a] →
  (∀ x v q, is_path net a x q → P x q → link net x v → P v (q ++ [v])) →
  ∀ b q, is_path net a b q → P b q.
Proof.
  intros Hbase Hstep b q. revert b.
  induction q as [|v q' IH] using rev_ind; intros b Hq.
  - by destruct Hq as ([=]&_).
  - destruct (is_path_inv _ _ _ _ Hq) as [[Heq ->]|(q''&x&Heq&Hq'&Hlink)].
    + by rewrite Heq.
    + apply app_inj_tail in Heq as [<- <-].
      eapply Hstep; [done| |done]. by apply IH.
Qed.

Lemma is_path_registered net a b q :
  wf net → registered net a → is_path net a b q → registered net b.
Proof.
  intros [_ Hwf] Ha Hq. revert b q Hq.
  apply is_path_ind; [done|].
  intros x v q _ _ Hlink. by apply (Hwf x v).
Qed.

(** *** The order on distances and [min] *)

Lemma distance_ltb_Fin a b : distance_ltb (Fin a) (Fin b) = true ↔ a < b.
Proof. simpl. apply bool_decide_eq_true. Qed.

Lemma distance_le_Fin a b : distance_le (Fin a) (Fin b) ↔ a ≤ b.
Proof.
  unfold distance_le. simpl. rewrite bool_decide_eq_false. lia.
Qed.

Lemma distance_le_trans x y z : distance_le x y → distance_le y z → distance_le x z.
Proof.
  unfold distance_le. destruct x, y, z; simpl; try done.
  rewrite !bool_decide_eq_false. lia.
Qed.

Lemma py_min_from_spec {A} (key : A → distance) (best : A) (l : list A) :
  let m := py_min_from key distance_ltb best l in
  m ∈ best :: l ∧ ∀ x, x ∈ best :: l → distance_le (key m) (key x).
Proof.
  revert best. induction l as [|y l IH]; intros best; simpl.
  - split; [apply list_elem_of_singleton; done|].
    intros x Hx. apply list_elem_of_singleton in Hx as ->.
    unfold distance_le. destruct (key best); simpl; [|done].
    apply bool_decide_eq_false. lia.
  - set (best' := if distance_ltb (key y) (key best) then y else best).
    destruct (IH best') as [Hin Hmin].
    assert (distance_le (key best') (key y) ∧ distance_le (key best') (key best))
      as [Hy Hbest].
    { unfold best', distance_le.
      destruct (distance_ltb (key y) (key best)) eqn:Hlt.
      - split.
        + destruct (key y); simpl; [|done]. apply bool_decide_eq_false. lia.
        + destruct (key y), (key best); simpl in *; try done.
          apply bool_decide_eq_true in Hlt. apply bool_decide_eq_false. lia.
      - split; [done|].
        destruct (key best); simpl; [|done]. apply bool_decide_eq_false. lia. }
    split.
    + apply elem_of_cons in Hin as [->|Hin].
      * unfold best'. destruct (distance_ltb (key y) (key best)).
        -- apply elem_of_cons. right. apply elem_of_cons. by left.
        -- apply elem_of_cons. by left.
      * apply elem_of_cons. right. apply elem_of_cons. by right.
    + intros x Hx.
      assert (distance_le (key (py_min_from key distance_ltb best' l)) (key best'))
        as Hb by (apply Hmin; apply elem_of_cons; by left).
      apply elem_of_cons in Hx as [->|Hx]; [by eapply distance_le_trans|].
      apply elem_of_cons in Hx as [->|Hx]; [by eapply distance_le_trans|].
      apply Hmin. apply elem_of_cons. by right.
Qed.

Lemma py_min_spec {A} (key : A → distance) (l : list A) (m : A) :
  py_min key distance_ltb l = Some m →
  m ∈ l ∧ ∀ x, x ∈ l → distance_le (key m) (key x).
Proof.
  destruct l as [|y l]; simpl; [done|].
  intros [= <-]. apply py_min_from_spec.
Qed.

Lemma py_min_None {A} (key : A → distance) (l : list A) :
  py_min key distance_ltb l = None → l = [].
Proof. by destruct l. Qed.

(** *** The initial [distances] and [previous] *)

Lemma initial_distance keys n :
  dist_of (list_to_map ((λ n, (n, Inf)) <$> keys)) n = Inf.
Proof.
  unfold dist_of. induction keys as [|k keys IH]; simpl.
  - by rewrite lookup_empty.
  - destruct (decide (k = n)) as [->|Hne].
    + by rewrite lookup_insert_eq.
    + by rewrite lookup_insert_ne.
Qed.

Lemma initial_previous keys n :
  n ∈ keys →
  (list_to_map ((λ n, (n, None)) <$> keys) : gmap string (option string)) !! n
  = Some None.
Proof.
  induction keys as [|k keys IH]; simpl; intros Hin.
  - by apply elem_of_nil in Hin.
  - destruct (decide (k = n)) as [->|Hne].
    + by rewrite lookup_insert_eq.
    + rewrite lookup_insert_ne by done. apply IH.
      apply elem_of_cons in Hin as [?|?]; [congruence|done].
Qed.

(** *** Following [previous] *)

Lemma chain_agree previous previous' pr :
  (∀ y, y ∈ pr → previous' !! y = previous !! y) →
  chain previous pr → chain previous' pr.
Proof.
  induction pr as [|v [|u pr] IH]; intros Hagree; [done| |].
  - simpl. rewrite Hagree; [done|]. apply elem_of_cons. by left.
  - intros [Hv Hrest]. split.
    + rewrite Hagree; [done|]. apply elem_of_cons. by left.
    + apply IH; [|done]. intros y Hy. apply Hagree. apply elem_of_cons. by right.
Qed.

Lemma reconstruct_step fuel previous c p path :
  previous !! c = Some p →
  reconstruct (S fuel) previous (Some c) path = reconstruct fuel previous p (path ++ [c]).
Proof. intros H. simpl. by rewrite H. Qed.

(** The reconstruction loop walks a chain to its end and appends it. *)
Lemma reconstruct_chain previous pr : ∀ fuel v acc,
  chain previous pr → head pr = Some v → (length pr ≤ fuel)%nat →
  reconstruct (S fuel) previous (Some v) acc = Ok (acc ++ pr).
Proof.
  induction pr as [|v' [|u pr] IH]; intros fuel v acc Hchain Hhd Hlen; [done| |].
  - simpl in *. injection Hhd as ->. rewrite Hchain. by destruct fuel.
  - destruct Hchain as [Hv Hrest]. simpl in Hhd. injection Hhd as ->.
    destruct fuel as [|fuel]; [simpl in Hlen; lia|].
    rewrite (reconstruct_step _ _ _ _ _ Hv).
    rewrite (IH fuel u (acc ++ [v])); [|done|done|simpl in *; lia].
    by rewrite <- app_assoc.
Qed.

(** *** One round of the loop: the neighbours of [current] *)

Lemma dist_of_insert_eq distances n d : dist_of (<[n := d]> distances) n = d.
Proof. unfold dist_of. by rewrite lookup_insert_eq. Qed.

Lemma dist_of_insert_ne distances n m d :
  n ≠ m → dist_of (<[n := d]> distances) m = dist_of distances m.
Proof. intros. unfold dist_of. by rewrite lookup_insert_ne. Qed.

Lemma dist_of_agree distances distances' n :
  distances' !! n = distances !! n → dist_of distances' n = dist_of distances n.
Proof. unfold dist_of. by intros ->. Qed.

(** After the [for neighbor] loop every neighbour that improves holds the
    new distance and points back to [current]; nothing else has changed. *)
Lemma relax_fold_spec net current unvisited dc l :
  0 ≤ latency net current current →
  ∀ distances previous distances' previous',
    dist_of distances current = Fin dc →
    foldl (relax net current unvisited) (distances, previous) l
    = (distances', previous') →
    dist_of distances' current = Fin dc
    ∧ ∀ v,
        (improves net current unvisited dc distances l v →
         dist_of distances' v = Fin (dc + latency net current v)
         ∧ previous' !! v = Some (Some current))
        ∧ (¬ improves net current unvisited dc distances l v →
           distances' !! v = distances !! v ∧ previous' !! v = previous !! v).
Proof.
  intros Hself. induction l as [|x l IH];
    intros distances previous distances' previous' Hc Hfold.
  - simpl in Hfold. injection Hfold as <- <-. split; [done|].
    intros v. split; [|done]. intros (Hin&_). by apply elem_of_nil in Hin.
  - change (foldl (relax net current unvisited) (distances, previous) (x :: l))
      with (foldl (relax net current unvisited)
              (relax net current unvisited (distances, previous) x) l) in Hfold.
    destruct (decide (x ∈ unvisited
                      ∧ distance_ltb (Fin (dc + latency net current x))
                          (dist_of distances x) = true)) as [[HxU Hlt]|Hno].
    + (* [x] is updated *)
      assert (x ≠ current) as Hxc.
      { intros ->. rewrite Hc in Hlt. apply distance_ltb_Fin in Hlt. lia. }
      assert (relax net current unvisited (distances, previous) x
              = (<[x := Fin (dc + latency net current x)]> distances,
                 <[x := Some current]> previous)) as Hrelax.
      { unfold relax. by rewrite bool_decide_eq_true_2, Hc, Hlt. }
      rewrite Hrelax in Hfold.
      apply IH in Hfold as [Hc' Hall]; [|by rewrite dist_of_insert_ne].
      split; [done|]. intros v. destruct (Hall v) as [Himp Hsame]. split.
      * intros (Hin&HvU&Hv). destruct (decide (v = x)) as [->|Hvx].
        -- destruct Hsame as [Hd Hp].
           { intros (_&_&Hlt'). rewrite dist_of_insert_eq in Hlt'.
             apply distance_ltb_Fin in Hlt'. lia. }
           split.
           ++ rewrite (dist_of_agree _ _ _ Hd). apply dist_of_insert_eq.
           ++ rewrite Hp. apply lookup_insert_eq.
        -- apply Himp. split; [|split; [done|]].
           ++ apply elem_of_cons in Hin as [?|?]; [done|done].
           ++ by rewrite dist_of_insert_ne.
      * intros Hnot. destruct (decide (v = x)) as [->|Hvx].
        { exfalso. apply Hnot. split; [apply elem_of_cons; by left|done]. }
        destruct Hsame as [Hd Hp].
        { intros (Hin&HvU&Hv). apply Hnot. split; [apply elem_of_cons; by right|].
          split; [done|]. by rewrite dist_of_insert_ne in Hv. }
        rewrite Hd, Hp. by rewrite !lookup_insert_ne.
    + (* [x] is left as it is *)
      assert (relax net current unvisited (distances, previous) x = (distances, previous))
        as Hrelax.
      { unfold relax. case_bool_decide as HxU; [|done]. rewrite Hc.
        destruct (distance_ltb _ _) eqn:Hlt; [|done]. exfalso. by apply Hno. }
      rewrite Hrelax in Hfold.
      apply IH in Hfold as [Hc' Hall]; [|done].
      split; [done|]. intros v. destruct (Hall v) as [Himp Hsame]. split.
      * intros (Hin&HvU&Hv). apply Himp. split; [|done].
        apply elem_of_cons in Hin as [->|?]; [|done]. exfalso. by apply Hno.
      * intros Hnot. apply Hsame. intros (Hin&HvU&Hv). apply Hnot.
        split; [apply elem_of_cons; by right|done].
Qed.

End paths.

(** *** The loop invariant *)
Section dijkstra.
  Import MeshNetworkLayer PathSpec.

  Local Open Scope Z_scope.

  Context (net : MeshNetworkLayer.t) (source target : string).
  Hypothesis Hwf : wf net.
  Hypothesis Hnonneg : nonneg_latencies net.
  Hypothesis Hsource : registered net source.
  Hypothesis Htarget : registered net target.

(** While the loop runs, no path is shorter than what [distances] holds for
    its end if that is visited, nor than the distance of the unvisited
    minimum otherwise. *)
Lemma lower_bound vis unvisited distances previous current dc :
  invariant net source target vis unvisited distances previous →
  current ∈ unvisited →
  dist_of distances current = Fin dc →
  (∀ x, x ∈ unvisited → distance_le (Fin dc) (dist_of distances x)) →
  ∀ x q, is_path net source x q →
    (x ∈ vis → ∃ dx, dist_of distances x = Fin dx ∧ dx ≤ total_latency net q)
    ∧ (x ∉ vis → dc ≤ total_latency net q).
Proof.
  intros Hinv HcU Hdc Hmin.
  apply (is_path_ind net source
           (λ x q, (x ∈ vis → ∃ dx, dist_of distances x = Fin dx
                                    ∧ dx ≤ total_latency net q)
                   ∧ (x ∉ vis → dc ≤ total_latency net q))).
  - split.
    + intros _. exists 0. split; [apply (inv_src Hinv)|done].
    + intros Hnot. simpl.
      assert (source ∈ unvisited) as HsU.
      { destruct (proj1 (inv_part Hinv source) Hsource); done. }
      specialize (Hmin source HsU). rewrite (inv_src Hinv) in Hmin.
      by apply distance_le_Fin in Hmin.
  - intros y x q Hq [IHvis IHnot] Hlink.
    assert (last q = Some y) as Hlast by apply Hq.
    rewrite (total_latency_snoc net q y x Hlast).
    pose proof (Hnonneg y x) as Hw.
    assert (registered net x) as Hreg.
    { eapply (is_path_registered net source); [done..|]. by eapply is_path_snoc. }
    destruct (decide (y ∈ vis)) as [Hy|Hy].
    + destruct (IHvis Hy) as (dy&Hdy&Hle).
      destruct (inv_edge Hinv y x dy Hy Hdy Hlink) as (dx&Hdx&Hle').
      split.
      * intros _. exists dx. split; [done|lia].
      * intros Hx.
        assert (x ∈ unvisited) as HxU.
        { destruct (proj1 (inv_part Hinv x) Hreg); done. }
        specialize (Hmin x HxU). rewrite Hdx in Hmin.
        apply distance_le_Fin in Hmin. lia.
    + specialize (IHnot Hy). split.
      * intros Hx. destruct (inv_opt Hinv x Hx) as (dx&Hdx&_).
        exists dx. split; [done|].
        pose proof (inv_order Hinv x current dx dc Hx HcU Hdx Hdc). lia.
      * intros _. lia.
Qed.

Lemma improves_dec current unvisited dc distances l v :
  Decision (improves net current unvisited dc distances l v).
Proof. unfold improves. apply _. Defined.

(** One round of the loop keeps the invariant. *)
Lemma invariant_step vis unvisited distances previous current dc distances' previous' :
  invariant net source target vis unvisited distances previous →
  py_min (dist_of distances) distance_ltb unvisited = Some current →
  dist_of distances current = Fin dc →
  current ≠ target →
  foldl (relax net current unvisited) (distances, previous)
    (elements (neighbours net current)) = (distances', previous') →
  invariant net source target (current :: vis) (filter (λ n, n ≠ current) unvisited)
    distances' previous'.
Proof.
  intros Hinv Hmin Hdc Hct Hfold.
  apply py_min_spec in Hmin as [HcU Hmin]. rewrite Hdc in Hmin.
  destruct (relax_fold_spec net current unvisited dc _ (Hnonneg current current)
              _ _ _ _ Hdc Hfold) as [Hdc' Hspec].
  set (imp := improves net current unvisited dc distances
                (elements (neighbours net current))) in *.
  assert (∀ v, Decision (imp v)) as Hdec by (intros v; apply improves_dec).
  assert (current ∉ vis) as Hcvis.
  { intros Hin. by apply (inv_disj Hinv current Hin). }
  destruct (inv_fin Hinv current dc Hdc) as (Hcreg&Hdc0&prc&Hchc&Hhdc&Hpathc&Hlatc&Hndc&Hinc).
  assert (∀ v, imp v → v ∈ unvisited ∧ v ≠ current ∧ link net current v ∧ v ∉ vis)
    as Himp.
  { intros v (Hin&HvU&Hlt). split; [done|]. split; [|split].
    - intros ->. rewrite Hdc in Hlt. apply distance_ltb_Fin in Hlt.
      pose proof (Hnonneg current current). lia.
    - unfold link. by apply elem_of_elements in Hin.
    - intros Hv. by apply (inv_disj Hinv v Hv). }
  assert (∀ v, ¬ imp v → dist_of distances' v = dist_of distances v
                         ∧ previous' !! v = previous !! v) as Hsame.
  { intros v Hv. destruct (proj2 (Hspec v) Hv) as [Hd Hp].
    split; [by apply dist_of_agree|done]. }
  assert (∀ v, v ∈ vis → ¬ imp v) as Hvis.
  { intros v Hv Hi. by destruct (Himp v Hi) as (_&_&_&?). }
  assert (¬ imp current) as Hnc.
  { intros Hi. by destruct (Himp current Hi) as (_&?&_). }
  assert (∀ v, link net current v → v ∈ unvisited → ¬ imp v →
               ∃ dv, dist_of distances v = Fin dv ∧ dv ≤ dc + latency net current v)
    as Hnoimp.
  { intros v Hlink HvU Hno.
    destruct (dist_of distances v) as [dv|] eqn:Hdv.
    - exists dv. split; [done|].
      destruct (decide (dv ≤ dc + latency net current v)); [done|].
      exfalso. apply Hno. split; [by apply elem_of_elements|]. split; [done|].
      rewrite Hdv. apply distance_ltb_Fin. lia.
    - exfalso. apply Hno. split; [by apply elem_of_elements|]. split; [done|].
      by rewrite Hdv. }
  split.
  - (* inv_part *)
    intros n. rewrite elem_of_cons, list_elem_of_filter. split.
    + intros Hn. destruct (proj1 (inv_part Hinv n) Hn) as [?|?]; [by left; right|].
      destruct (decide (n = current)); [by left; left|by right].
    + intros [[->|Hn]|[_ Hn]]; [done|apply (inv_part Hinv); by left
                                |apply (inv_part Hinv); by right].
  - (* inv_disj *)
    intros n Hn. rewrite list_elem_of_filter. intros [Hne HnU].
    apply elem_of_cons in Hn as [->|Hn]; [done|]. by apply (inv_disj Hinv n).
  - (* inv_src *)
    destruct (Hsame source) as [-> _]; [|apply (inv_src Hinv)].
    intros (_&_&Hlt). rewrite (inv_src Hinv) in Hlt. apply distance_ltb_Fin in Hlt.
    pose proof (Hnonneg current source). lia.
  - (* inv_inf *)
    intros n Hn Hinf. destruct (decide (imp n)) as [Hi|Hi].
    + destruct (proj1 (Hspec n) Hi) as [Hd _]. congruence.
    + destruct (Hsame n Hi) as [Hd ->]. apply (inv_inf Hinv); [done|congruence].
  - (* inv_fin *)
    intros v d Hd. destruct (decide (imp v)) as [Hi|Hi].
    + destruct (proj1 (Hspec v) Hi) as [Hd' Hp]. rewrite Hd' in Hd. injection Hd as <-.
      destruct (Himp v Hi) as (HvU&Hvc&Hlink&Hvvis).
      split; [apply (inv_part Hinv); by right|].
      split; [pose proof (Hnonneg current v); lia|].
      exists (v :: prc).
      assert (last (reverse prc) = Some current) as Hlast by (by rewrite last_reverse).
      split; [|split; [done|split; [|split; [|split]]]].
      * destruct prc as [|c' prc']; [done|]. simpl in Hhdc. injection Hhdc as ->.
        split; [done|]. apply (chain_agree previous); [|done].
        intros y Hy. apply Hsame. destruct (Hinc y Hy) as [->|Hyv]; [done|by apply Hvis].
      * rewrite reverse_cons. by eapply is_path_snoc.
      * rewrite reverse_cons, (total_latency_snoc net _ current v Hlast). lia.
      * apply NoDup_cons. split; [|done]. intros Hv.
        destruct (Hinc v Hv) as [?|?]; done.
      * intros y Hy. apply elem_of_cons in Hy as [->|Hy]; [by left|]. right.
        apply elem_of_cons. destruct (Hinc y Hy) as [->|?]; [by left|by right].
    + destruct (Hsame v Hi) as [Hd' Hp]. rewrite Hd' in Hd.
      destruct (inv_fin Hinv v d Hd) as (Hreg&Hd0&pr&Hch&Hhd&Hpath&Hlat&Hnd&Hin).
      split; [done|]. split; [done|]. exists pr.
      split; [|split; [done|split; [done|split; [done|split; [done|]]]]].
      * apply (chain_agree previous); [|done].
        intros y Hy. apply Hsame. destruct (Hin y Hy) as [->|Hyv]; [done|by apply Hvis].
      * intros y Hy. destruct (Hin y Hy) as [->|?]; [by left|].
        right. apply elem_of_cons. by right.
  - (* inv_opt *)
    intros u Hu. apply elem_of_cons in Hu as [->|Hu].
    + exists dc. split; [done|]. intros q Hq.
      by apply (lower_bound vis unvisited distances previous current dc Hinv HcU Hdc Hmin
                  current q Hq).
    + destruct (Hsame u (Hvis u Hu)) as [-> _]. by apply (inv_opt Hinv).
  - (* inv_edge *)
    intros u v du Hu Hdu Hlink. apply elem_of_cons in Hu as [->|Hu].
    + rewrite Hdc' in Hdu. injection Hdu as <-.
      destruct (decide (imp v)) as [Hi|Hi].
      * destruct (proj1 (Hspec v) Hi) as [-> _]. eexists. split; [done|lia].
      * destruct (Hsame v Hi) as [-> _].
        assert (registered net v) as Hreg by (by apply (proj2 Hwf current v)).
        destruct (proj1 (inv_part Hinv v) Hreg) as [Hv|Hv].
        -- destruct (inv_opt Hinv v Hv) as (dv&Hdv&_). exists dv. split; [done|].
           pose proof (inv_order Hinv v current dv dc Hv HcU Hdv Hdc).
           pose proof (Hnonneg current v). lia.
        -- by apply Hnoimp.
    + destruct (Hsame u (Hvis u Hu)) as [Hdu' _]. rewrite Hdu' in Hdu.
      destruct (inv_edge Hinv u v du Hu Hdu Hlink) as (dv&Hdv&Hle).
      destruct (decide (imp v)) as [Hi|Hi].
      * destruct (proj1 (Hspec v) Hi) as [-> _]. eexists. split; [done|].
        destruct Hi as (_&_&Hlt). rewrite Hdv in Hlt. apply distance_ltb_Fin in Hlt. lia.
      * destruct (Hsame v Hi) as [-> _]. by exists dv.
  - (* inv_order *)
    intros u v du dv Hu Hv Hdu Hdv.
    apply list_elem_of_filter in Hv as [Hvc HvU].
    assert (dc ≤ dv) as Hcv.
    { destruct (decide (imp v)) as [Hi|Hi].
      - destruct (proj1 (Hspec v) Hi) as [Hd _]. rewrite Hd in Hdv. injection Hdv as <-.
        pose proof (Hnonneg current v). lia.
      - destruct (Hsame v Hi) as [Hd _]. rewrite Hd in Hdv.
        specialize (Hmin v HvU). rewrite Hdv in Hmin. by apply distance_le_Fin in Hmin. }
    apply elem_of_cons in Hu as [->|Hu].
    + rewrite Hdc' in Hdu. injection Hdu as <-. done.
    + destruct (Hsame u (Hvis u Hu)) as [Hd _]. rewrite Hd in Hdu.
      pose proof (inv_order Hinv u current du dc Hu HcU Hdu Hdc). lia.
  - (* inv_tgt *)
    intros Hin. apply elem_of_cons in Hin as [?|?]; [done|]. by apply (inv_tgt Hinv).
Qed.

(** When every unvisited node is at distance infinity, the visited nodes
    are all that can be reached. *)
Lemma visited_closed vis unvisited distances previous :
  invariant net source target vis unvisited distances previous →
  (∀ x, x ∈ unvisited → dist_of distances x = Inf) →
  ∀ x q, is_path net source x q → x ∈ vis.
Proof.
  intros Hinv Hinf.
  assert (∀ x, registered net x → is_Some (match dist_of distances x with
                                            | Fin d => Some d | Inf => None end) →
               x ∈ vis) as Hfin.
  { intros x Hreg Hsome. destruct (proj1 (inv_part Hinv x) Hreg) as [?|HxU]; [done|].
    rewrite (Hinf x HxU) in Hsome. by destruct Hsome. }
  apply (is_path_ind net source (λ x _, x ∈ vis)).
  - apply Hfin; [done|]. by rewrite (inv_src Hinv).
  - intros y x q _ Hy Hlink.
    destruct (inv_opt Hinv y Hy) as (dy&Hdy&_).
    destruct (inv_edge Hinv y x dy Hy Hdy Hlink) as (dx&Hdx&_).
    apply Hfin; [by apply (proj2 Hwf y x)|]. by rewrite Hdx.
Qed.

(** The loop ends, and with the outcome wanted. *)
Lemma dijkstra_loop_outcome fuel : ∀ vis unvisited distances previous distances' previous',
  invariant net source target vis unvisited distances previous →
  (length unvisited ≤ fuel)%nat →
  dijkstra_loop net target fuel distances previous unvisited = (distances', previous') →
  outcome net source target previous'.
Proof.
  induction fuel as [|fuel IH];
    intros vis unvisited distances previous distances' previous' Hinv Hlen Hloop.
  { (* no round left: [unvisited] is empty, yet the target is in it *)
    exfalso. destruct unvisited; [|simpl in Hlen; lia].
    destruct (proj1 (inv_part Hinv target) Htarget) as [Hin|Hin].
    - by apply (inv_tgt Hinv).
    - by apply elem_of_nil in Hin. }
  assert (target ∈ unvisited) as HtU.
  { destruct (proj1 (inv_part Hinv target) Htarget) as [Hin|Hin]; [|done].
    by destruct (inv_tgt Hinv). }
  cbn [dijkstra_loop] in Hloop.
  destruct (py_min (dist_of distances) distance_ltb unvisited) as [current|] eqn:Hmin.
  2:{ apply py_min_None in Hmin. subst unvisited. by apply elem_of_nil in HtU. }
  pose proof (py_min_spec _ _ _ Hmin) as [HcU Hle].
  destruct (dist_of distances current) as [dc|] eqn:Hdc.
  - destruct (decide (current = target)) as [->|Hct].
    + (* the target is the unvisited minimum *)
      injection Hloop as <- <-. right.
      destruct (inv_fin Hinv target dc Hdc) as (_&_&pr&Hch&Hhd&Hpath&Hlat&Hnd&Hin).
      exists pr. split; [done|]. split; [done|]. split; [done|]. split; [done|]. split.
      * intros y Hy. destruct (Hin y Hy) as [->|Hv]; [done|].
        apply (inv_part Hinv). by left.
      * intros q Hq. rewrite Hlat.
        apply (lower_bound vis unvisited distances previous target dc Hinv HtU Hdc Hle
                 target q Hq).
        apply (inv_tgt Hinv).
    + (* one more round *)
      destruct (foldl (relax net current unvisited) (distances, previous)
                  (elements (neighbours net current))) as [distances1 previous1] eqn:Hfold.
      eapply (IH (current :: vis)); [| |exact Hloop].
      * by eapply invariant_step.
      * assert (length (filter (λ n, n ≠ current) unvisited) < length unvisited)%nat;
          [|lia].
        eapply (length_filter_lt _ _ current); [done|]. by intros Hne.
  - (* every unvisited node is out of reach *)
    injection Hloop as <- <-. left.
    assert (∀ x, x ∈ unvisited → dist_of distances x = Inf) as Hinf.
    { intros x HxU. specialize (Hle x HxU). unfold distance_le in Hle.
      by destruct (dist_of distances x). }
    split.
    + apply (inv_inf Hinv); [done|by apply Hinf].
    + intros [q Hq]. apply (inv_tgt Hinv).
      by apply (visited_closed vis unvisited distances previous Hinv Hinf target q).
Qed.

(** The invariant holds when the loop is entered. *)
Lemma invariant_init order :
  order ≡ₚ odict.keys (nodes net) →
  invariant net source target [] order
    (<[source := Fin 0]> (list_to_map ((λ n, (n, Inf)) <$> odict.keys (nodes net))))
    (list_to_map ((λ n, (n, None)) <$> odict.keys (nodes net))).
Proof.
  intros Hperm. split.
  - intros n. unfold registered. rewrite <- Hperm. split; [by right|].
    intros [Hn|Hn]; [by apply elem_of_nil in Hn|done].
  - intros n Hn. by apply elem_of_nil in Hn.
  - apply dist_of_insert_eq.
  - intros n Hn _. by apply initial_previous.
  - intros v d Hd. destruct (decide (source = v)) as [<-|Hne].
    + rewrite dist_of_insert_eq in Hd. injection Hd as <-.
      split; [done|]. split; [done|]. exists [source].
      split; [by apply initial_previous|]. split; [done|].
      split; [apply is_path_refl|]. split; [done|].
      split; [apply NoDup_singleton|].
      intros y Hy. left. by apply list_elem_of_singleton in Hy.
    + rewrite dist_of_insert_ne, initial_distance in Hd by done. done.
  - intros u Hu. by apply elem_of_nil in Hu.
  - intros u v du Hu. by apply elem_of_nil in Hu.
  - intros u v du dv Hu. by apply elem_of_nil in Hu.
  - intros Hin. by apply elem_of_nil in Hin.
Qed.

End dijkstra.

(** *** [find_best_path] *)
Section find_best_path.
  Import MeshNetworkLayer PathSpec.

  Local Open Scope Z_scope.

Lemma odict_mem_registered net n : odict.mem n (nodes net) = true ↔ registered net n.
Proof. unfold odict.mem, registered. apply bool_decide_eq_true. Qed.

Lemma total_latency_nonneg net p : nonneg_latencies net → 0 ≤ total_latency net p.
Proof.
  intros Hnn. induction p as [|a [|b p] IH]; [done..|].
  change (total_latency net (a :: b :: p))
    with (latency net a b + total_latency net (b :: p)).
  pose proof (Hnn a b). lia.
Qed.

(** An unknown endpoint gives the empty list. *)
Lemma find_best_path_unknown_endpoint order net source target :
  ¬ registered net source ∨ ¬ registered net target →
  find_best_path_in order net source target = Ok [].
Proof.
  intros Hun. unfold find_best_path_in.
  destruct (odict.mem source (nodes net)) eqn:Hs; [|done].
  destruct (odict.mem target (nodes net)) eqn:Ht; [|done].
  apply odict_mem_registered in Hs, Ht. by destruct Hun.
Qed.

(** Two distinct registered nodes: either the target cannot be reached and
    the result is the list holding the target alone, or the result is a
    shortest path. *)
Lemma find_best_path_in_outcome order net source target :
  wf net → nonneg_latencies net →
  order ≡ₚ odict.keys (nodes net) →
  registered net source → registered net target → source ≠ target →
  (¬ reachable net source target
   ∧ find_best_path_in order net source target = Ok [target])
  ∨ (∃ p, find_best_path_in order net source target = Ok p
          ∧ is_path net source target p
          ∧ ∀ q, is_path net source target q →
                 total_latency net p ≤ total_latency net q).
Proof.
  intros Hwf Hnn Hperm Hs Ht Hne. unfold find_best_path_in.
  rewrite (proj2 (odict_mem_registered net source) Hs).
  rewrite (proj2 (odict_mem_registered net target) Ht). cbn [negb orb].
  rewrite decide_False by done.
  destruct (dijkstra_loop _ _ _ _ _ _) as [distances' previous'] eqn:Hloop.
  pose proof (dijkstra_loop_outcome net source target Hwf Hnn Hs Ht (length order)
                [] order _ _ distances' previous'
                (invariant_init net source target Hs order Hperm)
                (le_n _) Hloop) as [[Hprev Hun]|(pr&Hch&Hhd&Hpath&Hnd&Hreg&Hopt)].
  - left. split; [done|].
    rewrite (reconstruct_step _ _ _ _ _ Hprev).
    by destruct (length (odict.keys (nodes net))).
  - right. exists (reverse pr).
    rewrite (reconstruct_chain previous' pr (length (odict.keys (nodes net))) target []
               Hch Hhd).
    + done.
    + apply submseteq_length. by apply NoDup_submseteq.
Qed.

(** The target cannot be reached: the result is not empty. *)
Lemma find_best_path_unreachable order net source target :
  wf net → nonneg_latencies net →
  order ≡ₚ odict.keys (nodes net) →
  registered net source → registered net target → source ≠ target →
  ¬ reachable net source target →
  find_best_path_in order net source target = Ok [target].
Proof.
  intros Hwf Hnn Hperm Hs Ht Hne Hun.
  destruct (find_best_path_in_outcome order net source target Hwf Hnn Hperm Hs Ht Hne)
    as [[_ ?]|(p&_&Hp&_)]; [done|].
  destruct Hun. by exists p.
Qed.

(** C6: in a mesh with non-negative latencies, for a registered source from
    which the target can be reached, [find_best_path] returns a list that
    starts at the source, ends at the target, whose consecutive entries are
    recorded links, and whose total latency is at most that of every such
    list; this for every iteration order of the set [unvisited]. *)
Theorem find_best_path_is_shortest order net source target :
  wf net → nonneg_latencies net →
  order ≡ₚ odict.keys (nodes net) →
  registered net source →
  reachable net source target →
  ∃ p, find_best_path_in order net source target = Ok p
       ∧ head p = Some source ∧ last p = Some target ∧ links_ok net p
       ∧ ∀ q, is_path net source target q →
              total_latency net p ≤ total_latency net q.
Proof.
  intros Hwf Hnn Hperm Hs [q0 Hq0].
  assert (registered net target) as Ht by (by eapply is_path_registered).
  destruct (decide (source = target)) as [<-|Hne].
  - exists [source]. split.
    + unfold find_best_path_in.
      rewrite (proj2 (odict_mem_registered net source) Hs). simpl.
      by rewrite decide_True.
    + repeat split. intros q _. by apply total_latency_nonneg.
  - destruct (find_best_path_in_outcome order net source target Hwf Hnn Hperm Hs Ht Hne)
      as [[Hun _]|(p&Hrun&(?&?&?)&Hopt)].
    + destruct Hun. by exists q0.
    + by exists p.
Qed.

End find_best_path.

(** *** Meshes built through [add_node] and [connect_nodes] *)
Section built_meshes.
  Import MeshNetworkLayer PathSpec.

  Local Open Scope Z_scope.

Lemma odict_keys_set_new {V} k (v : V) d :
  odict.mem k d = false → odict.keys (odict.set k v d) = odict.keys d ++ [k].
Proof.
  unfold odict.mem, odict.keys. rewrite bool_decide_eq_false.
  induction d as [|[k' v'] d IH]; intros Hk; [done|]. simpl.
  destruct (decide (k' = k)) as [->|Hne].
  - exfalso. apply Hk. simpl. apply elem_of_cons. by left.
  - simpl. f_equal. apply IH. intros Hin. apply Hk. simpl. apply elem_of_cons. by right.
Qed.

Lemma link_init u v : ¬ link init u v.
Proof.
  unfold link, neighbours. simpl. rewrite lookup_empty. simpl. apply not_elem_of_empty.
Qed.

Lemma link_add_node net node u v : link (add_node net node).1 u v → link net u v.
Proof.
  unfold add_node. destruct (odict.mem _ _); [done|]. simpl.
  unfold link, neighbours. simpl.
  destruct (decide (MeshNode.node_id node = u)) as [->|Hne].
  - rewrite lookup_insert_eq. simpl. intros Hin. by apply not_elem_of_empty in Hin.
  - by rewrite lookup_insert_ne.
Qed.

Lemma registered_add_node net node n :
  registered net n → registered (add_node net node).1 n.
Proof.
  unfold add_node. destruct (odict.mem _ _) eqn:Hmem; [done|]. simpl.
  unfold registered. simpl. rewrite (odict_keys_set_new _ _ _ Hmem).
  intros Hn. apply elem_of_app. by left.
Qed.

Lemma wf_init : wf init.
Proof.
  split; [apply NoDup_nil_2|]. intros u v Hlink. by apply link_init in Hlink.
Qed.

Lemma wf_add_node net node : wf net → wf (add_node net node).1.
Proof.
  intros [Hnd Hlinks]. split.
  - unfold add_node. destruct (odict.mem _ _) eqn:Hmem; [done|]. simpl.
    rewrite (odict_keys_set_new _ _ _ Hmem). apply NoDup_app. split; [done|].
    split; [|apply NoDup_singleton].
    intros x Hx Hx'. apply list_elem_of_singleton in Hx' as ->.
    unfold odict.mem in Hmem. by apply bool_decide_eq_false in Hmem.
  - intros u v Hlink. apply link_add_node in Hlink.
    destruct (Hlinks u v Hlink). split; by apply registered_add_node.
Qed.

(** What [connect_nodes] returns, when it returns. *)
Lemma connect_nodes_spec net a b latency_ms bandwidth_mbps w net' ok w' :
  connect_nodes net a b latency_ms bandwidth_mbps w = Ok (net', ok, w') →
  nodes net' = nodes net
  ∧ (ok = false → net' = net)
  ∧ (ok = true →
     registered net a ∧ registered net b
     ∧ network_latencies net'
       = <[(b, a) := latency_ms]> (<[(a, b) := latency_ms]> (network_latencies net))
     ∧ ∀ u v, link net' u v ↔ link net u v ∨ (u = a ∧ v = b) ∨ (u = b ∧ v = a)).
Proof.
  unfold connect_nodes.
  destruct (odict.mem a (nodes net)) eqn:Ha; simpl.
  2:{ intros [= <- <- _]. done. }
  destruct (odict.mem b (nodes net)) eqn:Hb; simpl.
  2:{ intros [= <- <- _]. done. }
  bind_step. unfold getitem at 1.
  destruct (node_graph net !! a) as [adj_a|] eqn:Hga; [|done]. simpl.
  bind_step. unfold getitem at 1.
  destruct (<[a := adj_a ∪ {[b]}]> (node_graph net) !! b) as [adj_b|] eqn:Hgb; [|done].
  simpl. intros [= <- <- _]. simpl. split; [done|]. split; [done|]. intros _.
  split; [by apply odict_mem_registered|]. split; [by apply odict_mem_registered|].
  split; [done|].
  intros u v. unfold link, neighbours. simpl.
  destruct (decide (b = u)) as [<-|Hbu].
  - rewrite lookup_insert_eq. simpl.
    destruct (decide (a = b)) as [->|Hab].
    + rewrite lookup_insert_eq in Hgb. injection Hgb as <-. rewrite Hga. simpl.
      set_solver.
    + rewrite lookup_insert_ne in Hgb by done. rewrite Hgb. simpl. set_solver.
  - rewrite lookup_insert_ne by done.
    destruct (decide (a = u)) as [<-|Hau].
    + rewrite lookup_insert_eq, Hga. simpl. set_solver.
    + rewrite lookup_insert_ne by done. set_solver.
Qed.

Lemma wf_connect_nodes net a b latency_ms bandwidth_mbps w net' ok w' :
  wf net →
  connect_nodes net a b latency_ms bandwidth_mbps w = Ok (net', ok, w') →
  wf net'.
Proof.
  intros [Hnd Hlinks] Hrun.
  destruct (connect_nodes_spec _ _ _ _ _ _ _ _ _ Hrun) as (Hnodes&Hfalse&Htrue).
  destruct ok; [|by rewrite Hfalse].
  destruct Htrue as (Ha&Hb&_&Hlink); [done|].
  split; [by rewrite Hnodes|].
  intros u v Huv. unfold registered. rewrite Hnodes.
  apply Hlink in Huv as [Huv|[[-> ->]|[-> ->]]]; [by apply Hlinks|done..].
Qed.

Lemma nonneg_init : nonneg_latencies init.
Proof. intros u v. unfold latency. simpl. by rewrite lookup_empty. Qed.

Lemma nonneg_add_node net node :
  nonneg_latencies net → nonneg_latencies (add_node net node).1.
Proof. unfold add_node. by destruct (odict.mem _ _). Qed.

Lemma nonneg_connect_nodes net a b latency_ms bandwidth_mbps w net' ok w' :
  nonneg_latencies net → 0 ≤ latency_ms →
  connect_nodes net a b latency_ms bandwidth_mbps w = Ok (net', ok, w') →
  nonneg_latencies net'.
Proof.
  intros Hnn Hlat Hrun.
  destruct (connect_nodes_spec _ _ _ _ _ _ _ _ _ Hrun) as (_&Hfalse&Htrue).
  destruct ok; [|by rewrite Hfalse].
  destruct Htrue as (_&_&Hl&_); [done|].
  intros u v. unfold latency. rewrite Hl.
  destruct (decide ((b, a) = (u, v))) as [<-|Hne1]; [by rewrite lookup_insert_eq|].
  rewrite lookup_insert_ne by done.
  destruct (decide ((a, b) = (u, v))) as [<-|Hne2]; [by rewrite lookup_insert_eq|].
  rewrite lookup_insert_ne by done. apply Hnn.
Qed.

Lemma wf_connect net a b latency_ms : wf net → wf (connect net a b latency_ms).
Proof.
  intros Hwf. unfold connect.
  destruct (connect_nodes _ _ _ _ _ _) as [[[net' ok] w']| |] eqn:Hrun; [|done..].
  by eapply wf_connect_nodes.
Qed.

Lemma nonneg_connect net a b latency_ms :
  nonneg_latencies net → 0 ≤ latency_ms → nonneg_latencies (connect net a b latency_ms).
Proof.
  intros Hnn Hlat. unfold connect.
  destruct (connect_nodes _ _ _ _ _ _) as [[[net' ok] w']| |] eqn:Hrun; [|done..].
  by eapply nonneg_connect_nodes.
Qed.

Lemma wf_fixture_network : wf Fixture.network.
Proof. repeat apply wf_add_node. apply wf_init. Qed.

Lemma nonneg_fixture_network : nonneg_latencies Fixture.network.
Proof. repeat apply nonneg_add_node. apply nonneg_init. Qed.

Lemma fixture_network_has_no_link u v : ¬ link Fixture.network u v.
Proof.
  intros Hlink. do 3 apply link_add_node in Hlink. by apply link_init in Hlink.
Qed.

Lemma wf_triangle : wf triangle.
Proof. repeat apply wf_connect. apply wf_fixture_network. Qed.

Lemma nonneg_triangle : nonneg_latencies triangle.
Proof. repeat (apply nonneg_connect; [|lia]). apply nonneg_fixture_network. Qed.

End built_meshes.

(** *** Concrete meshes *)
Section path_checks.
  Import MeshNetworkLayer PathSpec.

  Local Open Scope string_scope.

Lemma find_best_path_is_shortest_witness :
  ∃ p, find_best_path_in (odict.keys (nodes triangle)) triangle "local_1" "cloud_1" = Ok p
       ∧ head p = Some "local_1" ∧ last p = Some "cloud_1" ∧ links_ok triangle p
       ∧ ∀ q, is_path triangle "local_1" "cloud_1" q →
              (total_latency triangle p ≤ total_latency triangle q)%Z.
Proof.
  apply (find_best_path_is_shortest (odict.keys (nodes triangle)) triangle
           "local_1" "cloud_1").
  - apply wf_triangle.
  - apply nonneg_triangle.
  - reflexivity.
  - vm_compute. apply elem_of_cons. left. reflexivity.
  - exists ["local_1"; "cloud_1"]. split; [reflexivity|]. split; [reflexivity|].
    split; [|exact I]. unfold link. apply (bool_decide_unpack _). vm_compute. exact I.
Defined.

(** In the triangle the two-hop route of latency 150 is preferred to the
    direct link of latency 200, in whatever order the set is iterated. *)
Example find_best_path_triangle order :
  order ≡ₚ odict.keys (nodes triangle) →
  find_best_path_in order triangle "local_1" "cloud_1"
  = Ok ["local_1"; "edge_1"; "cloud_1"]
  ∧ total_latency triangle ["local_1"; "edge_1"; "cloud_1"] = 150%Z
  ∧ total_latency triangle ["local_1"; "cloud_1"] = 200%Z.
Proof.
  intros Hperm. split; [|split; vm_compute; reflexivity].
  symmetry in Hperm. apply permutations_Permutation in Hperm.
  assert (odict.keys (nodes triangle) = ["local_1"; "edge_1"; "cloud_1"]) as Hkeys
    by (vm_compute; reflexivity).
  rewrite Hkeys in Hperm. cbn in Hperm.
  repeat (apply elem_of_cons in Hperm as [->|Hperm]; [vm_compute; reflexivity|]).
  by apply elem_of_nil in Hperm.
Qed.

(** C2, at two registered nodes that no link joins: [find_best_path] returns
    the list holding the target alone, not the empty list, in whatever order
    the set [unvisited] is iterated. *)
Theorem find_best_path_without_path_returns_target order :
  order ≡ₚ odict.keys (nodes Fixture.network) →
  registered Fixture.network "local_1"
  ∧ registered Fixture.network "cloud_1"
  ∧ ¬ reachable Fixture.network "local_1" "cloud_1"
  ∧ find_best_path_in order Fixture.network "local_1" "cloud_1" = Ok ["cloud_1"].
Proof.
  intros Hperm.
  assert (registered Fixture.network "local_1") as Hsource
    by (unfold registered; apply (bool_decide_unpack _); vm_compute; exact I).
  assert (registered Fixture.network "cloud_1") as Htarget
    by (unfold registered; apply (bool_decide_unpack _); vm_compute; exact I).
  assert (¬ reachable Fixture.network "local_1" "cloud_1") as Hunreachable.
  { intros [q Hq].
    destruct (is_path_inv _ _ _ _ Hq) as [[_ [=]]|(q'&x&_&_&Hlink)].
    by apply fixture_network_has_no_link in Hlink. }
  split; [exact Hsource|]. split; [exact Htarget|]. split; [exact Hunreachable|].
  apply find_best_path_unreachable;
    [apply wf_fixture_network|apply nonneg_fixture_network|exact Hperm|exact Hsource
    |exact Htarget|discriminate|exact Hunreachable].
Qed.

Lemma find_best_path_without_path_returns_target_witness :
  registered Fixture.network "local_1"
  ∧ registered Fixture.network "cloud_1"
  ∧ ¬ reachable Fixture.network "local_1" "cloud_1"
  ∧ find_best_path_in ["cloud_1"; "local_1"; "edge_1"] Fixture.network
      "local_1" "cloud_1" = Ok ["cloud_1"].
Proof.
  apply (find_best_path_without_path_returns_target ["cloud_1"; "local_1"; "edge_1"]).
  assert (odict.keys (nodes Fixture.network) = ["local_1"; "edge_1"; "cloud_1"]) as ->
    by (vm_compute; reflexivity).
  apply (Permutation_cons_app ["local_1"; "edge_1"] [] "cloud_1"). reflexivity.
Defined.

End path_checks.

(** * Further properties *)

(** ** Networks built through [add_node] and [connect_nodes] *)
Section built_networks.
  Import MeshNetworkLayer PathSpec MeshSpec.

  Local Open Scope Z_scope.

Lemma graph_keyed_add_node net node : graph_keyed net → graph_keyed (add_node net node).1.
Proof.
  intros Hk n. unfold add_node.
  destruct (odict.mem _ _) eqn:Hmem; [apply Hk|]. simpl.
  unfold registered. simpl. rewrite (odict_keys_set_new _ _ _ Hmem).
  rewrite elem_of_app, list_elem_of_singleton.
  destruct (decide (MeshNode.node_id node = n)) as [->|Hne].
  - rewrite lookup_insert_eq. split; [by eexists|by right].
  - rewrite lookup_insert_ne by done. rewrite <- (Hk n). unfold registered.
    split; [intros [?|?]; [done|congruence]|by left].
Qed.

(** On a network whose adjacency dict has a key per registered node,
    [connect_nodes] raises nothing, leaves the world alone, and succeeds
    exactly when both endpoints are registered. *)
Lemma connect_nodes_total net a b latency_ms bandwidth_mbps w :
  graph_keyed net →
  ∃ net' ok,
    connect_nodes net a b latency_ms bandwidth_mbps w = Ok (net', ok, w)
    ∧ (ok = true ↔ registered net a ∧ registered net b).
Proof.
  intros Hk. unfold connect_nodes.
  destruct (odict.mem a (nodes net)) eqn:Ha; simpl.
  2:{ eexists _, _. split; [done|]. split; [done|]. intros [Hra _].
      apply odict_mem_registered in Hra. congruence. }
  destruct (odict.mem b (nodes net)) eqn:Hb; simpl.
  2:{ eexists _, _. split; [done|]. split; [done|]. intros [_ Hrb].
      apply odict_mem_registered in Hrb. congruence. }
  apply odict_mem_registered in Ha, Hb.
  destruct (proj1 (Hk a) Ha) as [adj_a Hga].
  bind_step. unfold getitem at 1. rewrite Hga. simpl.
  assert (is_Some (<[a := adj_a ∪ {[b]}]> (node_graph net) !! b)) as [adj_b Hgb].
  { destruct (decide (a = b)) as [->|Hne].
    - rewrite lookup_insert_eq. by eexists.
    - rewrite lookup_insert_ne by done. by apply Hk. }
  bind_step. unfold getitem at 1. rewrite Hgb. simpl.
  eexists _, _. split; [done|]. done.
Qed.

Lemma graph_keyed_connect_nodes net a b latency_ms bandwidth_mbps w net' ok w' :
  graph_keyed net →
  connect_nodes net a b latency_ms bandwidth_mbps w = Ok (net', ok, w') →
  graph_keyed net'.
Proof.
  intros Hk Hrun. pose proof Hrun as Hrun0. revert Hrun. unfold connect_nodes.
  destruct (odict.mem a (nodes net)) eqn:Ha; simpl; [|by intros [= <- _ _]].
  destruct (odict.mem b (nodes net)) eqn:Hb; simpl; [|by intros [= <- _ _]].
  apply odict_mem_registered in Ha, Hb.
  bind_step. unfold getitem at 1.
  destruct (node_graph net !! a) as [adj_a|] eqn:Hga; [|done]. simpl.
  bind_step. unfold getitem at 1.
  destruct (<[a := adj_a ∪ {[b]}]> (node_graph net) !! b) as [adj_b|] eqn:Hgb; [|done].
  simpl. intros [= <- _ _]. intros n. unfold registered. simpl.
  destruct (decide (b = n)) as [<-|Hbn]; [rewrite lookup_insert_eq; by split|].
  rewrite lookup_insert_ne by done.
  destruct (decide (a = n)) as [<-|Han]; [rewrite lookup_insert_eq; by split|].
  rewrite lookup_insert_ne by done. apply Hk.
Qed.

Lemma odict_set_new {V} k (v : V) d :
  odict.mem k d = false → odict.set k v d = d ++ [(k, v)].
Proof.
  unfold odict.mem, odict.keys. rewrite bool_decide_eq_false.
  induction d as [|[k' v'] d IH]; intros Hk; [done|]. simpl.
  destruct (decide (k' = k)) as [->|Hne].
  - exfalso. apply Hk. simpl. apply elem_of_cons. by left.
  - f_equal. apply IH. intros Hin. apply Hk. simpl. apply elem_of_cons. by right.
Qed.

Lemma keyed_add_node net node : keyed net → keyed (add_node net node).1.
Proof.
  intros Hk k n. unfold add_node.
  destruct (odict.mem _ _) eqn:Hmem; [apply Hk|]. simpl.
  rewrite (odict_set_new _ _ _ Hmem), elem_of_app, list_elem_of_singleton.
  intros [Hin|[= -> ->]]; [by apply Hk|done].
Qed.

Lemma symmetric_init : symmetric init.
Proof.
  split; [|split].
  - intros u v Hl. by apply link_init in Hl.
  - intros u v. simpl. by rewrite !lookup_empty.
  - intros u v. simpl. rewrite lookup_empty. split.
    + intros Hl. by apply link_init in Hl.
    + by intros [? [=]].
Qed.

Lemma link_add_node_iff net node u v :
  graph_keyed net → link (add_node net node).1 u v ↔ link net u v.
Proof.
  intros Hk. split; [apply link_add_node|].
  unfold add_node. destruct (odict.mem _ _) eqn:Hmem; [done|]. simpl.
  unfold link, neighbours. simpl.
  destruct (decide (MeshNode.node_id node = u)) as [<-|Hne].
  - assert (node_graph net !! MeshNode.node_id node = None) as ->; [|simpl; set_solver].
    apply eq_None_not_Some. intros Hs. apply Hk in Hs.
    apply odict_mem_registered in Hs. congruence.
  - by rewrite lookup_insert_ne.
Qed.

Lemma symmetric_add_node net node :
  graph_keyed net → symmetric net → symmetric (add_node net node).1.
Proof.
  intros Hk (Hl&Hlat&Hrec). split; [|split].
  - intros u v. rewrite !link_add_node_iff by done. apply Hl.
  - intros u v. unfold add_node. destruct (odict.mem _ _); apply Hlat.
  - intros u v. rewrite link_add_node_iff by done.
    unfold add_node. destruct (odict.mem _ _); apply Hrec.
Qed.

Lemma symmetric_connect_nodes net a b latency_ms bandwidth_mbps w net' ok w' :
  symmetric net →
  connect_nodes net a b latency_ms bandwidth_mbps w = Ok (net', ok, w') →
  symmetric net'.
Proof.
  intros (Hl&Hlat&Hrec) Hrun.
  destruct (connect_nodes_spec _ _ _ _ _ _ _ _ _ Hrun) as (_&Hfalse&Htrue).
  destruct ok; [|by rewrite Hfalse].
  destruct Htrue as (_&_&Hlats&Hlink); [done|].
  assert (∀ u v, network_latencies net' !! (u, v)
                 = if decide ((u, v) = (a, b) ∨ (u, v) = (b, a)) then Some latency_ms
                   else network_latencies net !! (u, v)) as Hlookup.
  { intros u v. rewrite Hlats.
    destruct (decide ((b, a) = (u, v))) as [<-|Hne1].
    { rewrite lookup_insert_eq. by rewrite decide_True by (by right). }
    rewrite lookup_insert_ne by done.
    destruct (decide ((a, b) = (u, v))) as [<-|Hne2].
    { rewrite lookup_insert_eq. by rewrite decide_True by (by left). }
    rewrite lookup_insert_ne by done.
    rewrite decide_False; [done|]. intros [?|?]; congruence. }
  split; [|split].
  - intros u v. rewrite !Hlink. intros [?|[[-> ->]|[-> ->]]]; [left; by apply Hl|tauto..].
  - intros u v. rewrite !Hlookup.
    destruct (decide ((u, v) = (a, b) ∨ (u, v) = (b, a))) as [Huv|Huv].
    + rewrite decide_True; [done|]. destruct Huv as [[= -> ->]|[= -> ->]]; tauto.
    + rewrite decide_False; [apply Hlat|].
      intros [[= -> ->]|[= -> ->]]; apply Huv; tauto.
  - intros u v. rewrite Hlink, Hlookup.
    destruct (decide ((u, v) = (a, b) ∨ (u, v) = (b, a))) as [Huv|Huv].
    + split; [by eexists|]. intros _.
      destruct Huv as [[= -> ->]|[= -> ->]]; tauto.
    + rewrite <- Hrec. split; [|tauto].
      intros [?|[[-> ->]|[-> ->]]]; [done|exfalso; apply Huv; tauto..].
Qed.

Lemma built_graph_keyed net : built net → graph_keyed net.
Proof.
  induction 1 as [|net node _ IH|net a b l bw w net' ok w' _ IH Hrun].
  - intros n. unfold registered. simpl. rewrite lookup_empty. split.
    + intros Hin. by apply elem_of_nil in Hin.
    + by intros [? [=]].
  - by apply graph_keyed_add_node.
  - by eapply graph_keyed_connect_nodes.
Qed.

Lemma built_symmetric net : built net → symmetric net.
Proof.
  induction 1 as [|net node Hb IH|net a b l bw w net' ok w' _ IH Hrun].
  - apply symmetric_init.
  - apply symmetric_add_node; [by apply built_graph_keyed|done].
  - by eapply symmetric_connect_nodes.
Qed.

(** X1: every network built from the empty one by [add_node] and
    [connect_nodes] has distinct registry keys, stores each node under its
    own id, has an adjacency entry for exactly the registered nodes, links
    only registered nodes, and records links and latencies symmetrically,
    a latency for exactly the linked pairs. *)
Theorem built_network_invariant net :
  built net →
  wf net ∧ keyed net ∧ graph_keyed net ∧ symmetric net.
Proof.
  induction 1 as [|net node _ (Hwf&Hkeyed&Hgk&Hsym)
                  |net a b l bw w net' ok w' _ (Hwf&Hkeyed&Hgk&Hsym) Hrun].
  - split; [apply wf_init|]. split; [|split; [|apply symmetric_init]].
    + intros k n Hin. by apply elem_of_nil in Hin.
    + intros n. unfold registered. simpl. rewrite lookup_empty. split.
      * intros Hin. by apply elem_of_nil in Hin.
      * by intros [? [=]].
  - split; [by apply wf_add_node|]. split; [by apply keyed_add_node|].
    split; [by apply graph_keyed_add_node|by apply symmetric_add_node].
  - destruct (connect_nodes_spec _ _ _ _ _ _ _ _ _ Hrun) as (Hnodes&_).
    split; [by eapply wf_connect_nodes|]. split; [|split].
    + intros k n. rewrite Hnodes. apply Hkeyed.
    + by eapply graph_keyed_connect_nodes.
    + by eapply symmetric_connect_nodes.
Qed.

Lemma built_connect net a b latency_ms : built net → built (connect net a b latency_ms).
Proof.
  intros Hb. unfold connect.
  destruct (connect_nodes _ _ _ _ _ _) as [[[net' ok] w']| |] eqn:Hrun; [|done..].
  by eapply built_connect_nodes.
Qed.

Lemma built_triangle : built triangle.
Proof. repeat apply built_connect. repeat apply built_add_node. apply built_init. Qed.

Lemma built_network_invariant_witness :
  wf triangle ∧ keyed triangle ∧ graph_keyed triangle ∧ symmetric triangle.
Proof. apply (built_network_invariant triangle). apply built_triangle. Defined.

(** X2: on a built network [connect_nodes] never raises and reads neither
    clock nor uuid; it returns [True] exactly when both endpoints are
    registered, otherwise it leaves the network as it is; on success the
    registry is unchanged, the latency given is the one recorded in both
    directions (replacing an earlier one), and the links are the old ones
    plus the two between the endpoints. *)
Theorem connect_nodes_on_built_network net a b latency_ms bandwidth_mbps w :
  built net →
  ∃ net' ok,
    connect_nodes net a b latency_ms bandwidth_mbps w = Ok (net', ok, w)
    ∧ (ok = true ↔ registered net a ∧ registered net b)
    ∧ (ok = false → net' = net)
    ∧ (ok = true →
       nodes net' = nodes net
       ∧ latency net' a b = latency_ms ∧ latency net' b a = latency_ms
       ∧ (∀ u v, (u, v) ≠ (a, b) → (u, v) ≠ (b, a) → latency net' u v = latency net u v)
       ∧ ∀ u v, link net' u v ↔ link net u v ∨ (u = a ∧ v = b) ∨ (u = b ∧ v = a)).
Proof.
  intros Hb. pose proof (built_graph_keyed net Hb) as Hgk.
  destruct (connect_nodes_total net a b latency_ms bandwidth_mbps w Hgk)
    as (net'&ok&Hrun&Hok).
  exists net', ok. split; [done|]. split; [done|].
  destruct (connect_nodes_spec _ _ _ _ _ _ _ _ _ Hrun) as (Hnodes&Hfalse&Htrue).
  split; [done|]. intros Hyes.
  destruct (Htrue Hyes) as (_&_&Hlat&Hlink).
  split; [done|]. unfold latency. rewrite Hlat. split; [|split; [|split; [|done]]].
  - destruct (decide ((b, a) = (a, b))) as [Heq|Hne].
    + rewrite Heq. by rewrite lookup_insert_eq.
    + rewrite lookup_insert_ne by done. by rewrite lookup_insert_eq.
  - by rewrite lookup_insert_eq.
  - intros u v Hab Hba. by rewrite !lookup_insert_ne.
Qed.

Lemma connect_nodes_on_built_network_witness :
  ∃ net' ok,
    connect_nodes Fixture.network "local_1" "edge_1" 50 100 Fixture.world
    = Ok (net', ok, Fixture.world)
    ∧ (ok = true ↔ registered Fixture.network "local_1"
                   ∧ registered Fixture.network "edge_1")
    ∧ (ok = false → net' = Fixture.network)
    ∧ (ok = true →
       nodes net' = nodes Fixture.network
       ∧ latency net' "local_1" "edge_1" = 50 ∧ latency net' "edge_1" "local_1" = 50
       ∧ (∀ u v, (u, v) ≠ ("local_1", "edge_1")%string →
                 (u, v) ≠ ("edge_1", "local_1")%string →
                 latency net' u v = latency Fixture.network u v)
       ∧ ∀ u v, link net' u v
                ↔ link Fixture.network u v
                  ∨ (u = "local_1"%string ∧ v = "edge_1"%string)
                  ∨ (u = "edge_1"%string ∧ v = "local_1"%string)).
Proof.
  apply (connect_nodes_on_built_network Fixture.network "local_1" "edge_1" 50 100
           Fixture.world).
  repeat apply built_add_node. apply built_init.
Defined.

End built_networks.

(** ** More on [find_best_path] *)
Section more_paths.
  Import MeshNetworkLayer PathSpec MeshSpec.

  Local Open Scope Z_scope.

(** X3: in a mesh with non-negative latencies, for registered endpoints,
    [find_best_path] returns a list: it raises nothing and its loops end.
    The list ends at the target, repeats no node, holds registered nodes
    only, and starts at the source exactly when the target can be reached
    from the source. *)
Theorem find_best_path_returns_simple_path order net source target :
  wf net → nonneg_latencies net →
  order ≡ₚ odict.keys (nodes net) →
  registered net source → registered net target →
  ∃ p, find_best_path_in order net source target = Ok p
       ∧ last p = Some target
       ∧ NoDup p
       ∧ (∀ n, n ∈ p → registered net n)
       ∧ (head p = Some source ↔ reachable net source target).
Proof.
  intros Hwf Hnn Hperm Hs Ht.
  destruct (decide (source = target)) as [<-|Hne].
  { exists [source]. split.
    - unfold find_best_path_in.
      rewrite (proj2 (odict_mem_registered net source) Hs). simpl.
      by rewrite decide_True.
    - split; [done|]. split; [apply NoDup_singleton|]. split.
      + intros n Hn. by apply list_elem_of_singleton in Hn as ->.
      + split; [|done]. intros _. exists [source]. apply is_path_refl. }
  unfold find_best_path_in.
  rewrite (proj2 (odict_mem_registered net source) Hs).
  rewrite (proj2 (odict_mem_registered net target) Ht). cbn [negb orb].
  rewrite decide_False by done.
  destruct (dijkstra_loop _ _ _ _ _ _) as [distances' previous'] eqn:Hloop.
  pose proof (dijkstra_loop_outcome net source target Hwf Hnn Hs Ht (length order)
                [] order _ _ distances' previous'
                (invariant_init net source target Hs order Hperm)
                (le_n _) Hloop) as [[Hprev Hun]|(pr&Hch&Hhd&Hpath&Hnd&Hreg&Hopt)].
  - exists [target]. split.
    + rewrite (reconstruct_step _ _ _ _ _ Hprev).
      by destruct (length (odict.keys (nodes net))).
    + split; [done|]. split; [apply NoDup_singleton|]. split.
      * intros n Hn. by apply list_elem_of_singleton in Hn as ->.
      * split; [|done]. intros [= Heq]. by destruct Hne.
  - exists (reverse pr). split.
    + rewrite (reconstruct_chain previous' pr (length (odict.keys (nodes net))) target []
                 Hch Hhd); [done|].
      apply submseteq_length. by apply NoDup_submseteq.
    + split; [apply Hpath|]. split; [by rewrite reverse_Permutation|]. split.
      * intros n Hn. apply Hreg. by apply elem_of_reverse.
      * split; [intros _; by exists (reverse pr)|intros _; apply Hpath].
Qed.

Lemma find_best_path_returns_simple_path_witness :
  ∃ p, find_best_path_in (odict.keys (nodes triangle)) triangle "cloud_1" "local_1" = Ok p
       ∧ last p = Some "local_1"%string
       ∧ NoDup p
       ∧ (∀ n, n ∈ p → registered triangle n)
       ∧ (head p = Some "cloud_1"%string ↔ reachable triangle "cloud_1" "local_1").
Proof.
  apply (find_best_path_returns_simple_path (odict.keys (nodes triangle)) triangle
           "cloud_1" "local_1").
  - apply wf_triangle.
  - apply nonneg_triangle.
  - reflexivity.
  - unfold registered. apply (bool_decide_unpack _). vm_compute. exact I.
  - unfold registered. apply (bool_decide_unpack _). vm_compute. exact I.
Defined.

(** *** Symmetry *)

Lemma latency_symmetric net u v : symmetric net → latency net u v = latency net v u.
Proof. intros (_&Hlat&_). unfold latency. by rewrite Hlat. Qed.

Lemma links_ok_reverse net p : symmetric net → links_ok net p → links_ok net (reverse p).
Proof.
  intros (Hl&_). induction p as [|a [|b p] IH]; [done..|].
  intros [Hab Hok]. rewrite reverse_cons.
  apply (links_ok_snoc net (reverse (b :: p)) b a).
  - by rewrite last_reverse.
  - split; [by apply IH|by apply Hl].
Qed.

Lemma total_latency_reverse net p :
  symmetric net → total_latency net (reverse p) = total_latency net p.
Proof.
  intros Hsym. induction p as [|a [|b p] IH]; [done..|].
  rewrite reverse_cons.
  rewrite (total_latency_snoc net (reverse (b :: p)) b a) by (by rewrite last_reverse).
  rewrite IH.
  change (total_latency net (a :: b :: p))
    with (latency net a b + total_latency net (b :: p)).
  rewrite (latency_symmetric net b a Hsym). lia.
Qed.

Lemma is_path_reverse net a b p :
  symmetric net → is_path net a b p → is_path net b a (reverse p).
Proof.
  intros Hsym (Hhd&Hlast&Hok). split; [by rewrite head_reverse|].
  split; [by rewrite last_reverse|by apply links_ok_reverse].
Qed.

(** X4: in a mesh with symmetric links and non-negative latencies the best
    route costs the same in both directions: the lists that
    [find_best_path] returns from [a] to [b] and from [b] to [a] have the
    same total latency, whatever the iteration orders of the two runs. *)
Theorem find_best_path_latency_symmetric order1 order2 net a b :
  wf net → nonneg_latencies net → symmetric net →
  order1 ≡ₚ odict.keys (nodes net) → order2 ≡ₚ odict.keys (nodes net) →
  registered net a → registered net b →
  ∃ p q, find_best_path_in order1 net a b = Ok p
         ∧ find_best_path_in order2 net b a = Ok q
         ∧ total_latency net p = total_latency net q.
Proof.
  intros Hwf Hnn Hsym Hp1 Hp2 Ha Hb.
  destruct (decide (a = b)) as [<-|Hne].
  { exists [a], [a]. unfold find_best_path_in.
    rewrite (proj2 (odict_mem_registered net a) Ha). simpl.
    by rewrite !decide_True. }
  destruct (find_best_path_in_outcome order1 net a b Hwf Hnn Hp1 Ha Hb Hne)
    as [[Hun1 Hr1]|(p&Hr1&Hpath1&Hopt1)];
  destruct (find_best_path_in_outcome order2 net b a Hwf Hnn Hp2 Hb Ha (not_eq_sym Hne))
    as [[Hun2 Hr2]|(q&Hr2&Hpath2&Hopt2)].
  - by exists [b], [a].
  - destruct Hun1. exists (reverse q). by apply is_path_reverse.
  - destruct Hun2. exists (reverse p). by apply is_path_reverse.
  - exists p, q. split; [done|]. split; [done|].
    pose proof (Hopt1 (reverse q) (is_path_reverse net b a q Hsym Hpath2)) as H1.
    pose proof (Hopt2 (reverse p) (is_path_reverse net a b p Hsym Hpath1)) as H2.
    rewrite total_latency_reverse in H1, H2 by done. lia.
Qed.

Lemma find_best_path_latency_symmetric_witness :
  ∃ p q, find_best_path_in (odict.keys (nodes triangle)) triangle "local_1" "cloud_1" = Ok p
         ∧ find_best_path_in (odict.keys (nodes triangle)) triangle "cloud_1" "local_1"
           = Ok q
         ∧ total_latency triangle p = total_latency triangle q.
Proof.
  apply (find_best_path_latency_symmetric (odict.keys (nodes triangle))
           (odict.keys (nodes triangle)) triangle "local_1" "cloud_1").
  - apply wf_triangle.
  - apply nonneg_triangle.
  - apply built_symmetric, built_triangle.
  - reflexivity.
  - reflexivity.
  - unfold registered. apply (bool_decide_unpack _). vm_compute. exact I.
  - unfold registered. apply (bool_decide_unpack _). vm_compute. exact I.
Defined.

End more_paths.

(** ** More on replication *)

(** The hashes are computed by [vm_compute] only. *)
Arguments content_hash : simpl never.
Arguments file_id_of_path : simpl never.

Section replication_more.
  Import CodeReplicationManager ReplicationSpec ReplicaLoops ReplicaFacts.

(** *** Consistency as equality of all hashes *)

Lemma replicas_consistent_iff metadata :
  FileMetadata.replicas_consistent metadata = true ↔ all_hashes_equal metadata.
Proof.
  unfold FileMetadata.replicas_consistent, all_hashes_equal.
  destruct (decide (length (FileMetadata.replicas metadata) ≤ 1)) as [Hlen|Hlen].
  - split; [|done]. intros _ r1 r2 H1 H2.
    destruct (FileMetadata.replicas metadata) as [|e [|e' l]];
      [by apply elem_of_nil in H1| |simpl in Hlen; lia].
    apply list_elem_of_singleton in H1, H2. congruence.
  - rewrite bool_decide_eq_true. split.
    + intros Hsize r1 r2 H1 H2.
      apply size_1_elem_of in Hsize as [h Hh].
      assert (∀ r, r ∈ odict.values (FileMetadata.replicas metadata) →
                   CodeReplica.hash r = h) as Hall.
      { intros r Hr. apply (list_elem_of_fmap_2 CodeReplica.hash) in Hr.
        apply (elem_of_list_to_set (C := gset string)) in Hr.
        rewrite Hh in Hr. by apply elem_of_singleton in Hr. }
      by rewrite (Hall r1 H1), (Hall r2 H2).
    + intros Hall.
      destruct (FileMetadata.replicas metadata) as [|[n r] l] eqn:Hreps;
        [simpl in Hlen; lia|].
      assert (list_to_set (CodeReplica.hash <$> odict.values ((n, r) :: l))
              = ({[CodeReplica.hash r]} : gset string)) as ->; [|apply size_singleton].
      apply set_eq. intros h. rewrite elem_of_list_to_set, elem_of_singleton.
      rewrite list_elem_of_fmap. split.
      * intros (r'&->&Hr'). apply Hall; [done|]. apply elem_of_cons. by left.
      * intros ->. exists r. split; [done|]. apply elem_of_cons. by left.
Qed.

Lemma replicas_consistent_false_iff metadata :
  FileMetadata.replicas_consistent metadata = false ↔ ¬ all_hashes_equal metadata.
Proof.
  rewrite <- replicas_consistent_iff. by destruct (FileMetadata.replicas_consistent _).
Qed.

(** *** The loops, entry by entry *)

Lemma sync_loop_exact c h src items : ∀ w items' targets w',
  sync_loop c h src items w = Ok (items', targets, w') →
  Forall2 (sync_entry c h src) items items'
  ∧ targets = filter (λ n, n ≠ src) (odict.keys items).
Proof.
  induction items as [|[n r] items IH]; intros w items' targets w' Hrun.
  - injection Hrun as <- <- _. split; [constructor|done].
  - cbn [sync_loop] in Hrun. destruct (decide (n ≠ src)) as [Hn|Hn].
    + destruct (now_spec w) as (w1&Hnow&_).
      bind_step in Hrun. rewrite Hnow in Hrun. bind_step in Hrun.
      destruct (sync_loop c h src items w1) as [[[rest' tg] w2]| |] eqn:Hloop; try done.
      injection Hrun as <- <- _. destruct (IH _ _ _ _ Hloop) as [Hall ->]. split.
      * constructor; [|done]. unfold sync_entry. simpl. rewrite decide_True by done.
        by eexists.
      * simpl. by rewrite filter_cons_True.
    + bind_step in Hrun.
      destruct (sync_loop c h src items w) as [[[rest' tg] w2]| |] eqn:Hloop; try done.
      injection Hrun as <- <- _. destruct (IH _ _ _ _ Hloop) as [Hall ->]. split.
      * constructor; [|done]. unfold sync_entry. simpl. by rewrite decide_False.
      * simpl. by rewrite filter_cons_False.
Qed.

Lemma resolve_loop_exact winning win items : ∀ w items' w',
  resolve_loop winning win items w = Ok (items', w') →
  Forall2 (resolve_entry winning win) items items'.
Proof.
  induction items as [|[n r] items IH]; intros w items' w' Hrun.
  - injection Hrun as <- _. constructor.
  - cbn [resolve_loop] in Hrun. destruct (decide (n ≠ win)) as [Hn|Hn].
    + destruct (now_spec w) as (w1&Hnow&_).
      bind_step in Hrun. rewrite Hnow in Hrun. bind_step in Hrun.
      destruct (resolve_loop winning win items w1) as [[rest' w2]| |] eqn:Hloop; try done.
      injection Hrun as <- _. constructor; [|by eapply IH].
      unfold resolve_entry. simpl. rewrite decide_True by done. by eexists.
    + bind_step in Hrun.
      destruct (resolve_loop winning win items w) as [[rest' w2]| |] eqn:Hloop; try done.
      injection Hrun as <- _. constructor; [|by eapply IH].
      unfold resolve_entry. simpl. by rewrite decide_False.
Qed.

Lemma odict_mem_keys {V} k (d : odict.t V) :
  odict.mem k d = bool_decide (k ∈ odict.keys d).
Proof. done. Qed.

Lemma replicate_loop_exact network primary targets : ∀ replicas w replicas' w',
  replicate_loop network primary replicas targets w = Ok (replicas', w') →
  ∃ added,
    replicas' = replicas ++ added
    ∧ odict.keys added = fresh_targets network (odict.keys replicas) targets
    ∧ Forall (copy_of network primary) added.
Proof.
  induction targets as [|t targets IH]; intros replicas w replicas' w' Hrun.
  - injection Hrun as <- _. exists []. split; [by rewrite app_nil_r|]. split; [done|].
    constructor.
  - cbn [replicate_loop fresh_targets] in *.
    rewrite (odict_mem_keys t replicas) in Hrun.
    destruct (odict.mem t (MeshNetworkLayer.nodes network)
              && negb (bool_decide (t ∈ odict.keys replicas))) eqn:Hcond;
      [|by eapply IH].
    apply andb_prop in Hcond as [Hmem Hnew].
    bind_step in Hrun. unfold odict.getitem in Hrun.
    destruct (odict.get t (MeshNetworkLayer.nodes network)) as [node|] eqn:Hnode; [|done].
    simpl in Hrun.
    destruct (now_spec w) as (w1&Hnow&_).
    bind_step in Hrun. rewrite Hnow in Hrun.
    rewrite odict_set_new in Hrun.
    2:{ rewrite odict_mem_keys. by destruct (bool_decide _). }
    destruct (IH _ _ _ _ Hrun) as (added&->&Hkeys&Hall).
    eexists (_ :: added). split; [by rewrite <- app_assoc|]. split.
    + simpl. f_equal. rewrite Hkeys. unfold odict.keys. by rewrite fmap_app.
    + constructor; [|done]. by exists node, (clock w (clock_reads w)).
Qed.

Lemma fresh_targets_spec network targets : ∀ held,
  NoDup held →
  NoDup (held ++ fresh_targets network held targets)
  ∧ (∀ n, n ∈ fresh_targets network held targets →
          n ∈ targets ∧ odict.mem n (MeshNetworkLayer.nodes network) = true)
  ∧ (∀ n, n ∈ targets → odict.mem n (MeshNetworkLayer.nodes network) = true →
          n ∈ held ++ fresh_targets network held targets).
Proof.
  induction targets as [|t targets IH]; intros held Hnd; simpl.
  - rewrite app_nil_r. split; [done|]. split; intros n Hn; by apply elem_of_nil in Hn.
  - destruct (odict.mem t (MeshNetworkLayer.nodes network)) eqn:Hmem; simpl.
    + case_bool_decide as Hheld; simpl.
      * destruct (IH held Hnd) as (Hnd'&Hin&Hcov). split; [done|]. split.
        -- intros n Hn. destruct (Hin n Hn). split; [apply elem_of_cons; by right|done].
        -- intros n Hn Hreg. apply elem_of_cons in Hn as [->|Hn]; [|by apply Hcov].
           apply elem_of_app. by left.
      * assert (NoDup (held ++ [t])) as Hnd1.
        { apply NoDup_app. split; [done|]. split; [|apply NoDup_singleton].
          intros x Hx Hx'. by apply list_elem_of_singleton in Hx' as ->. }
        destruct (IH (held ++ [t]) Hnd1) as (Hnd'&Hin&Hcov).
        rewrite <- app_assoc in Hnd', Hcov. simpl in Hnd', Hcov.
        split; [done|]. split.
        -- intros n Hn. apply elem_of_cons in Hn as [->|Hn].
           ++ split; [apply elem_of_cons; by left|done].
           ++ destruct (Hin n Hn). split; [apply elem_of_cons; by right|done].
        -- intros n Hn Hreg. apply elem_of_cons in Hn as [->|Hn]; [|by apply Hcov].
           apply elem_of_app. right. apply elem_of_cons. by left.
    + destruct (IH held Hnd) as (Hnd'&Hin&Hcov). split; [done|]. split.
      * intros n Hn. destruct (Hin n Hn). split; [apply elem_of_cons; by right|done].
      * intros n Hn Hreg. apply elem_of_cons in Hn as [->|Hn]; [congruence|].
        by apply Hcov.
Qed.

(** *** What each call keeps *)

Lemma Forall2_keys_eq {V} (R : string * V → string * V → Prop) (d d' : odict.t V) :
  Forall2 R d d' → (∀ e e', R e e' → e'.1 = e.1) → odict.keys d' = odict.keys d.
Proof.
  intros Hall Hk. induction Hall as [|e e' d d' He _ IH]; [done|].
  unfold odict.keys in *. rewrite !fmap_cons, IH. f_equal. by apply Hk.
Qed.

Lemma sync_entry_key c h src e e' : sync_entry c h src e e' → e'.1 = e.1.
Proof.
  unfold sync_entry. destruct (decide _); [by intros [t ->]|by intros ->].
Qed.

Lemma resolve_entry_key winning win e e' : resolve_entry winning win e e' → e'.1 = e.1.
Proof.
  unfold resolve_entry. destruct (decide _); [by intros [t ->]|by intros ->].
Qed.

Lemma Forall2_Forall_r {A B} (R : A → B → Prop) (P : A → Prop) (Q : B → Prop) l l' :
  Forall2 R l l' → Forall P l → (∀ x y, R x y → P x → Q y) → Forall Q l'.
Proof.
  intros Hall HP Himp. induction Hall as [|x y l l' HR _ IH]; [constructor|].
  apply Forall_cons in HP as [Hx HP]. constructor; [by eapply Himp|by apply IH].
Qed.

Lemma get_primary_replica_elem_of metadata primary :
  FileMetadata.get_primary_replica metadata = Some primary →
  primary ∈ odict.values (FileMetadata.replicas metadata).
Proof. intros H. by apply py_max_spec in H as [? _]. Qed.

Lemma get_primary_replica_is_Some metadata :
  FileMetadata.replicas metadata ≠ [] →
  is_Some (FileMetadata.get_primary_replica metadata).
Proof.
  intros Hne. apply py_max_is_Some. unfold odict.values.
  destruct (FileMetadata.replicas metadata); [done|]. done.
Qed.

Lemma replica_ok_values d r :
  Forall replica_ok d → r ∈ odict.values d →
  CodeReplica.hash r = content_hash (CodeReplica.content r)
  ∧ (1 ≤ CodeReplica.version r)%Z.
Proof.
  intros Hall Hr. apply list_elem_of_fmap in Hr as (e&->&He).
  rewrite Forall_forall in Hall. by destruct (Hall e He) as (_&?&?).
Qed.

(** A replica made by [replicate_file] from a coherent primary carries the
    primary's hash: the recomputation of an empty hash gives it back. *)
Lemma copy_of_hash network primary e :
  CodeReplica.hash primary = content_hash (CodeReplica.content primary) →
  copy_of network primary e →
  CodeReplica.node_id e.2 = e.1
  ∧ CodeReplica.content e.2 = CodeReplica.content primary
  ∧ CodeReplica.hash e.2 = CodeReplica.hash primary
  ∧ CodeReplica.version e.2 = CodeReplica.version primary.
Proof.
  intros Hcoh (node&t&_&->). simpl. repeat split.
  destruct (decide (CodeReplica.hash primary = EmptyString)) as [He|]; [|done].
  by rewrite Hcoh.
Qed.

Lemma file_ok_replicate network file_id metadata primary added :
  file_ok file_id metadata →
  FileMetadata.get_primary_replica metadata = Some primary →
  NoDup (odict.keys (FileMetadata.replicas metadata ++ added)) →
  Forall (copy_of network primary) added →
  file_ok file_id
    (FileMetadata.with_replicas metadata (FileMetadata.replicas metadata ++ added)).
Proof.
  intros Hok Hprim Hnd Hadded.
  pose proof (get_primary_replica_elem_of _ _ Hprim) as Hin.
  destruct (replica_ok_values _ _ (ok_replicas Hok) Hin) as [Hcoh Hver].
  assert (∀ r, r ∈ odict.values added →
               CodeReplica.hash r = CodeReplica.hash primary) as Hhash.
  { intros r Hr. apply list_elem_of_fmap in Hr as (e&->&He).
    rewrite Forall_forall in Hadded.
    by destruct (copy_of_hash network primary e Hcoh (Hadded e He)) as (_&_&?&_). }
  assert (all_hashes_equal
            (FileMetadata.with_replicas metadata (FileMetadata.replicas metadata ++ added))
          ↔ all_hashes_equal metadata) as Hequiv.
  { unfold all_hashes_equal. simpl. unfold odict.values. split.
    - intros Hall r1 r2 H1 H2. apply Hall; rewrite fmap_app, elem_of_app; by left.
    - intros Hall r1 r2 H1 H2. rewrite fmap_app, elem_of_app in H1, H2.
      destruct H1 as [H1|H1], H2 as [H2|H2].
      + by apply Hall.
      + rewrite (Hhash r2 H2). by apply Hall.
      + rewrite (Hhash r1 H1). by apply Hall.
      + by rewrite (Hhash r1 H1), (Hhash r2 H2). }
  split; simpl.
  - apply (ok_id Hok).
  - intros Hnil. apply app_eq_nil in Hnil as [Hnil _]. by apply (ok_nonempty Hok).
  - done.
  - apply Forall_app. split; [apply (ok_replicas Hok)|].
    eapply Forall_impl; [exact Hadded|]. intros e He.
    destruct (copy_of_hash network primary e Hcoh He) as (Hid&Hc&Hh&Hv).
    split; [done|]. split; [by rewrite Hh, Hc|by rewrite Hv].
  - destruct (ok_state Hok) as [[Hs Hc]|[Hs Hc]].
    + left. split; [done|]. apply replicas_consistent_iff, Hequiv.
      by apply replicas_consistent_iff.
    + right. split; [done|]. apply replicas_consistent_false_iff. rewrite Hequiv.
      by apply replicas_consistent_false_iff.
  - apply (ok_guardian Hok).
Qed.

Lemma odict_NoDup_unique {V} (d : odict.t V) k v1 v2 :
  NoDup (odict.keys d) → (k, v1) ∈ d → (k, v2) ∈ d → v1 = v2.
Proof.
  unfold odict.keys. induction d as [|[k' v'] d IH]; intros Hnd H1 H2.
  - by apply elem_of_nil in H1.
  - rewrite fmap_cons in Hnd. apply NoDup_cons in Hnd as [Hnin Hnd].
    apply elem_of_cons in H1 as [H1|H1], H2 as [H2|H2].
    + congruence.
    + injection H1 as -> ->. destruct Hnin. by apply (list_elem_of_fmap_2 fst) in H2.
    + injection H2 as -> ->. destruct Hnin. by apply (list_elem_of_fmap_2 fst) in H1.
    + by apply IH.
Qed.

Lemma file_ok_sync file_id metadata new_content source_node replicas :
  file_ok file_id metadata →
  Forall2 (sync_entry new_content (content_hash new_content) source_node)
    (FileMetadata.replicas metadata) replicas →
  file_ok file_id
    (FileMetadata.with_sync_state (FileMetadata.with_replicas metadata replicas)
       (if FileMetadata.replicas_consistent (FileMetadata.with_replicas metadata replicas)
        then SyncState.SYNCED else SyncState.PENDING)).
Proof.
  intros Hok Hall.
  pose proof (Forall2_keys_eq _ _ _ Hall (sync_entry_key _ _ _)) as Hkeys.
  split; simpl.
  - apply (ok_id Hok).
  - intros ->. apply Forall2_nil_inv_r in Hall. by apply (ok_nonempty Hok).
  - rewrite Hkeys. apply (ok_keys Hok).
  - eapply Forall2_Forall_r; [exact Hall|apply (ok_replicas Hok)|].
    intros e e' He (Hid&Hh&Hv). unfold sync_entry in He.
    destruct (decide (e.1 ≠ source_node)); [|by subst e'].
    destruct He as [t ->]. unfold replica_ok. simpl. split; [done|]. split; [done|lia].
  - change (FileMetadata.replicas_consistent
              (FileMetadata.with_sync_state (FileMetadata.with_replicas metadata replicas)
                 (if FileMetadata.replicas_consistent
                       (FileMetadata.with_replicas metadata replicas)
                  then SyncState.SYNCED else SyncState.PENDING)))
      with (FileMetadata.replicas_consistent
              (FileMetadata.with_replicas metadata replicas)).
    destruct (FileMetadata.replicas_consistent _); [by left|by right].
  - apply (ok_guardian Hok).
Qed.

Lemma file_ok_resolve file_id metadata win winning replicas :
  file_ok file_id metadata →
  odict.get win (FileMetadata.replicas metadata) = Some winning →
  Forall2 (resolve_entry winning win) (FileMetadata.replicas metadata) replicas →
  file_ok file_id
    (FileMetadata.with_sync_state (FileMetadata.with_replicas metadata replicas)
       SyncState.SYNCED)
  ∧ ∀ r, r ∈ odict.values replicas →
         CodeReplica.content r = CodeReplica.content winning
         ∧ CodeReplica.hash r = CodeReplica.hash winning.
Proof.
  intros Hok Hwin Hall.
  pose proof (Forall2_keys_eq _ _ _ Hall (resolve_entry_key _ _)) as Hkeys.
  pose proof (odict_get_elem_of _ _ _ Hwin) as Hwin_in.
  assert (replica_ok (win, winning)) as (_&Hwh&Hwv).
  { pose proof (ok_replicas Hok) as Hrs. rewrite Forall_forall in Hrs. by apply Hrs. }
  simpl in Hwh, Hwv.
  assert (∀ r, r ∈ odict.values replicas →
               CodeReplica.content r = CodeReplica.content winning
               ∧ CodeReplica.hash r = CodeReplica.hash winning) as Hsame.
  { intros r Hr. apply list_elem_of_fmap in Hr as (e'&->&He').
    destruct (Forall2_elem_of_r _ _ _ _ Hall He') as ([n r0]&Hin&He).
    unfold resolve_entry in He. simpl in He.
    destruct (decide (n ≠ win)) as [Hn|Hn].
    - by destruct He as [t ->].
    - subst e'. simpl. assert (n = win) as -> by (by destruct (decide (n = win))).
      by rewrite (odict_NoDup_unique _ _ _ _ (ok_keys Hok) Hin Hwin_in). }
  split; [|done]. split; simpl.
  - apply (ok_id Hok).
  - intros ->. apply Forall2_nil_inv_r in Hall. by apply (ok_nonempty Hok).
  - rewrite Hkeys. apply (ok_keys Hok).
  - eapply Forall2_Forall_r; [exact Hall|apply (ok_replicas Hok)|].
    intros e e' He (Hid&Hh&Hv). unfold resolve_entry in He.
    destruct (decide (e.1 ≠ win)); [|by subst e'].
    destruct He as [t ->]. unfold replica_ok. simpl. split; [done|]. split; [done|lia].
  - left. split; [done|]. apply replicas_consistent_iff. intros r1 r2 H1 H2.
    simpl in H1, H2. destruct (Hsame r1 H1) as [_ ->]. by destruct (Hsame r2 H2) as [_ ->].
  - apply (ok_guardian Hok).
Qed.

(** Every call keeps the manager well formed, and the event log only
    grows. *)
Lemma run_op_manager_ok network self o w self' b w' :
  manager_ok self →
  run_op network self o w = Ok (self', b, w') →
  manager_ok self' ∧ ∃ new, sync_events self' = sync_events self ++ new.
Proof.
  intros (Hfiles&Hevents&Hfactor) Hrun.
  destruct o as [fid p c pn|fid tn|fid c sn|fid wn]; simpl in Hrun.
  - (* register_file *)
    unfold register_file in Hrun. case_bool_decide as Hdom.
    { injection Hrun as <- _ _. split; [done|]. exists []. by rewrite app_nil_r. }
    bind_step in Hrun. unfold odict.getitem in Hrun.
    destruct (odict.get pn (MeshNetworkLayer.nodes network)) as [node|]; [|done].
    simpl in Hrun. injection Hrun as <- _ _.
    split; [|exists []; by rewrite app_nil_r].
    split; [|done]. intros f metadata Hf. simpl in Hf.
    destruct (decide (fid = f)) as [->|Hne].
    + rewrite lookup_insert_eq in Hf. injection Hf as <-. split; simpl; try done.
      * apply NoDup_singleton.
      * constructor; [|constructor]. unfold replica_ok. simpl. done.
      * by left.
    + rewrite lookup_insert_ne in Hf by done. by apply Hfiles.
  - (* replicate_file *)
    unfold replicate_file in Hrun.
    destruct (files self !! fid) as [metadata|] eqn:Hfile.
    2:{ injection Hrun as <- _ _. split; [done|]. exists []. by rewrite app_nil_r. }
    destruct (FileMetadata.get_primary_replica metadata) as [primary|] eqn:Hprim.
    2:{ injection Hrun as <- _ _. split; [done|]. exists []. by rewrite app_nil_r. }
    bind_step in Hrun.
    destruct (replicate_loop network primary (FileMetadata.replicas metadata) tn w)
      as [[replicas' w1]| |] eqn:Hloop; try done.
    injection Hrun as <- _ _.
    destruct (replicate_loop_exact _ _ _ _ _ _ _ Hloop) as (added&->&Hkeys&Hadded).
    split; [|exists []; by rewrite app_nil_r].
    split; [|done]. intros f metadata' Hf. simpl in Hf.
    destruct (decide (fid = f)) as [->|Hne].
    + rewrite lookup_insert_eq in Hf. injection Hf as <-.
      apply (file_ok_replicate network f metadata primary added);
        [by apply Hfiles|done| |done].
      unfold odict.keys. rewrite fmap_app. fold (odict.keys added). rewrite Hkeys.
      apply fresh_targets_spec. apply (ok_keys (Hfiles f metadata Hfile)).
    + rewrite lookup_insert_ne in Hf by done. by apply Hfiles.
  - (* sync_file *)
    unfold sync_file in Hrun.
    destruct (files self !! fid) as [metadata|] eqn:Hfile.
    2:{ injection Hrun as <- _ _. split; [done|]. exists []. by rewrite app_nil_r. }
    bind_step in Hrun.
    destruct (sync_loop c (content_hash c) sn (FileMetadata.replicas metadata) w)
      as [[[replicas' tg] w1]| |] eqn:Hloop; try done.
    destruct (sync_loop_exact _ _ _ _ _ _ _ _ Hloop) as [Hall _].
    destruct (uuid4_str_spec w1) as (eid&w2&Huuid&_).
    destruct (now_spec w2) as (w3&Hnow&_).
    bind_step in Hrun. rewrite Huuid in Hrun.
    bind_step in Hrun. rewrite Hnow in Hrun.
    injection Hrun as <- _ _.
    pose proof (file_ok_sync fid metadata c sn replicas' (Hfiles fid metadata Hfile) Hall)
      as Hok'.
    split; [|by eexists]. split; [|split; [|done]].
    + intros f metadata' Hf. simpl in Hf.
      destruct (decide (fid = f)) as [->|Hne].
      * rewrite lookup_insert_eq in Hf. by injection Hf as <-.
      * rewrite lookup_insert_ne in Hf by done. by apply Hfiles.
    + simpl. apply Forall_app. split; [done|]. constructor; [|constructor]. simpl.
      split; [done|]. split; [done|].
      destruct (get_primary_replica_is_Some
                  (FileMetadata.with_replicas metadata replicas')) as [pr Hpr].
      { apply (ok_nonempty Hok'). }
      by rewrite Hpr.
  - (* resolve_conflict *)
    unfold resolve_conflict in Hrun.
    destruct (files self !! fid) as [metadata|] eqn:Hfile.
    2:{ injection Hrun as <- _ _. split; [done|]. exists []. by rewrite app_nil_r. }
    destruct (odict.get wn (FileMetadata.replicas metadata)) as [winning|] eqn:Hwin.
    2:{ injection Hrun as <- _ _. split; [done|]. exists []. by rewrite app_nil_r. }
    bind_step in Hrun.
    destruct (resolve_loop winning wn (FileMetadata.replicas metadata) w)
      as [[replicas' w1]| |] eqn:Hloop; try done.
    injection Hrun as <- _ _.
    pose proof (resolve_loop_exact _ _ _ _ _ _ Hloop) as Hall.
    split; [|exists []; by rewrite app_nil_r].
    split; [|done]. intros f metadata' Hf. simpl in Hf.
    destruct (decide (fid = f)) as [->|Hne].
    + rewrite lookup_insert_eq in Hf. injection Hf as <-.
      by apply (file_ok_resolve f metadata wn winning replicas' (Hfiles f metadata Hfile)).
    + rewrite lookup_insert_ne in Hf by done. by apply Hfiles.
Qed.

Lemma manager_ok_init : manager_ok init.
Proof.
  split; [|split; [constructor|done]].
  intros f metadata Hf. simpl in Hf. by rewrite lookup_empty in Hf.
Qed.

Lemma run_ops_manager_ok network ops : ∀ self w self' w',
  manager_ok self →
  run_ops network self ops w = Ok (self', w') →
  manager_ok self' ∧ ∃ new, sync_events self' = sync_events self ++ new.
Proof.
  induction ops as [|o ops IH]; intros self w self' w' Hok Hrun.
  - injection Hrun as <- _. split; [done|]. exists []. by rewrite app_nil_r.
  - cbn [run_ops] in Hrun. bind_step in Hrun.
    destruct (run_op network self o w) as [[[self1 b] w1]| |] eqn:Hop; try done.
    destruct (run_op_manager_ok _ _ _ _ _ _ _ Hok Hop) as [Hok1 [new1 Hnew1]].
    destruct (IH _ _ _ _ Hok1 Hrun) as [Hok' [new2 Hnew2]].
    split; [done|]. exists (new1 ++ new2). by rewrite Hnew2, Hnew1, app_assoc.
Qed.

End replication_more.

(** ** Replication: what every reachable state keeps *)
Section replication_entries.
  Import CodeReplicationManager ReplicationSpec ReplicaLoops ReplicaFacts.

  Local Open Scope string_scope.
  Local Open Scope list_scope.

(** X5: in every state reached from the empty manager by register,
    replicate, sync and resolve calls, every file is stored under its own
    id and has at least one replica; its replicas are on distinct nodes,
    each stored under its node id, with a hash that is the hash of its
    content and a version of at least 1; and [guardian_id] is never set. *)
Theorem reachable_files_are_well_formed network ops w0 self w file_id metadata :
  run_ops network init ops w0 = Ok (self, w) →
  files self !! file_id = Some metadata →
  FileMetadata.file_id metadata = file_id
  ∧ FileMetadata.replicas metadata ≠ []
  ∧ NoDup (odict.keys (FileMetadata.replicas metadata))
  ∧ (∀ n r, (n, r) ∈ FileMetadata.replicas metadata →
            CodeReplica.node_id r = n
            ∧ CodeReplica.hash r = content_hash (CodeReplica.content r)
            ∧ (1 ≤ CodeReplica.version r)%Z)
  ∧ FileMetadata.guardian_id metadata = None.
Proof.
  intros Hrun Hfile.
  destruct (run_ops_manager_ok network ops init w0 self w manager_ok_init Hrun)
    as [(Hfiles&_) _].
  pose proof (Hfiles file_id metadata Hfile) as Hok.
  split; [apply (ok_id Hok)|]. split; [apply (ok_nonempty Hok)|].
  split; [apply (ok_keys Hok)|]. split; [|apply (ok_guardian Hok)].
  intros n r Hin. pose proof (ok_replicas Hok) as Hall.
  rewrite Forall_forall in Hall. apply (Hall (n, r) Hin).
Qed.

Lemma reachable_files_are_well_formed_witness :
  ∃ metadata,
    files (after register_replicate_sync) !! "file_001" = Some metadata
    ∧ FileMetadata.file_id metadata = "file_001"
    ∧ FileMetadata.replicas metadata ≠ []
    ∧ NoDup (odict.keys (FileMetadata.replicas metadata))
    ∧ (∀ n r, (n, r) ∈ FileMetadata.replicas metadata →
              CodeReplica.node_id r = n
              ∧ CodeReplica.hash r = content_hash (CodeReplica.content r)
              ∧ (1 ≤ CodeReplica.version r)%Z)
    ∧ FileMetadata.guardian_id metadata = None.
Proof.
  eexists. split; [vm_compute; reflexivity|].
  eapply (reachable_files_are_well_formed Fixture.network register_replicate_sync
            Fixture.world (after register_replicate_sync)
            (world_after register_replicate_sync) "file_001").
  - vm_compute. reflexivity.
  - vm_compute. reflexivity.
Defined.

(** X6: in every such state a file is in state synced exactly when its
    replicas are consistent and in state pending exactly when they are not;
    the states conflict and diverged are never assigned. *)
Theorem sync_state_reflects_consistency network ops w0 self w file_id metadata :
  run_ops network init ops w0 = Ok (self, w) →
  files self !! file_id = Some metadata →
  (FileMetadata.sync_state metadata = SyncState.SYNCED
   ↔ FileMetadata.replicas_consistent metadata = true)
  ∧ (FileMetadata.sync_state metadata = SyncState.PENDING
     ↔ FileMetadata.replicas_consistent metadata = false).
Proof.
  intros Hrun Hfile.
  destruct (run_ops_manager_ok network ops init w0 self w manager_ok_init Hrun)
    as [(Hfiles&_) _].
  destruct (ok_state (Hfiles file_id metadata Hfile)) as [[Hs Hc]|[Hs Hc]];
    rewrite Hs, Hc; split; split; done.
Qed.

Lemma sync_state_reflects_consistency_witness :
  ∃ metadata,
    files (after register_replicate_sync) !! "file_001" = Some metadata
    ∧ (FileMetadata.sync_state metadata = SyncState.SYNCED
       ↔ FileMetadata.replicas_consistent metadata = true)
    ∧ (FileMetadata.sync_state metadata = SyncState.PENDING
       ↔ FileMetadata.replicas_consistent metadata = false).
Proof.
  eexists. split; [vm_compute; reflexivity|].
  eapply (sync_state_reflects_consistency Fixture.network register_replicate_sync
            Fixture.world (after register_replicate_sync)
            (world_after register_replicate_sync) "file_001").
  - vm_compute. reflexivity.
  - vm_compute. reflexivity.
Defined.

(** X7: the event log is append-only and records successes only: whatever
    calls follow, the events of a reachable state stay at the front of the
    log in the same order, and every event of the log has [success] set,
    latency 0 and an old hash, also when the sync left the replicas
    inconsistent. *)
Theorem sync_events_are_append_only network ops more w0 self w self' w' :
  run_ops network init ops w0 = Ok (self, w) →
  run_ops network self more w = Ok (self', w') →
  (∃ new, sync_events self' = (sync_events self ++ new)%list)
  ∧ ∀ event, event ∈ sync_events self' →
             SyncEvent.success event = true
             ∧ SyncEvent.latency_ms event = 0%Z
             ∧ is_Some (SyncEvent.old_hash event).
Proof.
  intros Hrun Hmore.
  destruct (run_ops_manager_ok network ops init w0 self w manager_ok_init Hrun)
    as [Hok _].
  destruct (run_ops_manager_ok network more self w self' w' Hok Hmore)
    as [(_&Hevents&_) Hnew].
  split; [done|]. intros event Hin. rewrite Forall_forall in Hevents.
  destruct (Hevents event Hin) as (?&?&Hold). split; [done|]. split; [done|].
  by destruct (SyncEvent.old_hash event); [eexists|].
Qed.

Lemma sync_events_are_append_only_witness :
  (∃ new, sync_events (after register_replicate_sync_twice)
          = (sync_events (after register_replicate_sync) ++ new)%list)
  ∧ ∀ event, event ∈ sync_events (after register_replicate_sync_twice) →
             SyncEvent.success event = true
             ∧ SyncEvent.latency_ms event = 0%Z
             ∧ is_Some (SyncEvent.old_hash event).
Proof.
  apply (sync_events_are_append_only Fixture.network register_replicate_sync
           [SyncFile "file_001" "x = 3" "local_1"] Fixture.world
           (after register_replicate_sync) (world_after register_replicate_sync)
           (after register_replicate_sync_twice)
           (world_after register_replicate_sync_twice)).
  - vm_compute. reflexivity.
  - vm_compute. reflexivity.
Defined.

(** *** The contracts of [replicate_file], [sync_file] and
    [resolve_conflict] *)

(** X8: on a file that has a replica, [replicate_file] raises nothing and
    returns [True]; it copies from the replica with the latest timestamp;
    the replicas that existed stay as they are and in place, and one replica
    is appended, in order, for every target that is registered in the
    network and held none: afterwards every registered target holds a
    replica. Each new replica carries the content and version of the primary
    and its hash (recomputed from the content when that hash is empty).
    Unregistered targets are skipped, and the event log is untouched. *)
Theorem replicate_file_contract network self file_id target_nodes w metadata :
  files self !! file_id = Some metadata →
  FileMetadata.replicas metadata ≠ [] →
  NoDup (odict.keys (FileMetadata.replicas metadata)) →
  ∃ primary added self' w',
    replicate_file network self file_id target_nodes w = Ok (self', true, w')
    ∧ primary ∈ odict.values (FileMetadata.replicas metadata)
    ∧ (∀ r, r ∈ odict.values (FileMetadata.replicas metadata) →
            (CodeReplica.timestamp r ≤ CodeReplica.timestamp primary)%Z)
    ∧ files self'
      = <[file_id := FileMetadata.with_replicas metadata
                       (FileMetadata.replicas metadata ++ added)]> (files self)
    ∧ sync_events self' = sync_events self
    ∧ NoDup (odict.keys (FileMetadata.replicas metadata ++ added))
    ∧ (∀ n, n ∈ target_nodes → PathSpec.registered network n →
            n ∈ odict.keys (FileMetadata.replicas metadata ++ added))
    ∧ ∀ n r, (n, r) ∈ added →
        n ∈ target_nodes ∧ PathSpec.registered network n
        ∧ CodeReplica.node_id r = n
        ∧ CodeReplica.content r = CodeReplica.content primary
        ∧ CodeReplica.version r = CodeReplica.version primary
        ∧ CodeReplica.hash r
          = if decide (CodeReplica.hash primary = EmptyString)
            then content_hash (CodeReplica.content primary)
            else CodeReplica.hash primary.
Proof.
  intros Hfile Hne Hnd.
  destruct (get_primary_replica_is_Some metadata Hne) as [primary Hprim].
  destruct (replicate_loop_spec network primary (FileMetadata.replicas metadata)
              target_nodes w) as (replicas'&w'&Hloop&_&_).
  destruct (replicate_loop_exact _ _ _ _ _ _ _ Hloop) as (added&->&Hkeys&Hadded).
  destruct (fresh_targets_spec network target_nodes
              (odict.keys (FileMetadata.replicas metadata)) Hnd) as (Hnd'&Hin&Hcov).
  assert (odict.keys (FileMetadata.replicas metadata ++ added)
          = (odict.keys (FileMetadata.replicas metadata)
             ++ fresh_targets network (odict.keys (FileMetadata.replicas metadata))
                  target_nodes)%list) as Hkeys'.
  { unfold odict.keys. rewrite fmap_app. fold (odict.keys added). by rewrite Hkeys. }
  exists primary, added. eexists _, w'. split.
  { unfold replicate_file. rewrite Hfile, Hprim. bind_step. rewrite Hloop. reflexivity. }
  pose proof (py_max_spec _ _ _ Hprim) as [Hpin Hmax].
  split; [done|]. split; [done|]. split; [done|]. split; [done|].
  split; [by rewrite Hkeys'|]. split.
  - intros n Hn Hreg. rewrite Hkeys'. apply Hcov; [done|].
    by apply odict_mem_registered.
  - intros n r Hnr.
    assert (n ∈ odict.keys added) as Hnk by (by apply (list_elem_of_fmap_2 fst) in Hnr).
    rewrite Hkeys in Hnk. destruct (Hin n Hnk) as [Htg Hreg].
    rewrite Forall_forall in Hadded. destruct (Hadded (n, r) Hnr) as (node&t&_&Hr).
    simpl in Hr. subst r. simpl.
    split; [done|]. split; [by apply odict_mem_registered|]. done.
Qed.

Lemma replicate_file_contract_witness :
  ∃ primary added self' w',
    replicate_file Fixture.network (after [RegisterFile "file_001" "test.py" "x = 1" "local_1"])
      "file_001" ["edge_1"; "ghost"; "edge_1"; "cloud_1"]
      (world_after [RegisterFile "file_001" "test.py" "x = 1" "local_1"])
    = Ok (self', true, w')
    ∧ odict.keys added = ["edge_1"; "cloud_1"]
    ∧ ∀ n r, (n, r) ∈ added →
        CodeReplica.content r = CodeReplica.content primary
        ∧ CodeReplica.hash r = content_hash "x = 1".
Proof.
  destruct (replicate_file_contract Fixture.network
              (after [RegisterFile "file_001" "test.py" "x = 1" "local_1"])
              "file_001" ["edge_1"; "ghost"; "edge_1"; "cloud_1"]
              (world_after [RegisterFile "file_001" "test.py" "x = 1" "local_1"])
              {| FileMetadata.file_id := "file_001"; FileMetadata.path := "test.py";
                 FileMetadata.replicas :=
                   [("local_1", CodeReplica.make "local_1" NodeType.LOCAL "x = 1"
                                  EmptyString 0 1)];
                 FileMetadata.sync_state := SyncState.SYNCED;
                 FileMetadata.guardian_id := None;
                 FileMetadata.secondary_guardians := [];
                 FileMetadata.access_log := [] |})
    as (primary&added&self'&w'&Hrun&Hprim&_&Hfiles&_&Hnd&Hcov&Hadded).
  - vm_compute. reflexivity.
  - discriminate.
  - apply NoDup_singleton.
  - apply list_elem_of_singleton in Hprim. subst primary.
    exists (CodeReplica.make "local_1" NodeType.LOCAL "x = 1" EmptyString 0 1),
           added, self', w'.
    split; [exact Hrun|]. split.
    + vm_compute in Hrun. injection Hrun as Hself _.
      rewrite <- Hself in Hfiles. simpl in Hfiles.
      apply (f_equal (λ m, FileMetadata.replicas <$> m !! "file_001")) in Hfiles.
      vm_compute in Hfiles. injection Hfiles as Hfiles.
      destruct added as [|[n1 r1] [|[n2 r2] [|? ?]]]; try discriminate.
      injection Hfiles as -> _ -> _. reflexivity.
    + intros n r Hnr. destruct (Hadded n r Hnr) as (_&_&_&Hc&_&Hh).
      split; [exact Hc|]. rewrite Hh. vm_compute. reflexivity.
Defined.



(** X10: on a file whose replicas are on distinct nodes, [resolve_conflict]
    returns [False] and changes nothing when the winning node holds no
    replica; otherwise it returns [True], keeps the winner's replica as it
    is, gives every replica the winner's content and hash, leaves the
    replicas consistent and the file synced, and adds no event. *)
Theorem resolve_conflict_contract self file_id winning_replica_node w metadata :
  files self !! file_id = Some metadata →
  NoDup (odict.keys (FileMetadata.replicas metadata)) →
  match odict.get winning_replica_node (FileMetadata.replicas metadata) with
  | None => resolve_conflict self file_id winning_replica_node w = Ok (self, false, w)
  | Some winning =>
      ∃ self' w' metadata',
        resolve_conflict self file_id winning_replica_node w = Ok (self', true, w')
        ∧ files self' = <[file_id := metadata']> (files self)
        ∧ sync_events self' = sync_events self
        ∧ odict.keys (FileMetadata.replicas metadata')
          = odict.keys (FileMetadata.replicas metadata)
        ∧ odict.get winning_replica_node (FileMetadata.replicas metadata') = Some winning
        ∧ (∀ n r, (n, r) ∈ FileMetadata.replicas metadata' →
                  CodeReplica.content r = CodeReplica.content winning
                  ∧ CodeReplica.hash r = CodeReplica.hash winning)
        ∧ FileMetadata.replicas_consistent metadata' = true
        ∧ FileMetadata.sync_state metadata' = SyncState.SYNCED
  end.
Proof.
  intros Hfile Hnd.
  destruct (odict.get winning_replica_node (FileMetadata.replicas metadata))
    as [winning|] eqn:Hwin.
  2:{ unfold resolve_conflict. by rewrite Hfile, Hwin. }
  destruct (resolve_conflict_spec self file_id winning_replica_node w metadata winning
              Hfile Hwin) as (replicas&w'&Hres&_&Hall).
  assert (Forall2 (λ e e', e'.1 = e.1 ∧ resolved winning winning_replica_node e e')
            (FileMetadata.replicas metadata) replicas) as Hall'.
  { eapply Forall2_impl; [exact Hall|]. intros e e' He. split; [apply He|done]. }
  assert (odict.keys replicas = odict.keys (FileMetadata.replicas metadata)) as Hkeys.
  { apply (Forall2_keys_eq _ _ _ Hall). by intros e e' [? _]. }
  destruct (odict_get_Forall2 _ _ _ _ _ Hall' Hwin) as (r'&Hr'&_&Hs).
  simpl in Hs. rewrite decide_False in Hs by (intros Hne; by apply Hne). subst r'.
  assert (∀ n r, (n, r) ∈ replicas →
                 CodeReplica.content r = CodeReplica.content winning
                 ∧ CodeReplica.hash r = CodeReplica.hash winning) as Hsame.
  { intros n r Hin.
    destruct (decide (n = winning_replica_node)) as [->|Hn].
    - assert (r = winning) as ->; [|done].
      eapply (odict_NoDup_unique replicas winning_replica_node);
        [by rewrite Hkeys|done|by apply odict_get_elem_of].
    - destruct (Forall2_elem_of_r _ _ _ _ Hall Hin) as ([n0 r0]&_&Hk&Hs).
      simpl in Hk, Hs. subst n0. rewrite decide_True in Hs by done.
      by destruct Hs as (?&?&_). }
  eexists _, w', _. split; [exact Hres|]. split; [done|]. split; [done|].
  simpl. split; [done|]. split; [done|]. split; [done|]. split; [|done].
  apply replicas_consistent_iff. intros r1 r2 H1 H2. simpl in H1, H2.
  apply list_elem_of_fmap in H1 as ([n1 x1]&->&H1), H2 as ([n2 x2]&->&H2). simpl.
  destruct (Hsame n1 x1 H1) as [_ ->]. by destruct (Hsame n2 x2 H2) as [_ ->].
Qed.

Lemma resolve_conflict_contract_witness :
  ∃ self' w' metadata',
    resolve_conflict (after register_replicate_sync) "file_001" "edge_1"
      (world_after register_replicate_sync) = Ok (self', true, w')
    ∧ (∀ n r, (n, r) ∈ FileMetadata.replicas metadata' →
              CodeReplica.content r = "x = 2")
    ∧ FileMetadata.replicas_consistent metadata' = true
    ∧ FileMetadata.sync_state metadata' = SyncState.SYNCED.
Proof.
  set (edge := {| CodeReplica.node_id := "edge_1";
                  CodeReplica.node_type := NodeType.EDGE;
                  CodeReplica.content := "x = 2";
                  CodeReplica.hash := content_hash "x = 2";
                  CodeReplica.timestamp := 2; CodeReplica.version := 2 |}).
  set (metadata :=
         {| FileMetadata.file_id := "file_001"; FileMetadata.path := "test.py";
            FileMetadata.replicas :=
              [("local_1", CodeReplica.make "local_1" NodeType.LOCAL "x = 1"
                             EmptyString 0 1);
               ("edge_1", edge)];
            FileMetadata.sync_state := SyncState.PENDING;
            FileMetadata.guardian_id := None;
            FileMetadata.secondary_guardians := [];
            FileMetadata.access_log := [] |}).
  assert (files (after register_replicate_sync) !! "file_001" = Some metadata) as Hfile
    by (vm_compute; reflexivity).
  assert (NoDup (odict.keys (FileMetadata.replicas metadata))) as Hnd
    by (apply (bool_decide_unpack _); vm_compute; exact I).
  pose proof (resolve_conflict_contract (after register_replicate_sync) "file_001"
                "edge_1" (world_after register_replicate_sync) metadata Hfile Hnd) as H.
  assert (odict.get "edge_1" (FileMetadata.replicas metadata) = Some edge) as Hget
    by reflexivity.
  rewrite Hget in H.
  destruct H as (self'&w'&metadata'&Hrun&_&_&_&_&Hsame&Hcons&Hstate).
  exists self', w', metadata'. split; [exact Hrun|]. split; [|by split].
  intros n r Hin. by destruct (Hsame n r Hin) as [-> _].
Defined.



End replication_entries.

(** ** More on guardians *)
Section guardians_more.
  Import GuardianAgentSystem GuardianSpec.

  Local Open Scope string_scope.

(** What one [create_guardian] does to the two dicts. *)
Lemma create_guardian_spec self file_id node_id role w :
  ∃ self' agent w',
    create_guardian self file_id node_id role w = Ok (self', agent, w')
    ∧ clock w' = clock w ∧ clock_reads w' = clock_reads w
    ∧ GuardianAgent.file_id agent = file_id
    ∧ GuardianAgent.node_id agent = node_id
    ∧ GuardianAgent.role agent = role
    ∧ GuardianAgent.status agent = "active"
    ∧ agents self' = <[GuardianAgent.agent_id agent := agent]> (agents self)
    ∧ file_guardians self'
      = match file_guardians self !! file_id with
        | Some _ => file_guardians self
        | None => <[file_id := GuardianAgent.agent_id agent]> (file_guardians self)
        end.
Proof.
  unfold create_guardian, mbind, M_bind, uuid4_hex, mret, M_ret.
  eexists _, _, _. split; [reflexivity|]. simpl. repeat split.
  case_bool_decide as Hd.
  - apply elem_of_dom in Hd as [g ->]. done.
  - apply not_elem_of_dom in Hd. by rewrite Hd.
Qed.

Lemma create_guardian_keeps self file_id node_id role w self' agent w' :
  create_guardian self file_id node_id role w = Ok (self', agent, w') →
  (∀ f g, file_guardians self !! f = Some g → file_guardians self' !! f = Some g)
  ∧ (∀ a, is_Some (agents self !! a) → is_Some (agents self' !! a))
  ∧ (closed self → closed self').
Proof.
  intros Hrun.
  destruct (create_guardian_spec self file_id node_id role w)
    as (self1&agent1&w1&Hrun1&_&_&_&_&_&_&Hagents&Hfg).
  rewrite Hrun in Hrun1. injection Hrun1 as <- <- <-.
  assert (∀ a, is_Some (agents self !! a) → is_Some (agents self' !! a)) as Hgrow.
  { intros a Ha. rewrite Hagents.
    destruct (decide (GuardianAgent.agent_id agent = a)) as [<-|Hne].
    - rewrite lookup_insert_eq. by eexists.
    - by rewrite lookup_insert_ne. }
  assert (∀ f g, file_guardians self !! f = Some g → file_guardians self' !! f = Some g)
    as Hkeep.
  { intros f g Hf. rewrite Hfg.
    destruct (file_guardians self !! file_id) as [g0|] eqn:Hfid; [done|].
    rewrite lookup_insert_ne; [done|]. intros <-. congruence. }
  split; [done|]. split; [done|].
  intros Hclosed f g Hf. rewrite Hfg in Hf.
  destruct (file_guardians self !! file_id) as [g0|] eqn:Hfid.
  - apply Hgrow. by apply (Hclosed f g).
  - destruct (decide (file_id = f)) as [<-|Hne].
    + rewrite lookup_insert_eq in Hf. injection Hf as <-.
      rewrite Hagents, lookup_insert_eq. by eexists.
    + rewrite lookup_insert_ne in Hf by done. apply Hgrow. by apply (Hclosed f g).
Qed.

Lemma create_guardians_keeps requests : ∀ self w self' w',
  create_guardians self requests w = Ok (self', w') →
  (∀ f g, file_guardians self !! f = Some g → file_guardians self' !! f = Some g)
  ∧ (∀ a, is_Some (agents self !! a) → is_Some (agents self' !! a))
  ∧ (closed self → closed self').
Proof.
  induction requests as [|[[f0 n0] r0] requests IH]; intros self w self' w' Hrun.
  - injection Hrun as <- _. done.
  - cbn [create_guardians] in Hrun. bind_step in Hrun.
    destruct (create_guardian self f0 n0 r0 w) as [[[self1 agent] w1]| |] eqn:Hone;
      try done.
    destruct (create_guardian_keeps _ _ _ _ _ _ _ _ Hone) as (Hk1&Hg1&Hc1).
    destruct (IH _ _ _ _ Hrun) as (Hk2&Hg2&Hc2).
    split; [auto|]. split; auto.
Qed.

Lemma create_guardians_total requests : ∀ self w,
  ∃ self' w', create_guardians self requests w = Ok (self', w').
Proof.
  induction requests as [|[[f0 n0] r0] requests IH]; intros self w.
  - by eexists _, _.
  - destruct (create_guardian_spec self f0 n0 r0 w) as (self1&agent&w1&Hone&_).
    destruct (IH self1 w1) as (self'&w'&Hrest).
    exists self', w'. cbn [create_guardians]. bind_step. by rewrite Hone.
Qed.

(** X12: the first guardian created for a file is and stays its primary
    guardian: whatever guardians are created afterwards, for this file or
    for others and with whatever role, a later [monitor_file] on the file,
    once registered, raises nothing and reports the id of that first
    guardian together with the file's state, replica count and consistency
    flag. *)
Theorem first_guardian_stays_primary
    replication self file_id node_id role w self1 agent w1 requests self2 w2 w3 metadata :
  file_guardians self !! file_id = None →
  create_guardian self file_id node_id role w = Ok (self1, agent, w1) →
  create_guardians self1 requests w1 = Ok (self2, w2) →
  CodeReplicationManager.files replication !! file_id = Some metadata →
  file_guardians self2 !! file_id = Some (GuardianAgent.agent_id agent)
  ∧ ∃ snapshot,
      monitor_file replication self2 file_id w3 = Ok (Some snapshot, w3)
      ∧ Monitor.file_id snapshot = file_id
      ∧ Monitor.guardian_id snapshot = GuardianAgent.agent_id agent
      ∧ Monitor.sync_state snapshot = FileMetadata.sync_state metadata
      ∧ Monitor.replica_count snapshot = length (FileMetadata.replicas metadata)
      ∧ Monitor.replicas_consistent snapshot
        = FileMetadata.replicas_consistent metadata.
Proof.
  intros Hnone Hfirst Hrest Hfile.
  destruct (create_guardian_spec self file_id node_id role w)
    as (self1'&agent'&w1'&Hfirst'&_&_&_&_&_&_&Hagents&Hfg).
  rewrite Hfirst in Hfirst'. injection Hfirst' as <- <- <-.
  rewrite Hnone in Hfg.
  destruct (create_guardians_keeps _ _ _ _ _ Hrest) as (Hkeep&Hgrow&_).
  assert (file_guardians self2 !! file_id = Some (GuardianAgent.agent_id agent)) as Hprimary.
  { apply Hkeep. rewrite Hfg. apply lookup_insert_eq. }
  destruct (Hgrow (GuardianAgent.agent_id agent)) as [guardian Hguardian].
  { rewrite Hagents, lookup_insert_eq. by eexists. }
  split; [done|]. eexists. split.
  { unfold monitor_file.
    rewrite bool_decide_eq_true_2 by (apply elem_of_dom; by eexists). simpl.
    bind_step. unfold getitem at 1. rewrite Hprimary. simpl.
    bind_step. unfold getitem at 1. rewrite Hguardian. simpl.
    bind_step. unfold getitem at 1. rewrite Hfile. simpl. reflexivity. }
  done.
Qed.

Lemma first_guardian_stays_primary_witness :
  ∃ agent self2 w2 snapshot,
    create_guardians init
      [("file_001", "local_1", AgentRole.MONITOR);
       ("file_001", "edge_1", AgentRole.GUARDIAN);
       ("other", "edge_1", AgentRole.SYNC)] Fixture.world = Ok (self2, w2)
    ∧ GuardianAgent.role agent = AgentRole.MONITOR
    ∧ file_guardians self2 !! "file_001" = Some (GuardianAgent.agent_id agent)
    ∧ monitor_file (ReplicationSpec.after ReplicationSpec.register_replicate) self2
        "file_001" w2 = Ok (Some snapshot, w2)
    ∧ Monitor.guardian_id snapshot = GuardianAgent.agent_id agent
    ∧ Monitor.replica_count snapshot = 2.
Proof.
  destruct (create_guardian_spec init "file_001" "local_1" AgentRole.MONITOR Fixture.world)
    as (self1&agent&w1&Hfirst&_&_&_&_&Hrole&_).
  destruct (create_guardians_total
              [("file_001", "edge_1", AgentRole.GUARDIAN);
               ("other", "edge_1", AgentRole.SYNC)] self1 w1) as (self2&w2&Hrest).
  assert (∃ metadata,
            CodeReplicationManager.files
              (ReplicationSpec.after ReplicationSpec.register_replicate) !! "file_001"
            = Some metadata ∧ length (FileMetadata.replicas metadata) = 2)
    as (metadata&Hfile&Hlen) by (eexists; split; vm_compute; reflexivity).
  destruct (first_guardian_stays_primary
              (ReplicationSpec.after ReplicationSpec.register_replicate)
              init "file_001" "local_1" AgentRole.MONITOR Fixture.world self1 agent w1
              [("file_001", "edge_1", AgentRole.GUARDIAN);
               ("other", "edge_1", AgentRole.SYNC)] self2 w2 w2 metadata)
    as (Hprimary&snapshot&Hmon&_&Hgid&_&Hcount&_).
  - reflexivity.
  - exact Hfirst.
  - exact Hrest.
  - exact Hfile.
  - exists agent, self2, w2, snapshot. split.
    { cbn [create_guardians]. bind_step. rewrite Hfirst. exact Hrest. }
    split; [exact Hrole|]. split; [exact Hprimary|]. split; [exact Hmon|].
    split; [exact Hgid|]. by rewrite Hcount.
Defined.

(** X13: [add_secondary_guardian] succeeds exactly when the file is
    registered and the agent exists; a failed call changes nothing; a
    successful call leaves the agent in the file's list of secondary
    guardians, keeps every earlier entry in order, keeps a duplicate-free
    list duplicate-free, and touches neither the replicas, the state nor any
    other file; repeating the call changes nothing more. *)
Theorem add_secondary_guardian_contract replication self file_id agent_id replication' ok :
  add_secondary_guardian replication self file_id agent_id = (replication', ok) →
  (ok = true ↔ file_id ∈ dom (CodeReplicationManager.files replication)
              ∧ agent_id ∈ dom (agents self))
  ∧ (ok = false → replication' = replication)
  ∧ (ok = true →
     ∃ metadata metadata',
       CodeReplicationManager.files replication !! file_id = Some metadata
       ∧ CodeReplicationManager.files replication' !! file_id = Some metadata'
       ∧ agent_id ∈ FileMetadata.secondary_guardians metadata'
       ∧ FileMetadata.secondary_guardians metadata
         `prefix_of` FileMetadata.secondary_guardians metadata'
       ∧ (NoDup (FileMetadata.secondary_guardians metadata) →
          NoDup (FileMetadata.secondary_guardians metadata'))
       ∧ FileMetadata.replicas metadata' = FileMetadata.replicas metadata
       ∧ FileMetadata.sync_state metadata' = FileMetadata.sync_state metadata
       ∧ FileMetadata.guardian_id metadata' = FileMetadata.guardian_id metadata)
  ∧ (∀ other, other ≠ file_id →
       CodeReplicationManager.files replication' !! other
       = CodeReplicationManager.files replication !! other)
  ∧ CodeReplicationManager.sync_events replication'
    = CodeReplicationManager.sync_events replication
  ∧ add_secondary_guardian replication' self file_id agent_id = (replication', ok).
Proof.
  unfold add_secondary_guardian.
  destruct (CodeReplicationManager.files replication !! file_id) as [metadata|] eqn:Hfile.
  2: { intros [= <- <-]. rewrite Hfile.
       split; [split; [done|]|done].
       intros [Hin _]. apply elem_of_dom in Hin as [? ?]. congruence. }
  assert (file_id ∈ dom (CodeReplicationManager.files replication)) as Hdom
    by (apply elem_of_dom; by eexists).
  case_bool_decide as Hagent; simpl.
  2: { intros [= <- <-]. rewrite Hfile.
       split; [split; [done|]|done]. by intros [_ ?]. }
  case_bool_decide as Hsec.
  - intros [= <- <-]. rewrite Hfile.
    rewrite bool_decide_eq_true_2 by done.
    split; [done|]. split; [done|]. split; [|done].
    intros _. by exists metadata, metadata.
  - intros [= <- <-]. simpl. rewrite lookup_insert_eq.
    rewrite bool_decide_eq_true_2 by (simpl; set_solver).
    split; [done|]. split; [done|]. split.
    { intros _. eexists metadata, _. split; [done|]. split; [done|]. simpl.
      split; [set_solver|]. split; [by apply prefix_app_r|]. split; [|done].
      intros Hnd. apply NoDup_app. split; [done|]. split; [|apply NoDup_singleton].
      intros x Hx ->%list_elem_of_singleton. done. }
    split; [|done]. intros other Hne. by rewrite lookup_insert_ne.
Qed.

Lemma add_secondary_guardian_contract_witness :
  ∃ self agent w replication',
    create_guardian init "f1" "edge_1" AgentRole.MONITOR Fixture.world = Ok (self, agent, w)
    ∧ add_secondary_guardian (ReplicationSpec.after ReplicationSpec.register_replicate)
        self "file_001" (GuardianAgent.agent_id agent) = (replication', true)
    ∧ add_secondary_guardian replication' self "file_001" (GuardianAgent.agent_id agent)
      = (replication', true).
Proof.
  destruct (create_guardian_spec init "f1" "edge_1" AgentRole.MONITOR Fixture.world)
    as (self&agent&w&Hcreate&_&_&_&_&_&_&Hagents&_).
  destruct (add_secondary_guardian
              (ReplicationSpec.after ReplicationSpec.register_replicate)
              self "file_001" (GuardianAgent.agent_id agent)) as [replication' ok] eqn:Hadd.
  destruct (add_secondary_guardian_contract _ _ _ _ _ _ Hadd) as (Hok&_&_&_&_&Hagain).
  assert (ok = true) as ->.
  { apply Hok. split.
    - apply (bool_decide_unpack _). vm_compute. exact I.
    - rewrite Hagents. apply elem_of_dom. rewrite lookup_insert_eq. by eexists. }
  by exists self, agent, w, replication'.
Defined.

End guardians_more.

(** ** More on the execution router *)
Section first_least.
  Context {A K : Type} (key : A → K) (ltb : K → K → bool).
  Hypothesis ltb_trans : ∀ a b c, ltb a b = true → ltb b c = true → ltb a c = true.
  Hypothesis ltb_weak : ∀ a b c, ltb a b = true → ltb c b = false → ltb a c = true.

Lemma py_min_from_first (l : list A) : ∀ best,
  ∃ l1 l2,
    best :: l = l1 ++ py_min_from key ltb best l :: l2
    ∧ (∀ x, x ∈ l1 → ltb (key (py_min_from key ltb best l)) (key x) = true)
    ∧ (∀ x, x ∈ l2 → ltb (key x) (key (py_min_from key ltb best l)) = false).
Proof.
  induction l as [|y l IH]; intros best; simpl.
  - exists [], []. split; [done|]. split; intros x Hx; by apply elem_of_nil in Hx.
  - destruct (ltb (key y) (key best)) eqn:Hlt.
    + destruct (IH y) as (l1&l2&Heq&Hbefore&Hafter).
      exists (best :: l1), l2. split; [by rewrite Heq|]. split; [|done].
      intros x [->|Hx]%elem_of_cons; [|by apply Hbefore].
      destruct l1 as [|z l1]; simpl in Heq.
      * injection Heq as Hy _. by rewrite <- Hy.
      * injection Heq as <- _. eapply ltb_trans; [|exact Hlt].
        apply Hbefore. by left.
    + destruct (IH best) as (l1&l2&Heq&Hbefore&Hafter).
      destruct l1 as [|z l1]; simpl in Heq.
      * injection Heq as Hbest Hl. exists [], (y :: l2).
        split; [simpl; by rewrite <- Hbest, Hl|].
        split; [intros x Hx; by apply elem_of_nil in Hx|].
        intros x [->|Hx]%elem_of_cons; [by rewrite <- Hbest|by apply Hafter].
      * injection Heq as <- Hl. exists (best :: y :: l1), l2.
        split; [simpl; by rewrite <- Hl|]. split; [|done].
        intros x [->|[->|Hx]%elem_of_cons]%elem_of_cons.
        -- apply Hbefore. by left.
        -- eapply ltb_weak; [|exact Hlt]. apply Hbefore. by left.
        -- apply Hbefore. by right.
Qed.

Lemma filter_split (P : A → bool) (l : list A) : ∀ l1 m l2,
  filter (λ x, P x = true) l = l1 ++ m :: l2 →
  ∃ before after,
    l = before ++ m :: after ∧ P m = true
    ∧ filter (λ x, P x = true) before = l1
    ∧ filter (λ x, P x = true) after = l2.
Proof.
  induction l as [|y l IH]; intros l1 m l2 Heq.
  - by destruct l1.
  - rewrite filter_cons in Heq. destruct (decide (P y = true)) as [Hy|Hy].
    + destruct l1 as [|z l1]; simpl in Heq.
      * injection Heq as -> Hl. exists [], l. by rewrite filter_nil.
      * injection Heq as -> Hl. destruct (IH _ _ _ Hl) as (b&a&->&Hm&Hb&Ha).
        exists (z :: b), a. split; [done|]. split; [done|]. split; [|done].
        by rewrite filter_cons_True, Hb.
    + destruct (IH _ _ _ Heq) as (b&a&->&Hm&Hb&Ha).
      exists (y :: b), a. split; [done|]. split; [done|]. split; [|done].
      by rewrite filter_cons_False.
Qed.

Lemma py_min_first_least (P : A → bool) (l : list A) (m : A) :
  py_min key ltb (filter (λ x, P x = true) l) = Some m →
  RouterFacts.first_least key ltb P l m.
Proof.
  unfold py_min. destruct (filter _ l) as [|x0 rest] eqn:Hfilter; [done|].
  intros [= <-].
  destruct (py_min_from_first rest x0) as (l1&l2&Heq&Hbefore&Hafter).
  rewrite <- Hfilter in Heq.
  destruct (filter_split P l _ _ _ Heq) as (before&after&->&Hm&Hb&Ha).
  exists before, after. split; [done|]. split; [done|]. split.
  - intros x Hx HP. apply Hbefore. rewrite <- Hb. by apply list_elem_of_filter.
  - intros x Hx HP. apply Hafter. rewrite <- Ha. by apply list_elem_of_filter.
Qed.

Lemma py_min_none (P : A → bool) (l : list A) :
  py_min key ltb (filter (λ x, P x = true) l) = None →
  ∀ x, x ∈ l → P x = false.
Proof.
  unfold py_min. destruct (filter _ l) as [|x0 rest] eqn:Hfilter; [|done].
  intros _ x Hx. destruct (P x) eqn:HP; [|done].
  assert (x ∈ filter (λ x, P x = true) l) as Hin by by apply list_elem_of_filter.
  rewrite Hfilter in Hin. by apply elem_of_nil in Hin.
Qed.

End first_least.

Lemma Qltb_lt x y : Qltb x y = true ↔ (x < y)%Q.
Proof.
  unfold Qltb. rewrite Qlt_alt. destruct (x ?= y)%Q; split; congruence.
Qed.

Lemma Qltb_trans a b c : Qltb a b = true → Qltb b c = true → Qltb a c = true.
Proof. rewrite !Qltb_lt. apply Qlt_trans. Qed.

Lemma Qltb_weak a b c : Qltb a b = true → Qltb c b = false → Qltb a c = true.
Proof.
  intros Hab Hcb. apply Qltb_lt. apply Qltb_lt in Hab.
  apply Qlt_le_trans with b; [done|]. apply Qnot_lt_le. intros Hlt.
  apply Qltb_lt in Hlt. congruence.
Qed.

Section router_more.
  Import ExecutionRouter RouterFacts RouterSpec.

  Local Open Scope string_scope.
  Local Open Scope list_scope.

Lemma Zltb_trans (a b c : Z) : (a <? b)%Z = true → (b <? c)%Z = true → (a <? c)%Z = true.
Proof. rewrite !Z.ltb_lt. lia. Qed.

Lemma Zltb_weak (a b c : Z) : (a <? b)%Z = true → (c <? b)%Z = false → (a <? c)%Z = true.
Proof. rewrite !Z.ltb_lt, Z.ltb_ge. lia. Qed.

(** The plan that [plan_execution] builds for a registered file. *)
Lemma plan_execution_plan network replication file_id context developer_node w metadata :
  CodeReplicationManager.files replication !! file_id = Some metadata →
  ∃ plan w',
    plan_execution network replication file_id context developer_node w
    = Ok (Some plan, w')
    ∧ clock w' = clock w ∧ clock_reads w' = clock_reads w
    ∧ ExecutionPlan.primary_node plan = (select_nodes network context developer_node).1
    ∧ ExecutionPlan.backup_nodes plan = (select_nodes network context developer_node).2
    ∧ ExecutionPlan.file_id plan = file_id
    ∧ List.length (ExecutionPlan.steps plan) = 5%nat
    ∧ step_node plan 3 = Some (ExecutionPlan.primary_node plan)
    ∧ step_node plan 4
      = Some (match ExecutionPlan.backup_nodes plan with
              | b :: _ => Some b
              | [] => ExecutionPlan.primary_node plan
              end).
Proof.
  intros Hfile. unfold plan_execution.
  rewrite bool_decide_eq_true_2 by (apply elem_of_dom; by eexists). simpl.
  destruct (select_nodes network context developer_node) as [primary backups] eqn:Hsel.
  eexists _, _. split.
  { bind_step. simpl. bind_step. unfold getitem. rewrite Hfile. simpl. reflexivity. }
  repeat split.
Qed.

(** X14: with the edge context, whoever asks, the plan never has backup
    nodes and its primary node is the first of the available edge nodes of
    least [latency_ms], in registry order; it is absent exactly when no
    edge node is available. *)
Theorem plan_execution_edge_picks_first_fastest
    network replication file_id developer_node w :
  file_id ∈ dom (CodeReplicationManager.files replication) →
  ∃ plan w',
    plan_execution network replication file_id ExecutionContext.EDGE developer_node w
    = Ok (Some plan, w')
    ∧ ExecutionPlan.backup_nodes plan = []
    ∧ match ExecutionPlan.primary_node plan with
      | Some node_id =>
          ∃ n, MeshNode.node_id n = node_id
               ∧ first_least MeshNode.latency_ms Z.ltb (available_of_type NodeType.EDGE)
                   (odict.values (MeshNetworkLayer.nodes network)) n
      | None =>
          ∀ n, n ∈ odict.values (MeshNetworkLayer.nodes network) →
               available_of_type NodeType.EDGE n = false
      end.
Proof.
  intros [metadata Hfile]%elem_of_dom.
  destruct (plan_execution_plan network replication file_id ExecutionContext.EDGE
              developer_node w metadata Hfile)
    as (plan&w'&Hplan&_&_&Hprimary&Hbackup&_).
  exists plan, w'. split; [done|]. split; [done|].
  rewrite Hprimary. cbn [select_nodes fst]. unfold nodes_where.
  destruct (py_min MeshNode.latency_ms Z.ltb _) as [n|] eqn:Hmin; simpl.
  - exists n. split; [done|].
    by apply (py_min_first_least _ _ Zltb_trans Zltb_weak (available_of_type NodeType.EDGE)).
  - by apply (py_min_none MeshNode.latency_ms Z.ltb (available_of_type NodeType.EDGE)).
Qed.

Lemma plan_execution_edge_picks_first_fastest_witness :
  ∃ plan w',
    plan_execution mixed_network (registered_on mixed_network) "file_001"
      ExecutionContext.EDGE "local_1" Fixture.world = Ok (Some plan, w')
    ∧ ExecutionPlan.backup_nodes plan = []
    ∧ match ExecutionPlan.primary_node plan with
      | Some node_id =>
          ∃ n, MeshNode.node_id n = node_id
               ∧ first_least MeshNode.latency_ms Z.ltb (available_of_type NodeType.EDGE)
                   (odict.values (MeshNetworkLayer.nodes mixed_network)) n
      | None =>
          ∀ n, n ∈ odict.values (MeshNetworkLayer.nodes mixed_network) →
               available_of_type NodeType.EDGE n = false
      end.
Proof.
  apply (plan_execution_edge_picks_first_fastest mixed_network
           (registered_on mixed_network) "file_001" "local_1" Fixture.world).
  apply (bool_decide_unpack _). vm_compute. exact I.
Defined.

(** X15: with the cloud context, whoever asks, the plan never has backup
    nodes and its primary node is the first of the available cloud nodes of
    least load, in registry order; it is absent exactly when no cloud node
    is available. *)
Theorem plan_execution_cloud_picks_first_least_loaded
    network replication file_id developer_node w :
  file_id ∈ dom (CodeReplicationManager.files replication) →
  ∃ plan w',
    plan_execution network replication file_id ExecutionContext.CLOUD developer_node w
    = Ok (Some plan, w')
    ∧ ExecutionPlan.backup_nodes plan = []
    ∧ match ExecutionPlan.primary_node plan with
      | Some node_id =>
          ∃ n, MeshNode.node_id n = node_id
               ∧ first_least MeshNode.load Qltb (available_of_type NodeType.CLOUD)
                   (odict.values (MeshNetworkLayer.nodes network)) n
      | None =>
          ∀ n, n ∈ odict.values (MeshNetworkLayer.nodes network) →
               available_of_type NodeType.CLOUD n = false
      end.
Proof.
  intros [metadata Hfile]%elem_of_dom.
  destruct (plan_execution_plan network replication file_id ExecutionContext.CLOUD
              developer_node w metadata Hfile)
    as (plan&w'&Hplan&_&_&Hprimary&Hbackup&_).
  exists plan, w'. split; [done|]. split; [done|].
  rewrite Hprimary. cbn [select_nodes fst]. unfold nodes_where.
  destruct (py_min MeshNode.load Qltb _) as [n|] eqn:Hmin; simpl.
  - exists n. split; [done|].
    by apply (py_min_first_least _ _ Qltb_trans Qltb_weak (available_of_type NodeType.CLOUD)).
  - by apply (py_min_none MeshNode.load Qltb (available_of_type NodeType.CLOUD)).
Qed.

Lemma plan_execution_cloud_picks_first_least_loaded_witness :
  ∃ plan w',
    plan_execution mixed_network (registered_on mixed_network) "file_001"
      ExecutionContext.CLOUD "local_1" Fixture.world = Ok (Some plan, w')
    ∧ ExecutionPlan.backup_nodes plan = []
    ∧ match ExecutionPlan.primary_node plan with
      | Some node_id =>
          ∃ n, MeshNode.node_id n = node_id
               ∧ first_least MeshNode.load Qltb (available_of_type NodeType.CLOUD)
                   (odict.values (MeshNetworkLayer.nodes mixed_network)) n
      | None =>
          ∀ n, n ∈ odict.values (MeshNetworkLayer.nodes mixed_network) →
               available_of_type NodeType.CLOUD n = false
      end.
Proof.
  apply (plan_execution_cloud_picks_first_least_loaded mixed_network
           (registered_on mixed_network) "file_001" "local_1" Fixture.world).
  apply (bool_decide_unpack _). vm_compute. exact I.
Defined.

Lemma built_wf net : MeshSpec.built net → PathSpec.wf net.
Proof.
  induction 1 as [|net node _ IH|net a b l bw w0 net' ok w' _ IH Hrun].
  - apply wf_init.
  - by apply wf_add_node.
  - by eapply wf_connect_nodes.
Qed.

Lemma built_keyed net : MeshSpec.built net → MeshSpec.keyed net.
Proof.
  induction 1 as [|net node _ IH|net a b l bw w0 net' ok w' _ IH Hrun].
  - intros k n Hin. by apply elem_of_nil in Hin.
  - by apply keyed_add_node.
  - destruct (connect_nodes_spec _ _ _ _ _ _ _ _ _ Hrun) as (Hnodes&_).
    intros k n. rewrite Hnodes. apply IH.
Qed.

(** In a registry keyed by node id the ids of the values are the keys. *)
Lemma keyed_node_ids net :
  MeshSpec.keyed net →
  MeshNode.node_id <$> odict.values (MeshNetworkLayer.nodes net)
  = odict.keys (MeshNetworkLayer.nodes net).
Proof.
  unfold MeshSpec.keyed, odict.values, odict.keys.
  induction (MeshNetworkLayer.nodes net) as [|[k n] d IH]; intros Hkeyed; [done|].
  simpl. rewrite (Hkeyed k n) by by left. f_equal. apply IH.
  intros k' n' Hin. apply Hkeyed. by right.
Qed.

(** The ids of the available nodes other than [node_id], in registry
    order: each once, each registered. *)
Lemma available_others_sublist net node_id :
  MeshSpec.built net →
  MeshNode.node_id <$> nodes_where net (available_other node_id)
  `sublist_of` odict.keys (MeshNetworkLayer.nodes net).
Proof.
  intros Hb. rewrite <- (keyed_node_ids net) by by apply built_keyed.
  apply fmap_sublist. unfold nodes_where. apply sublist_filter.
Qed.

(** X16: with the hybrid context the primary node is the developer node,
    whether or not it is registered or available; the backup nodes are at
    most two nodes of the registry, distinct, available and different from
    the developer node, and there is none only when no other node is
    available; the code executes on the developer node and is verified on
    the first backup node if there is one, on the developer node
    otherwise. *)
Theorem plan_execution_hybrid_backups network replication file_id developer_node w :
  MeshSpec.built network →
  file_id ∈ dom (CodeReplicationManager.files replication) →
  ∃ plan w',
    plan_execution network replication file_id ExecutionContext.HYBRID developer_node w
    = Ok (Some plan, w')
    ∧ ExecutionPlan.primary_node plan = Some developer_node
    ∧ (List.length (ExecutionPlan.backup_nodes plan) ≤ 2)%nat
    ∧ NoDup (ExecutionPlan.backup_nodes plan)
    ∧ (developer_node ∉ ExecutionPlan.backup_nodes plan)
    ∧ (∀ b, b ∈ ExecutionPlan.backup_nodes plan →
            ∃ n, odict.get b (MeshNetworkLayer.nodes network) = Some n
                 ∧ MeshNode.is_available n = true)
    ∧ (ExecutionPlan.backup_nodes plan = [] ↔
       (∀ n, n ∈ odict.values (MeshNetworkLayer.nodes network) →
             available_other developer_node n = false))
    ∧ step_node plan 3 = Some (Some developer_node)
    ∧ step_node plan 4
      = Some (Some (hd developer_node (ExecutionPlan.backup_nodes plan))).
Proof.
  intros Hbuilt [metadata Hfile]%elem_of_dom.
  destruct (plan_execution_plan network replication file_id ExecutionContext.HYBRID
              developer_node w metadata Hfile)
    as (plan&w'&Hplan&_&_&Hprimary&Hbackup&_&_&Hstep3&Hstep4).
  exists plan, w'. split; [done|].
  rewrite Hstep3, Hstep4, Hprimary, Hbackup. cbn [select_nodes fst snd].
  fold (available_other developer_node).
  set (others := MeshNode.node_id <$> nodes_where network (available_other developer_node)).
  pose proof (available_others_sublist network developer_node Hbuilt) as Hsub.
  fold others in Hsub.
  destruct (built_wf network Hbuilt) as [Hnodup _].
  pose proof (built_keyed network Hbuilt) as Hkeyed.
  assert (∀ b, b ∈ others →
               ∃ n, n ∈ odict.values (MeshNetworkLayer.nodes network)
                    ∧ MeshNode.node_id n = b
                    ∧ available_other developer_node n = true) as Hothers.
  { intros b (n&->&[Hn Hin]%list_elem_of_filter)%list_elem_of_fmap. by exists n. }
  split; [done|]. split; [rewrite length_take; lia|].
  split; [eapply sublist_NoDup; [|apply sublist_take]; by eapply sublist_NoDup|].
  split.
  { intros Hin%subseteq_take. destruct (Hothers _ Hin) as (n&_&Hid&Hav).
    unfold available_other in Hav. apply andb_true_iff in Hav as [Hne _].
    apply negb_true_iff, bool_decide_eq_false in Hne. done. }
  split.
  { intros b Hin%subseteq_take. destruct (Hothers _ Hin) as (n&Hn&Hid&Hav).
    apply list_elem_of_fmap in Hn as ([k n']&->&Hn). simpl in *.
    pose proof (Hkeyed _ _ Hn) as Hk. rewrite Hid in Hk. subst k.
    exists n'. split.
    - destruct (odict.get b (MeshNetworkLayer.nodes network)) as [n0|] eqn:Hget.
      + apply odict_get_elem_of in Hget.
        by rewrite (odict_NoDup_unique _ _ _ _ Hnodup Hget Hn).
      + exfalso. assert (odict.mem b (MeshNetworkLayer.nodes network) = true) as Hmem.
        { apply bool_decide_eq_true. apply list_elem_of_fmap. by exists (b, n'). }
        apply odict_mem_get in Hmem as [? ?]. congruence.
    - unfold available_other in Hav. by apply andb_true_iff in Hav as [_ ?]. }
  split.
  { split.
    - intros Hnil n Hn. destruct (available_other developer_node n) eqn:Hav; [|done].
      assert (MeshNode.node_id n ∈ others) as Hin.
      { apply list_elem_of_fmap. exists n. split; [done|].
        by apply list_elem_of_filter. }
      destruct others as [|b rest]; [by apply elem_of_nil in Hin|done].
    - intros Hnone. destruct others as [|b rest] eqn:Ho; [done|].
      destruct (Hothers b) as (n&Hn&_&Hav); [by left|].
      rewrite (Hnone n Hn) in Hav. done. }
  split; [done|]. by destruct others as [|b [|b' rest]].
Qed.

Lemma plan_execution_hybrid_backups_witness :
  ∃ plan w',
    plan_execution mixed_network (registered_on mixed_network) "file_001"
      ExecutionContext.HYBRID "edge_a" Fixture.world = Ok (Some plan, w')
    ∧ ExecutionPlan.primary_node plan = Some "edge_a"
    ∧ ExecutionPlan.backup_nodes plan = ["local_1"; "edge_c"].
Proof.
  destruct (plan_execution_hybrid_backups mixed_network (registered_on mixed_network)
              "file_001" "edge_a" Fixture.world) as (plan&w'&Hplan&Hprimary&_).
  - repeat apply MeshSpec.built_add_node. apply MeshSpec.built_init.
  - apply (bool_decide_unpack _). vm_compute. exact I.
  - exists plan, w'. split; [exact Hplan|]. split; [exact Hprimary|].
    assert (plan_execution mixed_network (registered_on mixed_network) "file_001"
              ExecutionContext.HYBRID "edge_a" Fixture.world
            = Ok (Some plan, w')
            → ExecutionPlan.backup_nodes plan = ["local_1"; "edge_c"]) as Hbackups.
    { vm_compute. intros [= <- _]. reflexivity. }
    exact (Hbackups Hplan).
Defined.

End router_more.

(** ** The coordinator *)
Section coordinator_more.
  Import MeshIDECoordinator CodeExecution CoordinatorFacts GuardianSpec ReplicaFacts.

  Local Open Scope string_scope.
  Local Open Scope list_scope.

(** X17: [execute_code] on an unknown file reports that no plan could be
    created and changes nothing; on a registered file it draws one uuid and,
    if the file has a replica, reports the status executed with five steps
    completed and appends exactly that record to the router's history, for
    every context and every developer node, whether or not the plan has a
    primary node; only the history changes. *)
Theorem execute_code_outcome self file_id context developer_node w :
  match CodeReplicationManager.files (replication self) !! file_id with
  | None =>
      execute_code self file_id context developer_node w
      = Ok (self, error "Could not create execution plan", w)
  | Some metadata =>
      ∃ w', uuid_reads w' = S (uuid_reads w) ∧ clock_reads w' = clock_reads w
      ∧ match FileMetadata.replicas metadata with
        | [] =>
            execute_code self file_id context developer_node w
            = Ok (self, error "No code replica found", w')
        | _ :: _ =>
            ∃ self' record,
              execute_code self file_id context developer_node w
              = Ok (self', executed record, w')
              ∧ Execution.status record = "executed"
              ∧ Execution.steps_completed record = 5%nat
              ∧ Execution.file_id record = file_id
              ∧ ExecutionRouter.execution_history (router self')
                = ExecutionRouter.execution_history (router self) ++ [record]
              ∧ network self' = network self
              ∧ replication self' = replication self
              ∧ guardians self' = guardians self
        end
  end.
Proof.
  unfold execute_code.
  destruct (CodeReplicationManager.files (replication self) !! file_id)
    as [metadata|] eqn:Hfile.
  2:{ bind_step. unfold ExecutionRouter.plan_execution.
      rewrite bool_decide_eq_false_2 by (by apply not_elem_of_dom). reflexivity. }
  destruct (plan_execution_plan (network self) (replication self) file_id context
              developer_node w metadata Hfile)
    as (plan&w'&Hplan&_&Hreads&_&_&Hid&Hlen&_).
  exists w'. split.
  { unfold ExecutionRouter.plan_execution in Hplan.
    rewrite bool_decide_eq_true_2 in Hplan by (apply elem_of_dom; by eexists).
    simpl in Hplan. bind_step in Hplan. simpl in Hplan.
    bind_step in Hplan. unfold getitem in Hplan. rewrite Hfile in Hplan.
    simpl in Hplan. destruct (ExecutionRouter.select_nodes _ _ _).
    by injection Hplan as _ <-. }
  split; [done|].
  destruct (FileMetadata.replicas metadata) as [|e rest] eqn:Hreplicas.
  - bind_step. rewrite Hplan. bind_step. unfold getitem. rewrite Hfile. simpl.
    unfold FileMetadata.get_primary_replica. by rewrite Hreplicas.
  - destruct (get_primary_replica_is_Some metadata) as [primary Hprimary];
      [by rewrite Hreplicas|].
    eexists _, _. split.
    { bind_step. rewrite Hplan. bind_step. unfold getitem. rewrite Hfile. simpl.
      rewrite Hprimary. reflexivity. }
    simpl. by rewrite Hlen, Hid.
Qed.

(** *** [add_file] *)

Lemma add_secondary_guardian_exact replication guardians file_id agent_id metadata :
  CodeReplicationManager.files replication !! file_id = Some metadata →
  is_Some (GuardianAgentSystem.agents guardians !! agent_id) →
  GuardianAgentSystem.add_secondary_guardian replication guardians file_id agent_id
  = (CodeReplicationManager.with_files replication
       (<[file_id :=
            FileMetadata.with_secondary_guardians metadata
              (if bool_decide (agent_id ∈ FileMetadata.secondary_guardians metadata)
               then FileMetadata.secondary_guardians metadata
               else FileMetadata.secondary_guardians metadata ++ [agent_id])]>
          (CodeReplicationManager.files replication)), true).
Proof.
  intros Hfile Hagent. unfold GuardianAgentSystem.add_secondary_guardian.
  rewrite Hfile. rewrite bool_decide_eq_true_2 by by apply elem_of_dom. simpl.
  case_bool_decide; [|done].
  f_equal. destruct replication as [files events factor], metadata. simpl in *.
  unfold CodeReplicationManager.with_files, FileMetadata.with_secondary_guardians.
  simpl. by rewrite insert_id.
Qed.

Lemma secondary_loop_spec file_id nodes : ∀ replication guardians w metadata,
  CodeReplicationManager.files replication !! file_id = Some metadata →
  ∃ guardians' w' secondary,
    secondary_loop file_id replication guardians nodes w
    = Ok (CodeReplicationManager.with_files replication
            (<[file_id := FileMetadata.with_secondary_guardians metadata secondary]>
               (CodeReplicationManager.files replication)), guardians', w')
    ∧ (∀ f g, GuardianAgentSystem.file_guardians guardians !! f = Some g →
              GuardianAgentSystem.file_guardians guardians' !! f = Some g)
    ∧ (∀ a, is_Some (GuardianAgentSystem.agents guardians !! a) →
            is_Some (GuardianAgentSystem.agents guardians' !! a))
    ∧ (closed guardians → closed guardians')
    ∧ (∀ a, a ∈ secondary →
            a ∈ FileMetadata.secondary_guardians metadata
            ∨ is_Some (GuardianAgentSystem.agents guardians' !! a))
    ∧ FileMetadata.secondary_guardians metadata `prefix_of` secondary
    ∧ (NoDup (FileMetadata.secondary_guardians metadata) → NoDup secondary)
    ∧ (nodes ≠ [] → secondary ≠ []).
Proof.
  induction nodes as [|node_id nodes IH]; intros replication guardians w metadata Hfile.
  - exists guardians, w, (FileMetadata.secondary_guardians metadata). split.
    { simpl. unfold mret, M_ret. do 3 f_equal.
      destruct replication as [files events factor], metadata. simpl in *.
      unfold CodeReplicationManager.with_files, FileMetadata.with_secondary_guardians.
      simpl. by rewrite insert_id. }
    split; [done|]. split; [done|]. split; [done|]. split; [by left|]. done.
  - destruct (create_guardian_spec guardians file_id node_id AgentRole.MONITOR w)
      as (guardians1&agent&w1&Hcreate&_&_&_&_&_&_&Hagents&_).
    destruct (create_guardian_keeps _ _ _ _ _ _ _ _ Hcreate) as (Hk1&Hg1&Hc1).
    assert (is_Some (GuardianAgentSystem.agents guardians1
                       !! GuardianAgent.agent_id agent)) as Hagent.
    { rewrite Hagents, lookup_insert_eq. by eexists. }
    set (secondary1 :=
           if bool_decide (GuardianAgent.agent_id agent
                           ∈ FileMetadata.secondary_guardians metadata)
           then FileMetadata.secondary_guardians metadata
           else FileMetadata.secondary_guardians metadata ++ [GuardianAgent.agent_id agent]).
    set (metadata1 := FileMetadata.with_secondary_guardians metadata secondary1).
    set (replication1 :=
           CodeReplicationManager.with_files replication
             (<[file_id := metadata1]> (CodeReplicationManager.files replication))).
    assert (CodeReplicationManager.files replication1 !! file_id = Some metadata1)
      as Hfile1 by apply lookup_insert_eq.
    destruct (IH replication1 guardians1 w1 metadata1 Hfile1)
      as (guardians'&w'&secondary&Hloop&Hk2&Hg2&Hc2&Hsec&Hprefix&Hnodup&_).
    assert (GuardianAgent.agent_id agent ∈ secondary1
            ∧ FileMetadata.secondary_guardians metadata `prefix_of` secondary1
            ∧ (NoDup (FileMetadata.secondary_guardians metadata) → NoDup secondary1)
            ∧ ∀ a, a ∈ secondary1 →
                   a ∈ FileMetadata.secondary_guardians metadata
                   ∨ a = GuardianAgent.agent_id agent) as (Hin1&Hprefix1&Hnodup1&Hsec1).
    { unfold secondary1. case_bool_decide as Hd.
      - split; [done|]. split; [done|]. split; [done|]. intros a Ha. by left.
      - split; [set_solver|]. split; [by apply prefix_app_r|]. split.
        + intros Hnd. apply NoDup_app. split; [done|]. split; [|apply NoDup_singleton].
          by intros x Hx ->%list_elem_of_singleton.
        + intros a [Ha|Ha%list_elem_of_singleton]%elem_of_app; [by left|by right]. }
    exists guardians', w', secondary. split.
    { cbn [secondary_loop]. bind_step. rewrite Hcreate.
      rewrite (add_secondary_guardian_exact replication guardians1 file_id
                 (GuardianAgent.agent_id agent) metadata Hfile Hagent).
      fold secondary1 metadata1 replication1. rewrite Hloop.
      do 3 f_equal. unfold replication1, CodeReplicationManager.with_files. simpl.
      by rewrite insert_insert_eq. }
    split; [auto|]. split; [auto|]. split; [auto|]. split.
    { intros a Ha. destruct (Hsec a Ha) as [Ha1|Ha1]; [|by right].
      destruct (Hsec1 a Ha1) as [?| ->]; [by left|right]. by apply Hg2. }
    split; [by etrans|]. split; [auto|].
    intros _ ->. simpl in Hprefix. apply prefix_nil_inv in Hprefix.
    rewrite Hprefix in Hin1. by apply elem_of_nil in Hin1.
Qed.





(** X19: [add_file] of a path that is already in the mesh still returns
    the file id, but the content given is ignored: the outcome is the same
    for any other content, the replicas that existed stay as they are, in
    place, and every replica of the file holds a content that a replica held
    before.  The primary node given is not checked in this case and nothing
    is raised. *)
Theorem add_file_again_ignores_content self path content content' primary_node w metadata :
  CodeReplicationManager.files (replication self) !! file_id_of_path path
  = Some metadata →
  add_file self path content primary_node w = add_file self path content' primary_node w
  ∧ ∃ self' w' metadata',
      add_file self path content primary_node w
      = Ok (self', Some (file_id_of_path path), w')
      ∧ CodeReplicationManager.files (replication self') !! file_id_of_path path
        = Some metadata'
      ∧ FileMetadata.path metadata' = FileMetadata.path metadata
      ∧ FileMetadata.replicas metadata `prefix_of` FileMetadata.replicas metadata'
      ∧ ∀ r', r' ∈ odict.values (FileMetadata.replicas metadata') →
              ∃ r, r ∈ odict.values (FileMetadata.replicas metadata)
                   ∧ CodeReplica.content r' = CodeReplica.content r.
Proof.
  intros Hfile.
  assert (∀ c, CodeReplicationManager.register_file (network self) (replication self)
                 (file_id_of_path path) path c primary_node w
               = Ok (replication self, false, w)) as Hregister.
  { intros c. unfold CodeReplicationManager.register_file.
    by rewrite bool_decide_eq_true_2 by (apply elem_of_dom; by eexists). }
  split.
  { unfold add_file, mbind. unfold M_bind at 1. rewrite (Hregister content).
    symmetry. unfold M_bind at 1. by rewrite (Hregister content'). }
  set (file_id := file_id_of_path path) in *.
  destruct (create_guardian_spec (guardians self) file_id primary_node
              AgentRole.GUARDIAN w) as (guardians1&agent&w1&Hcreate&_).
  set (targets :=
         take 2 (MeshNode.node_id <$>
                   ExecutionRouter.nodes_where (network self) (λ n,
                     negb (bool_decide (MeshNode.node_id n = primary_node))
                     && MeshNode.is_available n))).
  assert (∃ replication2 w2 metadata2,
            CodeReplicationManager.replicate_file (network self) (replication self)
              file_id targets w1 = Ok (replication2, w2)
            ∧ CodeReplicationManager.files replication2.1 !! file_id = Some metadata2
            ∧ FileMetadata.path metadata2 = FileMetadata.path metadata
            ∧ FileMetadata.replicas metadata `prefix_of` FileMetadata.replicas metadata2
            ∧ ∀ r', r' ∈ odict.values (FileMetadata.replicas metadata2) →
                    ∃ r, r ∈ odict.values (FileMetadata.replicas metadata)
                         ∧ CodeReplica.content r' = CodeReplica.content r)
    as (replication2&w2&metadata2&Hreplicate&Hfile2&Hpath&Hprefix&Hcontents).
  { unfold CodeReplicationManager.replicate_file. rewrite Hfile.
    destruct (FileMetadata.get_primary_replica metadata) as [primary|] eqn:Hprimary.
    - destruct (replicate_loop_spec (network self) primary
                  (FileMetadata.replicas metadata) targets w1) as (replicas'&w2&Hloop&_&_).
      destruct (replicate_loop_exact _ _ _ _ _ _ _ Hloop) as (added&->&_&Hadded).
      eexists _, w2, _. split; [bind_step; by rewrite Hloop|].
      split; [apply lookup_insert_eq|]. split; [done|]. split; [by apply prefix_app_r|].
      simpl. intros r' Hr'. unfold odict.values in Hr'. rewrite fmap_app in Hr'.
      apply elem_of_app in Hr' as [Hr'|Hr']; [by exists r'|].
      exists primary. split; [by apply get_primary_replica_elem_of|].
      apply list_elem_of_fmap in Hr' as (e&->&He). rewrite Forall_forall in Hadded.
      destruct (Hadded e He) as (node&t&_&->). done.
    - eexists _, w1, metadata. split; [reflexivity|]. split; [done|]. split; [done|].
      split; [done|]. intros r' Hr'. by exists r'. }
  destruct replication2 as [replication2 ok2]. simpl in Hfile2.
  destruct (secondary_loop_spec file_id targets replication2 guardians1 w2 metadata2 Hfile2)
    as (guardians2&w3&secondary2&Hsecondary2&_).
  eexists _, w3, _. split.
  { unfold add_file. fold file_id. bind_step. rewrite Hregister.
    bind_step. rewrite Hcreate. fold targets.
    bind_step. rewrite Hreplicate. bind_step. rewrite Hsecondary2. reflexivity. }
  simpl. split; [apply lookup_insert_eq|]. done.
Qed.

Lemma add_file_again_ignores_content_witness :
  ∃ first w1 metadata,
    add_file RouterSpec.coordinator "/src/main.py" "print(1)" "local_1" Fixture.world
    = Ok (first, Some (file_id_of_path "/src/main.py"), w1)
    ∧ CodeReplicationManager.files (replication first) !! file_id_of_path "/src/main.py"
      = Some metadata
    ∧ add_file first "/src/main.py" "print(2)" "nowhere" w1
      = add_file first "/src/main.py" "print(1)" "nowhere" w1.
Proof.
  assert (∃ first w1 metadata,
            add_file RouterSpec.coordinator "/src/main.py" "print(1)" "local_1"
              Fixture.world
            = Ok (first, Some (file_id_of_path "/src/main.py"), w1)
            ∧ CodeReplicationManager.files (replication first)
                !! file_id_of_path "/src/main.py" = Some metadata)
    as (first&w1&metadata&Hrun&Hfile).
  { eexists _, _, _. split; vm_compute; reflexivity. }
  exists first, w1, metadata. split; [exact Hrun|]. split; [exact Hfile|].
  exact (proj1 (add_file_again_ignores_content first "/src/main.py" "print(2)" "print(1)"
                  "nowhere" w1 metadata Hfile)).
Defined.

End coordinator_more.

(** ** The file manager *)
Section file_manager.
  Import MeshFileManager ReplicationSpec ReplicaLoops CoordinatorFacts.

  Local Open Scope string_scope.
  Local Open Scope list_scope.





End file_manager.

(** ** Mesh initialisation *)
Section initialize_mesh.
  Import MeshNetworkLayer PathSpec MeshSpec MeshInit MeshInitFacts.

  Local Open Scope string_scope.
  Local Open Scope list_scope.

Lemma node_type_of_name_valid name :
  valid_type_name name → ∃ node_type, ∀ w, node_type_of_name name w = Ok (node_type, w).
Proof.
  unfold valid_type_name. rewrite !elem_of_cons, elem_of_nil.
  intros [->|[->|[->|[->|[->|[]]]]]]; eexists; intros w; reflexivity.
Qed.

Lemma node_type_of_name_invalid name w :
  ¬ valid_type_name name → node_type_of_name name w = Raise (KeyError name).
Proof.
  unfold valid_type_name. rewrite !elem_of_cons, elem_of_nil. intros Hno.
  unfold node_type_of_name. repeat (destruct (decide _); [tauto|]). done.
Qed.

Lemma node_of_config_valid config w :
  valid config →
  ∃ node w',
    node_of_config config w = Ok (node, w')
    ∧ clock w' = clock w ∧ clock_reads w' = clock_reads w
    ∧ ∀ node_id, NodeConfig.node_id config = Some node_id →
                 MeshNode.node_id node = node_id.
Proof.
  intros (name&Hname&Hvalid).
  destruct (node_type_of_name_valid name Hvalid) as [node_type Htype].
  eexists _, _. split.
  { unfold node_of_config. bind_step. simpl. rewrite Hname.
    bind_step. simpl. bind_step. rewrite Htype. reflexivity. }
  simpl. split; [done|]. split; [done|]. by intros node_id ->.
Qed.

Lemma node_of_config_invalid config w :
  ¬ valid config →
  node_of_config config w
  = Raise (KeyError (default "node_type" (NodeConfig.node_type config))).
Proof.
  intros Hinvalid. unfold node_of_config. bind_step. simpl.
  destruct (NodeConfig.node_type config) as [name|] eqn:Hname; [|done].
  bind_step. simpl. bind_step. rewrite node_type_of_name_invalid; [done|].
  intros Hvalid. apply Hinvalid. by exists name.
Qed.

Lemma registered_add_node_iff net node n :
  registered (add_node net node).1 n ↔ registered net n ∨ n = MeshNode.node_id node.
Proof.
  unfold add_node, registered.
  destruct (odict.mem (MeshNode.node_id node) (nodes net)) eqn:Hmem; simpl.
  - split; [by left|]. intros [?| ->]; [done|]. by apply odict_mem_registered.
  - rewrite (odict_keys_set_new _ _ _ Hmem). rewrite elem_of_app, list_elem_of_singleton.
    done.
Qed.

Lemma keys_add_node_prefix net node :
  odict.keys (nodes net) `prefix_of` odict.keys (nodes (add_node net node).1).
Proof.
  unfold add_node.
  destruct (odict.mem (MeshNode.node_id node) (nodes net)) eqn:Hmem; simpl; [done|].
  rewrite (odict_keys_set_new _ _ _ Hmem). by apply prefix_app_r.
Qed.

(** The first loop of [initialize_mesh] completes on configs that all name
    a node type, and raises at the first one that does not. *)
Lemma add_configs_total node_configs : ∀ net w,
  Forall valid node_configs →
  ∃ net' w', add_configs net node_configs w = Ok (net', w').
Proof.
  induction node_configs as [|config node_configs IH]; intros net w Hvalid.
  - by exists net, w.
  - apply Forall_cons in Hvalid as [Hconfig Hvalid].
    destruct (node_of_config_valid config w Hconfig) as (node&w1&Hnode&_).
    destruct (IH (add_node net node).1 w1 Hvalid) as (net'&w'&Hrun).
    exists net', w'. cbn [add_configs]. bind_step. by rewrite Hnode.
Qed.

Lemma add_configs_raises good : ∀ net w bad rest,
  Forall valid good → ¬ valid bad →
  add_configs net (good ++ bad :: rest) w
  = Raise (KeyError (default "node_type" (NodeConfig.node_type bad))).
Proof.
  induction good as [|config good IH]; intros net w bad rest Hvalid Hbad.
  - cbn [app add_configs]. bind_step. by rewrite node_of_config_invalid.
  - apply Forall_cons in Hvalid as [Hconfig Hvalid].
    destruct (node_of_config_valid config w Hconfig) as (node&w1&Hnode&_).
    cbn [app add_configs]. bind_step. rewrite Hnode. by apply IH.
Qed.

Lemma add_configs_spec node_configs : ∀ net w net' w',
  built net →
  add_configs net node_configs w = Ok (net', w') →
  built net'
  ∧ odict.keys (nodes net) `prefix_of` odict.keys (nodes net')
  ∧ (∀ u v, link net' u v ↔ link net u v)
  ∧ (∀ u v, latency net' u v = latency net u v)
  ∧ ∀ c node_id, c ∈ node_configs → NodeConfig.node_id c = Some node_id →
                 registered net' node_id.
Proof.
  induction node_configs as [|config node_configs IH]; intros net w net' w' Hb Hrun.
  - injection Hrun as <- _. split; [done|]. split; [done|]. split; [done|].
    split; [done|]. intros c node_id Hc. by apply elem_of_nil in Hc.
  - cbn [add_configs] in Hrun. bind_step in Hrun.
    destruct (node_of_config config w) as [[node w1]|e|] eqn:Hnode; try done.
    assert (∀ node_id, NodeConfig.node_id config = Some node_id →
                       MeshNode.node_id node = node_id) as Hid.
    { intros node_id Hsome. unfold node_of_config in Hnode. bind_step in Hnode.
      simpl in Hnode. bind_step in Hnode.
      destruct (NodeConfig.node_type config) as [name|]; [|done]. simpl in Hnode.
      bind_step in Hnode.
      destruct (node_type_of_name name _) as [[node_type w2]|e|]; try done.
      injection Hnode as <- _. simpl. by rewrite Hsome. }
    destruct (IH _ _ _ _ (built_add_node _ node Hb) Hrun)
      as (Hbuilt&Hprefix&Hlink&Hlat&Hids).
    split; [done|].
    split; [etrans; [apply keys_add_node_prefix|done]|].
    split.
    { intros u v. rewrite Hlink. apply link_add_node_iff. by apply built_graph_keyed. }
    split.
    { intros u v. rewrite Hlat. unfold add_node, latency.
      by destruct (odict.mem _ _). }
    intros c node_id [->|Hc]%elem_of_cons Hc_id; [|by eapply Hids].
    destruct Hprefix as [more Hprefix]. unfold registered. rewrite Hprefix.
    apply elem_of_app. left. apply registered_add_node_iff. right.
    symmetry. by apply Hid.
Qed.

Lemma star_latency_nodes net net' n :
  nodes net' = nodes net → star_latency net' n = star_latency net n.
Proof. unfold star_latency. by intros ->. Qed.

(** The second loop of [initialize_mesh]: the links and latencies it
    records. *)
Lemma connect_star_spec hub others : ∀ net w,
  built net →
  registered net hub →
  (∀ n, n ∈ others → registered net n) →
  NoDup (hub :: others) →
  ∃ net',
    connect_star net hub others w = Ok (net', w)
    ∧ built net'
    ∧ nodes net' = nodes net
    ∧ (∀ u v, link net' u v
              ↔ link net u v ∨ (u = hub ∧ v ∈ others) ∨ (v = hub ∧ u ∈ others))
    ∧ (∀ n, n ∈ others →
            latency net' hub n = star_latency net n
            ∧ latency net' n hub = star_latency net n)
    ∧ (∀ u v, ¬ (u = hub ∧ v ∈ others) → ¬ (v = hub ∧ u ∈ others) →
              latency net' u v = latency net u v).
Proof.
  induction others as [|a others IH]; intros net w Hb Hhub Hothers Hnd.
  - exists net. split; [done|]. split; [done|]. split; [done|]. split.
    { intros u v. split; [by left|]. intros [?|[[_ Hin]|[_ Hin]]]; [done|..];
        by apply elem_of_nil in Hin. }
    split; [intros n Hn; by apply elem_of_nil in Hn|done].
  - apply NoDup_cons in Hnd as [Hhub_new Hnd].
    assert (a ≠ hub) as Ha_hub by (intros ->; apply Hhub_new; by left).
    apply NoDup_cons in Hnd as [Ha_new Hnd].
    assert (NoDup (hub :: others)) as Hnd'.
    { apply NoDup_cons. split; [|done]. intros Hin. apply Hhub_new. by right. }
    assert (registered net a) as Ha by (apply Hothers; by left).
    destruct (odict_mem_get a (nodes net)) as [node Hnode];
      [by apply odict_mem_registered|].
    set (latency_ms :=
           if decide (MeshNode.node_type node = NodeType.LOCAL) then 50%Z else 100%Z).
    destruct (connect_nodes_total net hub a latency_ms 100 w (built_graph_keyed net Hb))
      as (net1&ok&Hconnect&Hok).
    assert (ok = true) as -> by by apply Hok.
    destruct (connect_nodes_spec _ _ _ _ _ _ _ _ _ Hconnect) as (Hnodes&_&Htrue).
    destruct (Htrue eq_refl) as (_&_&Hlat&Hlink).
    assert (built net1) as Hb1 by by eapply built_connect_nodes.
    destruct (IH net1 w Hb1) as (net'&Hrun&Hb'&Hnodes'&Hlink'&Hstar&Hkeep);
      [by unfold registered; rewrite Hnodes
      |intros n Hn; unfold registered; rewrite Hnodes; apply Hothers; by right
      |done|].
    assert (latency net1 hub a = latency_ms ∧ latency net1 a hub = latency_ms)
      as [Hhub_a Ha_hub'].
    { unfold latency. rewrite Hlat. split.
      - rewrite lookup_insert_ne by (intros [= ? ?]; done).
        by rewrite lookup_insert_eq.
      - by rewrite lookup_insert_eq. }
    assert (star_latency net a = latency_ms) as Hstar_a.
    { unfold star_latency. by rewrite Hnode. }
    exists net'. split.
    { cbn [connect_star]. bind_step. unfold odict.getitem. rewrite Hnode. simpl.
      bind_step. fold latency_ms. by rewrite Hconnect. }
    split; [done|]. split; [by rewrite Hnodes'|]. split.
    { intros u v. rewrite Hlink', Hlink. rewrite !elem_of_cons. naive_solver. }
    split.
    { intros n [->|Hn]%elem_of_cons.
      - rewrite Hstar_a. rewrite !Hkeep; [done|..]; intros [? ?]; done.
      - destruct (Hstar n Hn) as [H1 H2].
        by rewrite H1, H2, (star_latency_nodes net net1). }
    intros u v Huv Hvu. rewrite Hkeep.
    + unfold latency. rewrite Hlat.
      rewrite !lookup_insert_ne; [done|..]; intros [= -> ->].
      * apply Huv. split; [done|by left].
      * apply Hvu. split; [done|by left].
    + intros [-> Hin]. apply Huv. split; [done|by right].
    + intros [-> Hin]. apply Hvu. split; [done|by right].
Qed.

(** X21: on a built network and configs that all name a node type,
    [initialize_mesh] returns [True] and leaves a built network that keeps
    the nodes registered before, in place, and has every id given in a
    config.  The first node of the registry is the hub: it is linked both
    ways with every other node, at latency 50 to a local node and 100 to any
    other; the links are the old ones and these.  Hence every registered
    node is reachable from every other along at most two links. *)
Theorem initialize_mesh_builds_star self node_configs w :
  built (MeshIDECoordinator.network self) →
  Forall valid node_configs →
  ∃ self' w',
    initialize_mesh self node_configs w = Ok (self', true, w')
    ∧ MeshIDECoordinator.replication self' = MeshIDECoordinator.replication self
    ∧ MeshIDECoordinator.guardians self' = MeshIDECoordinator.guardians self
    ∧ built (MeshIDECoordinator.network self')
    ∧ odict.keys (nodes (MeshIDECoordinator.network self))
      `prefix_of` odict.keys (nodes (MeshIDECoordinator.network self'))
    ∧ (∀ c node_id, c ∈ node_configs → NodeConfig.node_id c = Some node_id →
                    registered (MeshIDECoordinator.network self') node_id)
    ∧ (∀ hub others,
         odict.keys (nodes (MeshIDECoordinator.network self')) = hub :: others →
         (∀ u v, link (MeshIDECoordinator.network self') u v
                 ↔ link (MeshIDECoordinator.network self) u v
                   ∨ (u = hub ∧ v ∈ others) ∨ (v = hub ∧ u ∈ others))
         ∧ (∀ n, n ∈ others →
                 latency (MeshIDECoordinator.network self') hub n
                 = star_latency (MeshIDECoordinator.network self') n
                 ∧ latency (MeshIDECoordinator.network self') n hub
                   = star_latency (MeshIDECoordinator.network self') n))
    ∧ (∀ a b, registered (MeshIDECoordinator.network self') a →
              registered (MeshIDECoordinator.network self') b →
              ∃ p, is_path (MeshIDECoordinator.network self') a b p
                   ∧ (List.length p ≤ 3)%nat).
Proof.
  intros Hbuilt Hvalid.
  destruct (add_configs_total node_configs (MeshIDECoordinator.network self) w Hvalid)
    as (net1&w'&Hadd).
  destruct (add_configs_spec _ _ _ _ _ Hbuilt Hadd) as (Hb1&Hprefix&Hlink1&Hlat1&Hids).
  assert (∃ net',
            match odict.keys (nodes net1) with
            | [] => mret net1
            | hub :: others => connect_star net1 hub others
            end w' = Ok (net', w')
            ∧ built net' ∧ nodes net' = nodes net1
            ∧ ∀ hub others, odict.keys (nodes net1) = hub :: others →
                (∀ u v, link net' u v
                        ↔ link net1 u v ∨ (u = hub ∧ v ∈ others) ∨ (v = hub ∧ u ∈ others))
                ∧ (∀ n, n ∈ others →
                        latency net' hub n = star_latency net1 n
                        ∧ latency net' n hub = star_latency net1 n))
    as (net'&Hstar&Hb'&Hnodes&Hshape).
  { destruct (odict.keys (nodes net1)) as [|hub others] eqn:Hkeys.
    - exists net1. by repeat split.
    - destruct (built_wf net1 Hb1) as [Hnd _]. rewrite Hkeys in Hnd.
      destruct (connect_star_spec hub others net1 w' Hb1)
        as (net'&Hrun&Hb'&Hnodes&Hlink&Hlat&_); [..|done|].
      { unfold registered. rewrite Hkeys. by left. }
      { intros n Hn. unfold registered. rewrite Hkeys. by right. }
      exists net'. split; [done|]. split; [done|]. split; [done|].
      by intros ? ? [= <- <-]. }
  eexists _, w'. split.
  { unfold initialize_mesh. bind_step. rewrite Hadd. bind_step. rewrite Hstar.
    reflexivity. }
  simpl. split; [done|]. split; [done|]. split; [done|].
  split; [by rewrite Hnodes|].
  split; [intros c node_id Hc Hid; unfold registered; rewrite Hnodes; by eapply Hids|].
  split.
  { intros hub others Hkeys. rewrite Hnodes in Hkeys.
    destruct (Hshape hub others Hkeys) as [Hlink Hlat]. split.
    - intros u v. by rewrite Hlink, Hlink1.
    - intros n Hn. rewrite (star_latency_nodes net1 net' n Hnodes). by apply Hlat. }
  intros a b Ha Hb. unfold registered in Ha, Hb. rewrite Hnodes in Ha, Hb.
  destruct (odict.keys (nodes net1)) as [|hub others] eqn:Hkeys;
    [by apply elem_of_nil in Ha|].
  destruct (Hshape hub others eq_refl) as [Hlink _].
  destruct (decide (a = b)) as [->|Hab].
  { exists [b]. split; [apply is_path_refl|simpl; lia]. }
  apply elem_of_cons in Ha as [->|Ha], Hb as [->|Hb]; [done|..].
  - exists [hub; b]. split; [|simpl; lia].
    apply (is_path_snoc _ hub hub b [hub]); [apply is_path_refl|].
    apply Hlink. right. by left.
  - exists [a; hub]. split; [|simpl; lia].
    apply (is_path_snoc _ a a hub [a]); [apply is_path_refl|].
    apply Hlink. right. by right.
  - exists [a; hub; b]. split; [|simpl; lia].
    apply (is_path_snoc _ a hub b [a; hub]).
    + apply (is_path_snoc _ a a hub [a]); [apply is_path_refl|].
      apply Hlink. right. by right.
    + apply Hlink. right. by left.
Qed.

Lemma initialize_mesh_builds_star_witness :
  ∃ self' w',
    initialize_mesh RouterSpec.coordinator
      [config "dev" "LOCAL"; config "gpu" "CLOUD"] Fixture.world = Ok (self', true, w')
    ∧ built (MeshIDECoordinator.network self')
    ∧ registered (MeshIDECoordinator.network self') "gpu"
    ∧ ∃ p, is_path (MeshIDECoordinator.network self') "gpu" "edge_1" p
           ∧ (List.length p ≤ 3)%nat.
Proof.
  destruct (initialize_mesh_builds_star RouterSpec.coordinator
              [config "dev" "LOCAL"; config "gpu" "CLOUD"] Fixture.world)
    as (self'&w'&Hrun&_&_&Hbuilt&Hprefix&Hids&_&Hreach).
  - repeat apply built_add_node. apply built_init.
  - repeat constructor; eexists; (split; [reflexivity|]);
      unfold valid_type_name; rewrite !elem_of_cons; auto.
  - assert (registered (MeshIDECoordinator.network self') "gpu") as Hgpu.
    { apply (Hids (config "gpu" "CLOUD")); [|reflexivity]. right. by left. }
    assert (registered (MeshIDECoordinator.network self') "edge_1") as Hedge.
    { destruct Hprefix as [more Hkeys]. unfold registered. rewrite Hkeys.
      apply elem_of_app. left. right. by left. }
    exists self', w'. split; [exact Hrun|]. split; [exact Hbuilt|].
    split; [exact Hgpu|]. exact (Hreach "gpu" "edge_1" Hgpu Hedge).
Defined.

(** X22: when a config lacks ['node_type'] or names no member of
    [NodeType], and the configs before it are fine, [initialize_mesh] raises
    [KeyError]: with the key ['node_type'] in the first case, with the
    unknown name in the second. *)
Theorem initialize_mesh_raises_KeyError self good bad rest w :
  Forall valid good →
  ¬ valid bad →
  initialize_mesh self (good ++ bad :: rest) w
  = Raise (KeyError (default "node_type" (NodeConfig.node_type bad))).
Proof.
  intros Hgood Hbad. unfold initialize_mesh. bind_step.
  by rewrite add_configs_raises.
Qed.

Lemma initialize_mesh_raises_KeyError_witness :
  initialize_mesh RouterSpec.coordinator
    ([config "dev" "LOCAL"] ++ config "gpu" "GPU" :: [config "far" "CLOUD"]) Fixture.world
  = Raise (KeyError "GPU").
Proof.
  apply (initialize_mesh_raises_KeyError RouterSpec.coordinator [config "dev" "LOCAL"]
           (config "gpu" "GPU") [config "far" "CLOUD"] Fixture.world).
  - repeat constructor. eexists. split; [reflexivity|].
    unfold valid_type_name. rewrite !elem_of_cons. auto.
  - intros (name&[= <-]&Hvalid). unfold valid_type_name in Hvalid.
    rewrite !elem_of_cons, elem_of_nil in Hvalid.
    destruct Hvalid as [?|[?|[?|[?|[?|[]]]]]]; discriminate.
Defined.

End initialize_mesh.

(** ** The format of hashes and file ids *)
Section hash_format.
  Import HashFacts.

  Local Open Scope list_scope.

Lemma length_bind_const {A B} (f : A → list B) k (l : list A) :
  (∀ x, length (f x) = k) → length (l ≫= f) = k * length l.
Proof.
  intros Hf. induction l as [|x l IH]; [simpl; lia|].
  rewrite bind_cons, length_app, Hf, IH. simpl. lia.
Qed.

Lemma substring_string_of_list_ascii n : ∀ l,
  String.substring 0 n (String.string_of_list_ascii l)
  = String.string_of_list_ascii (take n l).
Proof.
  induction n as [|n IH]; intros [|c l]; simpl; try done. by rewrite IH.
Qed.

Lemma length_string_of_list l :
  String.length (String.string_of_list_ascii l) = length l.
Proof. induction l as [|c l IH]; simpl; [done|]. by rewrite IH. Qed.

Lemma hex_digit_hex d : (0 ≤ d < 16)%Z → hex_char (SHA256.hex_digit d).
Proof.
  intros Hd.
  assert (Forall (λ d, hex_char (SHA256.hex_digit d)) (seqZ 0 16)) as Hall.
  { unfold hex_char. apply (bool_decide_unpack _). vm_compute. exact I. }
  rewrite Forall_forall in Hall. apply Hall. apply elem_of_seqZ. lia.
Qed.

Lemma hex_of_byte_hex b : byte b → Forall hex_char (SHA256.hex_of_byte b).
Proof.
  intros Hb. unfold byte in Hb. unfold SHA256.hex_of_byte.
  apply Forall_cons. split; [|apply Forall_cons; split; [|apply Forall_nil_2]];
    apply hex_digit_hex.
  - split; [apply Z.div_pos; lia|apply Z.div_lt_upper_bound; lia].
  - apply Z.mod_pos_bound. lia.
Qed.

Lemma hex_of_bytes_hex bs : Forall byte bs → Forall hex_char (bs ≫= SHA256.hex_of_byte).
Proof.
  intros Hbs. apply Forall_bind. eapply Forall_impl; [exact Hbs|].
  intros b Hb. by apply hex_of_byte_hex.
Qed.

Lemma be_bytes_byte n x : Forall byte (SHA256.be_bytes n x).
Proof.
  induction n as [|n IH]; simpl; constructor; [|done].
  apply Z.mod_pos_bound. lia.
Qed.

Lemma le_bytes_byte n : ∀ x, Forall byte (MD5.le_bytes n x).
Proof.
  induction n as [|n IH]; intros x; simpl; constructor; [|done].
  apply Z.mod_pos_bound. lia.
Qed.

Lemma be_bytes_length n x : length (SHA256.be_bytes n x) = n.
Proof. induction n as [|n IH]; simpl; [done|]. by rewrite IH. Qed.

Lemma le_bytes_length n : ∀ x, length (MD5.le_bytes n x) = n.
Proof. induction n as [|n IH]; intros x; simpl; [done|]. by rewrite IH. Qed.

Lemma sha256_round_length st kw : length (SHA256.round st kw) = length st.
Proof.
  unfold SHA256.round. do 9 (destruct st as [|? st]; [done|]). done.
Qed.

Lemma sha256_compress_length hs block : length (SHA256.compress hs block) = length hs.
Proof.
  unfold SHA256.compress. rewrite length_zip_with.
  assert (∀ l st, length (foldl SHA256.round st l) = length st) as Hfold.
  { induction l as [|kw l IH]; intros st; [done|]. simpl.
    by rewrite IH, sha256_round_length. }
  rewrite Hfold. lia.
Qed.

Lemma sha256_digest_words_length msg : length (SHA256.digest_words msg) = 8.
Proof.
  unfold SHA256.digest_words.
  assert (∀ l hs, length (foldl SHA256.compress hs l) = length hs) as Hfold.
  { induction l as [|b l IH]; intros hs; [done|]. simpl.
    by rewrite IH, sha256_compress_length. }
  by rewrite Hfold.
Qed.

Lemma md5_step_length m st i : length (MD5.step m st i) = length st.
Proof.
  unfold MD5.step. do 5 (destruct st as [|? st]; [try done|]); [|done].
  by repeat destruct (decide _).
Qed.

Lemma md5_compress_length hs block : length (MD5.compress hs block) = length hs.
Proof.
  unfold MD5.compress. rewrite length_zip_with.
  assert (∀ l st, length (foldl (MD5.step block) st l) = length st) as Hfold.
  { induction l as [|i l IH]; intros st; [done|]. simpl.
    by rewrite IH, md5_step_length. }
  rewrite Hfold. lia.
Qed.

Lemma md5_digest_words_length msg : length (MD5.digest_words msg) = 4.
Proof.
  unfold MD5.digest_words.
  assert (∀ l hs, length (foldl MD5.compress hs l) = length hs) as Hfold.
  { induction l as [|b l IH]; intros hs; [done|]. simpl.
    by rewrite IH, md5_compress_length. }
  by rewrite Hfold.
Qed.

(** X23: the hash of any content is a string of exactly 16 lowercase
    hexadecimal digits; in particular it is never empty. *)
Theorem content_hash_is_16_hex_digits content :
  String.length (content_hash content) = 16
  ∧ Forall hex_char (String.list_ascii_of_string (content_hash content))
  ∧ content_hash content ≠ EmptyString.
Proof.
  unfold content_hash, SHA256.hexdigest.
  rewrite substring_string_of_list_ascii.
  set (digits := (SHA256.digest_words (SHA256.bytes_of_string content)
                    ≫= SHA256.be_bytes 4) ≫= SHA256.hex_of_byte).
  assert (length digits = 64) as Hlen.
  { unfold digits. rewrite (length_bind_const _ 2) by done.
    rewrite (length_bind_const _ 4) by (intros x; apply be_bytes_length).
    by rewrite sha256_digest_words_length. }
  assert (String.length (String.string_of_list_ascii (take 16 digits)) = 16) as Hlen16.
  { rewrite length_string_of_list, length_take, Hlen. done. }
  split; [done|]. split.
  - rewrite String.list_ascii_of_string_of_list_ascii. apply Forall_take.
    apply hex_of_bytes_hex, Forall_bind, Forall_forall.
    intros x _. apply be_bytes_byte.
  - intros Hempty. by rewrite Hempty in Hlen16.
Qed.

(** X24: the id that [add_file] and [open_file] derive from a path is
    [file_] followed by exactly 8 lowercase hexadecimal digits. *)
Theorem file_id_is_file_and_8_hex_digits path :
  ∃ digits,
    file_id_of_path path = ("file_" +:+ digits)%string
    ∧ String.length digits = 8
    ∧ Forall hex_char (String.list_ascii_of_string digits).
Proof.
  unfold file_id_of_path, MD5.hexdigest.
  rewrite substring_string_of_list_ascii.
  set (digits := (MD5.digest_words (SHA256.bytes_of_string path)
                    ≫= MD5.le_bytes 4) ≫= SHA256.hex_of_byte).
  assert (length digits = 32) as Hlen.
  { unfold digits. rewrite (length_bind_const _ 2) by done.
    rewrite (length_bind_const _ 4) by (intros x; apply le_bytes_length).
    by rewrite md5_digest_words_length. }
  eexists. split; [reflexivity|]. split.
  - rewrite length_string_of_list, length_take, Hlen. done.
  - rewrite String.list_ascii_of_string_of_list_ascii. apply Forall_take.
    apply hex_of_bytes_hex, Forall_bind, Forall_forall.
    intros x _. apply le_bytes_byte.
Qed.

End hash_format.

(** ** Telemetry *)
Section telemetry.
  Import MeshTelemetry CoordinatorFacts ReplicationSpec ReplicaFacts.

  Local Open Scope string_scope.
  Local Open Scope list_scope.

Lemma py_sum_zero {A} (f : A → Z) (l : list A) :
  Forall (λ x, f x = 0%Z) l → py_sum f l = 0%Z.
Proof.
  intros Hall. unfold py_sum.
  assert (∀ acc, foldl (λ acc x, (acc + f x)%Z) acc l = acc) as Hfold; [|apply Hfold].
  induction Hall as [|x l Hx _ IH]; intros acc; [done|].
  simpl. by rewrite Hx, Z.add_0_r.
Qed.

Lemma filter_all {A} (P : A → Prop) `{!∀ x, Decision (P x)} (l : list A) :
  Forall P l → filter P l = l.
Proof.
  induction 1 as [|x l Hx _ IH]; [done|]. by rewrite filter_cons_True, IH.
Qed.

(** X25: whatever register, replicate, sync and resolve calls were made
    since the manager was created, the sync statistics, when there is an
    event at all, count every event as successful and report a total
    latency of zero. *)
Theorem get_sync_stats_reports_only_successes network ops w0 coordinator w :
  run_ops network CodeReplicationManager.init ops w0
  = Ok (MeshIDECoordinator.replication coordinator, w) →
  match get_sync_stats coordinator with
  | None =>
      CodeReplicationManager.sync_events (MeshIDECoordinator.replication coordinator) = []
  | Some stats =>
      total_sync_events stats
      = length (CodeReplicationManager.sync_events
                  (MeshIDECoordinator.replication coordinator))
      ∧ (0 < total_sync_events stats)%nat
      ∧ successful_syncs stats = total_sync_events stats
      ∧ total_latency_ms stats = 0%Z
      ∧ avg_latency_ms stats
        = {| dividend := 0; divisor := total_sync_events stats |}
  end.
Proof.
  intros Hrun.
  destruct (run_ops_manager_ok _ _ _ _ _ _ manager_ok_init Hrun) as [(_&Hevents&_) _].
  unfold get_sync_stats.
  destruct (CodeReplicationManager.sync_events _) as [|e events]; [done|].
  assert (py_sum SyncEvent.latency_ms (e :: events) = 0%Z) as Hsum.
  { apply py_sum_zero. eapply Forall_impl; [exact Hevents|]. by intros x (_&?&_). }
  cbn [total_sync_events successful_syncs total_latency_ms avg_latency_ms].
  rewrite Hsum. split; [done|]. split; [simpl; lia|]. split; [|done].
  rewrite filter_all; [done|]. eapply Forall_impl; [exact Hevents|]. by intros x (?&_).
Qed.

Lemma get_sync_stats_reports_only_successes_witness :
  ∃ stats,
    get_sync_stats
      {| MeshIDECoordinator.network := Fixture.network;
         MeshIDECoordinator.replication := after register_replicate_sync_twice;
         MeshIDECoordinator.guardians := GuardianAgentSystem.init;
         MeshIDECoordinator.router := ExecutionRouter.init;
         MeshIDECoordinator.coordinator_id := "c" |} = Some stats
    ∧ total_sync_events stats = 2%nat
    ∧ successful_syncs stats = 2%nat
    ∧ total_latency_ms stats = 0%Z.
Proof.
  set (coordinator :=
         {| MeshIDECoordinator.network := Fixture.network;
            MeshIDECoordinator.replication := after register_replicate_sync_twice;
            MeshIDECoordinator.guardians := GuardianAgentSystem.init;
            MeshIDECoordinator.router := ExecutionRouter.init;
            MeshIDECoordinator.coordinator_id := "c" |}).
  assert (run_ops Fixture.network CodeReplicationManager.init
            register_replicate_sync_twice Fixture.world
          = Ok (MeshIDECoordinator.replication coordinator,
                world_after register_replicate_sync_twice)) as Hrun
    by (vm_compute; reflexivity).
  pose proof (get_sync_stats_reports_only_successes Fixture.network
                register_replicate_sync_twice Fixture.world coordinator
                (world_after register_replicate_sync_twice) Hrun) as Hstats.
  assert (length (CodeReplicationManager.sync_events
                    (MeshIDECoordinator.replication coordinator)) = 2%nat) as Hlen
    by (vm_compute; reflexivity).
  destruct (get_sync_stats coordinator) as [stats|].
  - destruct Hstats as (Htotal&_&Hok&Hlat&_). exists stats.
    split; [reflexivity|]. rewrite Hok, Htotal, Hlen. split; [reflexivity|].
    split; [reflexivity|exact Hlat].
  - rewrite Hstats in Hlen. discriminate Hlen.
Defined.

(** Every call of [execute_code] completes; it changes at most the history,
    by appending one record. *)
Lemma execute_code_history self file_id context developer_node w :
  ∃ self' out w',
    CodeExecution.execute_code self file_id context developer_node w
    = Ok (self', out, w')
    ∧ MeshIDECoordinator.replication self' = MeshIDECoordinator.replication self
    ∧ MeshIDECoordinator.network self' = MeshIDECoordinator.network self
    ∧ (ExecutionRouter.execution_history (MeshIDECoordinator.router self')
       = ExecutionRouter.execution_history (MeshIDECoordinator.router self)
       ∨ ∃ record,
           stub_record record
           ∧ ExecutionRouter.execution_history (MeshIDECoordinator.router self')
             = ExecutionRouter.execution_history (MeshIDECoordinator.router self)
               ++ [record]).
Proof.
  unfold CodeExecution.execute_code.
  destruct (CodeReplicationManager.files (MeshIDECoordinator.replication self) !! file_id)
    as [metadata|] eqn:Hfile.
  2:{ exists self, (CodeExecution.error "Could not create execution plan"), w. split.
      { bind_step. unfold ExecutionRouter.plan_execution.
        rewrite bool_decide_eq_false_2 by (by apply not_elem_of_dom). reflexivity. }
      split; [done|]. split; [done|]. by left. }
  destruct (plan_execution_plan (MeshIDECoordinator.network self)
              (MeshIDECoordinator.replication self) file_id context developer_node w
              metadata Hfile) as (plan&w'&Hplan&_&_&_&_&_&Hlen&_).
  destruct (FileMetadata.get_primary_replica metadata) as [primary|] eqn:Hprimary.
  - eexists _, _, w'. split.
    { bind_step. rewrite Hplan. bind_step. unfold getitem. rewrite Hfile. simpl.
      rewrite Hprimary. reflexivity. }
    simpl. split; [done|]. split; [done|]. right. eexists. split; [|done].
    unfold stub_record. simpl. by rewrite Hlen.
  - exists self, (CodeExecution.error "No code replica found"), w'. split.
    { bind_step. rewrite Hplan. bind_step. unfold getitem. rewrite Hfile. simpl.
      by rewrite Hprimary. }
    split; [done|]. split; [done|]. by left.
Qed.

Lemma execute_all_spec requests : ∀ self w,
  Forall stub_record (ExecutionRouter.execution_history (MeshIDECoordinator.router self)) →
  ∃ self' w',
    execute_all self requests w = Ok (self', w')
    ∧ MeshIDECoordinator.replication self' = MeshIDECoordinator.replication self
    ∧ Forall stub_record
        (ExecutionRouter.execution_history (MeshIDECoordinator.router self'))
    ∧ (length (ExecutionRouter.execution_history (MeshIDECoordinator.router self'))
       ≤ length (ExecutionRouter.execution_history (MeshIDECoordinator.router self))
         + length requests)%nat.
Proof.
  induction requests as [|[[file_id context] developer_node] requests IH];
    intros self w Hall.
  - exists self, w. split; [done|]. split; [done|]. split; [done|]. lia.
  - destruct (execute_code_history self file_id context developer_node w)
      as (self1&out&w1&Hone&Hrep&_&Hhistory).
    assert (Forall stub_record
              (ExecutionRouter.execution_history (MeshIDECoordinator.router self1))
            ∧ (length (ExecutionRouter.execution_history (MeshIDECoordinator.router self1))
               ≤ S (length (ExecutionRouter.execution_history
                              (MeshIDECoordinator.router self))))%nat) as [Hall1 Hlen1].
    { destruct Hhistory as [->|(record&Hrecord&->)]; [split; [done|lia]|]. split.
      - apply Forall_app. split; [done|]. by apply Forall_singleton.
      - rewrite length_app. simpl. lia. }
    destruct (IH self1 w1 Hall1) as (self'&w'&Hrest&Hrep'&Hall'&Hlen').
    exists self', w'. split.
    { cbn [execute_all]. bind_step. by rewrite Hone. }
    split; [by rewrite Hrep'|]. split; [done|]. simpl. lia.
Qed.

(** X26: on a coordinator whose history is empty, any sequence of
    [execute_code] calls completes, and the execution statistics afterwards,
    when there is a record at all, count every execution as a success and
    report a total time of zero; there are at most as many records as
    calls. *)
Theorem get_execution_stats_reports_only_successes self requests w :
  ExecutionRouter.execution_history (MeshIDECoordinator.router self) = [] →
  ∃ self' w',
    execute_all self requests w = Ok (self', w')
    ∧ match get_execution_stats self' with
      | None =>
          ExecutionRouter.execution_history (MeshIDECoordinator.router self') = []
      | Some stats =>
          total_executions stats
          = length (ExecutionRouter.execution_history (MeshIDECoordinator.router self'))
          ∧ (0 < total_executions stats ≤ length requests)%nat
          ∧ success_count stats = total_executions stats
          ∧ total_time_ms stats = 0%Z
          ∧ avg_time_ms stats = {| dividend := 0; divisor := total_executions stats |}
      end.
Proof.
  intros Hempty.
  destruct (execute_all_spec requests self w) as (self'&w'&Hrun&_&Hall&Hlen).
  { rewrite Hempty. constructor. }
  rewrite Hempty in Hlen. simpl in Hlen.
  exists self', w'. split; [done|]. unfold get_execution_stats.
  destruct (ExecutionRouter.execution_history (MeshIDECoordinator.router self'))
    as [|e executions]; [done|].
  assert (py_sum Execution.execution_time_ms (e :: executions) = 0%Z) as Hsum.
  { apply py_sum_zero. eapply Forall_impl; [exact Hall|]. by intros x (_&_&?). }
  cbn [total_executions success_count total_time_ms avg_time_ms].
  rewrite Hsum. split; [done|]. split; [simpl in *; lia|]. split; [|done].
  rewrite filter_all; [done|]. eapply Forall_impl; [exact Hall|]. by intros x (?&_).
Qed.

Lemma get_execution_stats_reports_only_successes_witness :
  ∃ self' w',
    execute_all with_main.1
      [(file_id_of_path "/src/main.py", ExecutionContext.QUANTUM, "local_1");
       ("unknown", ExecutionContext.LOCAL, "local_1")] with_main.2 = Ok (self', w')
    ∧ match get_execution_stats self' with
      | None =>
          ExecutionRouter.execution_history (MeshIDECoordinator.router self') = []
      | Some stats =>
          total_executions stats
          = length (ExecutionRouter.execution_history (MeshIDECoordinator.router self'))
          ∧ (0 < total_executions stats ≤ 2)%nat
          ∧ success_count stats = total_executions stats
          ∧ total_time_ms stats = 0%Z
          ∧ avg_time_ms stats = {| dividend := 0; divisor := total_executions stats |}
      end.
Proof.
  apply (get_execution_stats_reports_only_successes with_main.1
           [(file_id_of_path "/src/main.py", ExecutionContext.QUANTUM, "local_1");
            ("unknown", ExecutionContext.LOCAL, "local_1")] with_main.2).
  vm_compute. reflexivity.
Defined.

End telemetry.
